(** * wtfport: port discovery, process termination and the dashboard loop

    A shallow embedding of the TypeScript sources of wtfport
    ([src/platform/unix-adapter.ts], [src/platform/windows-adapter.ts],
    [src/actions/port-actions.ts], [src/utils/process-utils.ts],
    [src/tui/dashboard.ts], [src/tui/dashboard-handlers.ts]) together with
    the properties stated for them.

    Conventions.
    - A JavaScript string is a [list ascii] (type [str]); only the ASCII
      part of [\s], [\w] and [\d] is modelled.
    - A JavaScript number that the code only ever uses as an integer is an
      [option Z] (type [num]), [None] standing for [NaN]; the loss of
      precision of doubles above 2^53 is not modelled.
    - Asynchronous code runs to completion in a state-and-exception monad;
      every external command, timer and collaborator is answered by an
      environment that sees the whole history of earlier events. *)

From Stdlib Require Import ZArith List Ascii String Bool Lia Permutation.
From Stdlib Require Import DecimalString Sorted.
From stdpp Require Import base option gmap.
Import ListNotations.

Local Open Scope Z_scope.
Local Open Scope list_scope.

(** ** JavaScript strings and numbers *)

Module Js.

Definition str := list ascii.
Definition lit (s : string) : str := list_ascii_of_string s.

(** [number] restricted to integers; [None] is [NaN]. *)
Abbreviation num := (option Z).
Definition NaN : num := None.

(** [a === b] on numbers: [NaN] is different from everything. *)
Definition strict_eq (a b : num) : bool :=
  match a, b with
  | Some x, Some y => x =? y
  | _, _ => false
  end.

(** The comparison of [Map] and [Set] keys (SameValueZero): [NaN] equals [NaN]. *)
Definition same_value (a b : num) : bool :=
  match a, b with
  | Some x, Some y => x =? y
  | None, None => true
  | _, _ => false
  end.

Definition isNaN (a : num) : bool :=
  match a with None => true | Some _ => false end.

Definition code (c : ascii) : N := N_of_ascii c.

Definition is_digit (c : ascii) : bool :=
  ((48 <=? code c) && (code c <=? 57))%N.

(** [\w] is [A-Za-z0-9_]. *)
Definition is_word (c : ascii) : bool :=
  (((65 <=? code c) && (code c <=? 90))
   || ((97 <=? code c) && (code c <=? 122))
   || is_digit c
   || (code c =? 95))%N.

(** White space of [trim] and of [\s]: TAB, LF, VT, FF, CR and SPACE. *)
Definition is_space (c : ascii) : bool :=
  (((9 <=? code c) && (code c <=? 13)) || (code c =? 32))%N.

Fixpoint str_eqb (a b : str) : bool :=
  match a, b with
  | [], [] => true
  | x :: a', y :: b' => Ascii.eqb x y && str_eqb a' b'
  | _, _ => false
  end.

Fixpoint trimStart (s : str) : str :=
  match s with
  | [] => []
  | c :: r => if is_space c then trimStart r else s
  end.

Definition trimEnd (s : str) : str := rev (trimStart (rev s)).

Definition trim (s : str) : str := trimEnd (trimStart s).

(** [s.split(sep)] for a separator given as a set of single characters:
    [split_by (Ascii.eqb c)] is [split("c")], [split_by p] is
    [split(/[...]/)]. *)
Fixpoint split_by (p : ascii -> bool) (s : str) : list str :=
  match s with
  | [] => [[]]
  | c :: r =>
      if p c then [] :: split_by p r
      else match split_by p r with
           | tok :: toks => (c :: tok) :: toks
           | [] => [[c]]
           end
  end.

Definition newline : ascii := ascii_of_N 10.

Definition lines (s : str) : list str := split_by (Ascii.eqb newline) s.

(** [s.split(/\s+/)]: a maximal run of white space is one separator; a
    leading or trailing run leaves an empty first or last piece. *)
Fixpoint split_ws_from (in_sep : bool) (s : str) : list str :=
  match s with
  | [] => [[]]
  | c :: r =>
      if is_space c then
        if in_sep then split_ws_from true r else [] :: split_ws_from true r
      else match split_ws_from false r with
           | tok :: toks => (c :: tok) :: toks
           | [] => [[c]]
           end
  end.

Definition split_ws (s : str) : list str := split_ws_from false s.

Fixpoint startsWith (pre s : str) : bool :=
  match pre, s with
  | [], _ => true
  | p :: pre', c :: s' => Ascii.eqb p c && startsWith pre' s'
  | _ :: _, [] => false
  end.

Fixpoint includes (sub s : str) : bool :=
  startsWith sub s ||
  match s with
  | [] => false
  | _ :: r => includes sub r
  end.

(** [parts.join(" ")] *)
Fixpoint join (sep : str) (l : list str) : str :=
  match l with
  | [] => []
  | [x] => x
  | x :: r => x ++ sep ++ join sep r
  end.

(** The longest prefix of characters satisfying [p], and the rest. *)
Fixpoint span (p : ascii -> bool) (s : str) : str * str :=
  match s with
  | [] => ([], [])
  | c :: r =>
      if p c then let '(a, b) := span p r in (c :: a, b) else ([], s)
  end.

Definition digit_val (c : ascii) : Z := Z.of_N (code c) - 48.

Definition digits_val (ds : str) : Z :=
  fold_left (fun acc c => 10 * acc + digit_val c) ds 0.

(** [parseInt(s, 10)]: leading white space is skipped, one sign is
    accepted, then the longest run of decimal digits is read; no digit
    gives [NaN]. *)
Definition parseInt (s : str) : num :=
  let s1 := trimStart s in
  let '(neg, s2) :=
    match s1 with
    | c :: r =>
        if Ascii.eqb c "-" then (true, r)
        else if Ascii.eqb c "+" then (false, r)
        else (false, s1)
    | [] => (false, s1)
    end in
  match fst (span is_digit s2) with
  | [] => NaN
  | ds => Some (if neg then - digits_val ds else digits_val ds)
  end.

(** [n.toString()] and the interpolation of a number in a template string. *)
Definition toString (n : num) : str :=
  match n with
  | None => lit "NaN"
  | Some z => lit (NilZero.string_of_int (Z.to_int z))
  end.

(** [x || 0] on a number: [NaN] and [0] both give [0]. *)
Definition or_zero (n : num) : Z :=
  match n with Some z => z | None => 0 end.

(** [str.substring(i)] and [arr.slice(i)]. *)
Definition slice {A} (i : nat) (l : list A) : list A := skipn i l.

End Js.

Import Js.

(** ** Asynchronous code as a state-and-exception monad

    An [async] function is run to completion: [M S A] threads the mutable
    state [S] and either returns a value or throws.  Mutations made before
    a [throw] persist, as they do in JavaScript. *)

Module Exec.

Definition Err := str.

Inductive Outcome (A : Type) : Type :=
| Ok (a : A)
| Throw (e : Err).
Arguments Ok {A} a.
Arguments Throw {A} e.

Definition M (S A : Type) : Type := S -> Outcome A * S.

Global Instance M_ret {S} : MRet (M S) := fun A a s => (Ok a, s).

Global Instance M_bind {S} : MBind (M S) := fun A B f m s =>
  match m s with
  | (Ok a, s') => f a s'
  | (Throw e, s') => (Throw e, s')
  end.

Definition throw {S A} (e : Err) : M S A := fun s => (Throw e, s).
Definition get_state {S} : M S S := fun s => (Ok s, s).
Definition modify {S} (f : S -> S) : M S unit := fun s => (Ok tt, f s).
Definition skip {S} : M S unit := mret tt.

(** [try { body } catch (e) { handler(e) }] *)
Definition try_catch {S A} (body : M S A) (handler : Err -> M S A) : M S A :=
  fun s =>
    match body s with
    | (Ok a, s') => (Ok a, s')
    | (Throw e, s') => handler e s'
    end.

(** [try { body } finally { fin }]: [fin] runs on every exit of [body];
    when [fin] itself throws, its exception replaces the outcome. *)
Definition try_finally {S A} (body : M S A) (fin : M S unit) : M S A :=
  fun s =>
    match body s with
    | (r, s') =>
        match fin s' with
        | (Ok _, s'') => (r, s'')
        | (Throw e, s'') => (Throw e, s'')
        end
    end.

(** [if (c) { m }] *)
Definition when {S} (c : bool) (m : M S unit) : M S unit :=
  if c then m else skip.

End Exec.

Import Exec.

(** ** Data model *)

Inductive Protocol := TCP | UDP.

(** Modelled from the spec: the declaration of [PortInfo] in
    [src/port/types.ts] is not among the sources; the fields are those of
    the object literals built by the two parsers, plus the optional
    category [type] read by the renderer. *)
Record PortInfo := mkPortInfo {
  port : num;
  protocol : Protocol;
  pid : num;
  processName : str;
  command : str;
  cwd : option str;
  user : str;
  lifetime : option Z;
  type : option str
}.

(** Modelled from the spec: [PortGroup] of [src/port/types.ts], a named
    bucket of ports sharing a category, with its view-only [collapsed]
    flag. *)
Record PortGroup := mkGroup {
  g_id : str;
  g_type : str;
  g_ports : list PortInfo;
  collapsed : bool
}.

(** [interface ProcessInfo] of both adapters. *)
Record ProcessInfo := mkProcessInfo {
  pi_command : str;
  pi_cwd : option str;
  pi_lifetime : option Z
}.

(** The result of [PortProcessor.processPorts]. *)
Record ProcessedPorts := mkProcessed {
  pp_ports : list PortInfo;
  pp_groups : list PortGroup;
  pp_timestamp : Z
}.

(** The toast of the gamification layer. *)
Record KillMessage := mkKillMessage {
  km_message : str;
  km_emoji : option str;
  km_color : option str
}.

(** [KillStats], with the fields of [getDefaultStats]; [killsByType] is
    an object used as a map from names to counts. *)
Record KillStats := mkStats {
  totalKills : Z;
  killsByType : list (str * Z);
  firstKillTimestamp : option Z;
  lastKillTimestamp : option Z;
  mostKilledPort : option Z;
  mostKilledPortCount : Z;
  forceKills : Z
}.

(** A rank of [src/gamification/killer-ranks.ts] (not among the sources);
    the handlers read its [emoji] and pass it to [formatRank]. *)
Record Rank := mkRank { rank_name : str; rank_emoji : option str }.

(** ** Process Metadata Cache *)

Module CacheManager.

(** Modelled from the spec: [src/platform/cache-manager.ts] is not among
    the sources.  A store keyed by pid whose entries carry their insertion
    time; [get] returns the entry if present and unexpired, else a miss;
    [delete] removes immediately.  An entry is expired once more than
    [ttl] milliseconds have passed since its insertion. *)
Record Entry (V : Type) := mkEntry { value : V; storedAt : Z }.
Arguments mkEntry {V} _ _.
Arguments value {V} _.
Arguments storedAt {V} _.

Record t (V : Type) := mk {
  ttl : Z;
  maxSize : Z;
  store : gmap (option Z) (Entry V)
}.
Arguments mk {V} _ _ _.
Arguments ttl {V} _.
Arguments maxSize {V} _.
Arguments store {V} _.

Definition create {V} (ttl maxSize : Z) : t V := mk ttl maxSize ∅.

Definition get {V} (now : Z) (k : num) (c : t V) : option V :=
  match store c !! k with
  | Some e => if now - storedAt e >? ttl c then None else Some (value e)
  | None => None
  end.

Definition delete {V} (k : num) (c : t V) : t V :=
  mk (ttl c) (maxSize c) (base.delete k (store c)).

End CacheManager.

(** ** The outside world *)

(** What [spawnProcess] resolves to. *)
Record ProcResult := mkProc { exitCode : Z; stdout : str; stderr : str }.

(** The externally visible actions, in the order they are issued. *)
Inductive Event :=
| Spawn (argv : list str)   (* spawnProcess(argv, ...) *)
| Sleep (ms : Z)            (* await new Promise(r => setTimeout(r, ms)) *)
| Call (name : str).        (* a call into a collaborator that is not modelled *)

Record World := mkWorld {
  trace : list Event;    (* events so far, oldest first *)
  errors : list str      (* messages passed to logger.error *)
}.

(** The environment answers every external request from the history of
    events before it: an external command exits with some code and
    output, or the spawn is rejected; a collaborator returns or throws.
    The last three fields are pure library functions. *)
Record Env := mkEnv {
  spawn_result : list Event -> list str -> Outcome ProcResult;
  detect_result : list Event -> Outcome (list PortInfo);
  clear_cache_result : list Event -> Outcome unit;
  process_ports_result : list Event -> list PortInfo -> Outcome ProcessedPorts;
  date_now : list Event -> Z;
  load_stats_result : list Event -> KillStats;
  record_kill_result : list Event -> PortInfo -> bool -> Outcome KillStats;
  kill_message_result : list Event -> PortInfo -> bool -> bool -> Outcome KillMessage;
  current_rank : Z -> Outcome Rank;
  rank_up : Z -> Z -> Outcome (option Rank);
  format_rank : Rank -> Outcome str;
  stats_summary : KillStats -> Outcome str;
  process_command_result : list Event -> option Z -> Outcome str;
  clipboard_result : list Event -> str -> Outcome bool;
  confirm_action_result : list Event -> Outcome unit;
  locale_compare : str -> str -> Z;
  minimatch : str -> str -> bool;
  categorize_port : PortInfo -> str
}.

Record AdapterState := mkAdapter {
  processInfoCache : CacheManager.t ProcessInfo;
  world : World
}.

Definition record_event (e : Event) (a : AdapterState) : AdapterState :=
  mkAdapter (processInfoCache a)
            (mkWorld (trace (world a) ++ [e]) (errors (world a))).

Definition record_error (msg : str) (a : AdapterState) : AdapterState :=
  mkAdapter (processInfoCache a)
            (mkWorld (trace (world a)) (errors (world a) ++ [msg])).

Section Effects.
Variable env : Env.

  (** [await spawnProcess(argv, {stdout: "pipe", stderr: "pipe"})] *)
Definition spawnProcess (argv : list str) : M AdapterState ProcResult :=
    fun a => (spawn_result env (trace (world a)) argv, record_event (Spawn argv) a).

  (** [await new Promise((resolve) => setTimeout(resolve, ms))] *)
Definition sleep (ms : Z) : M AdapterState unit :=
    modify (record_event (Sleep ms)).

  (** [logger.error(msg)] *)
Definition logger_error (msg : str) : M AdapterState unit :=
    modify (record_error msg).
End Effects.

(** [this.invalidateProcessCache(pid)], the same in both adapters. *)
Definition invalidateProcessCache (p : num) : M AdapterState unit :=
  modify (fun a => mkAdapter (CacheManager.delete p (processInfoCache a)) (world a)).

(** A string in a condition is true when it is not empty. *)
Definition truthy (s : str) : bool :=
  match s with [] => false | _ :: _ => true end.

(** ** Process termination: the two platform adapters *)

Module Unix.

(** *** Parsing the output of [lsof -i -P -n] *)

(** [output.trim().split("\n").filter((line) => line.trim())] *)
Definition nonblank_lines (output : str) : list str :=
  List.filter (fun line => truthy (trim line)) (lines (trim output)).

(** [arr[i]] on an array of strings known to be long enough. *)
Definition part (i : nat) (parts : list str) : str := nth i parts [].

Definition is_host_char (c : ascii) : bool := is_word c || Ascii.eqb c ".".

(** A match of [/(\*|[\w.]+):(\d+)/] at the very start of [s]; the
    result is group 2.  A shorter run for [[\w.]+] is never followed by
    [:], so only the longest run is tried. *)
Definition match_address_here (s : str) : option str :=
  let after_host :=
    match s with
    | c :: r =>
        if Ascii.eqb c "*" then Some r
        else match span is_host_char s with
             | ([], _) => None
             | (_ :: _, rest) => Some rest
             end
    | [] => None
    end in
  match after_host with
  | Some (c :: rest) =>
      if Ascii.eqb c ":" then
        match fst (span is_digit rest) with
        | [] => None
        | ds => Some ds
        end
      else None
  | _ => None
  end.

(** [name.match(/(\*|[\w.]+):(\d+)/)]: the leftmost match. *)
Fixpoint match_address (s : str) : option str :=
  match match_address_here s with
  | Some ds => Some ds
  | None => match s with
            | [] => None
            | _ :: r => match_address r
            end
  end.

(** The body of the loop of [parseLsofOutput]: the entry pushed for a
    line, or [None] when the line is skipped. *)
Definition parseLsofLine (line : str) : option PortInfo :=
  if startsWith (lit "COMMAND") line then None
  else
    let parts := split_ws (trim line) in
    if (length parts <? 9)%nat then None
    else
      let command := part 0 parts in
      let pid := parseInt (part 1 parts) in
      let user := part 2 parts in
      let type := part 4 parts in
      let name := join (lit " ") (slice 8 parts) in
      if negb (str_eqb type (lit "IPv4")) && negb (str_eqb type (lit "IPv6")) then None
      else if negb (includes (lit "(LISTEN)") name) then None
      else
        match match_address name with
        | None => None
        | Some digits =>
            let port := parseInt digits in
            let protocol := if includes (lit "UDP") name then UDP else TCP in
            Some (mkPortInfo port protocol pid command [] None user None None)
        end.

(** The [ports] array after the loop. *)
Definition parseLsofLines (output : str) : list PortInfo :=
  omap parseLsofLine (nonblank_lines output).

(** [uniquePids.add(pid)] for every entry pushed: a [Set] in insertion
    order, whose members are compared with [NaN] equal to [NaN]. *)
Definition uniquePids (ports : list PortInfo) : list num :=
  fold_left
    (fun seen p => if existsb (same_value (pid p)) seen then seen else seen ++ [pid p])
    ports [].

(** [ports.map(...)]: the metadata of the batch, if any, is merged by pid. *)
Definition mergeProcessInfo (batch : gmap (option Z) ProcessInfo) (p : PortInfo)
  : PortInfo :=
  match batch !! pid p with
  | Some info =>
      mkPortInfo (port p) (protocol p) (pid p) (processName p)
                 (pi_command info) (pi_cwd info) (user p) (pi_lifetime info) (type p)
  | None => p
  end.

(** [parseLsofOutput(output)], given the map [batch] that
    [getBatchProcessInfo(Array.from(uniquePids))] resolves to. *)
Definition parseLsofOutput (output : str) (batch : gmap (option Z) ProcessInfo)
  : list PortInfo :=
  List.map (mergeProcessInfo batch) (parseLsofLines output).

(** *** Elapsed time of [ps] *)

(** The fragment of regular expressions of [etimePatterns]: a literal
    character, or [\d{lo,hi}]. *)
Inductive Atom :=
| Lit (c : ascii)
| Digits (lo hi : nat).

(** Whether the whole of [s] matches the sequence of atoms; a repetition
    tries the longer run first, as a greedy quantifier does. *)
Fixpoint full_match (pattern : list Atom) (s : str) : bool :=
  match pattern with
  | [] => match s with [] => true | _ :: _ => false end
  | Lit c :: rest =>
      match s with
      | x :: s' => Ascii.eqb x c && full_match rest s'
      | [] => false
      end
  | Digits lo hi :: rest =>
      existsb
        (fun k => (length (firstn k s) =? k)%nat
                  && forallb is_digit (firstn k s)
                  && full_match rest (skipn k s))
        (rev (seq lo (hi - lo + 1)))
  end.

(** [s.match(/(...)$/)] for a pattern anchored at the end only: the
    match starts at the leftmost position from which the rest of [s]
    matches as a whole; group 1 is that rest. *)
Fixpoint match_at_end (pattern : list Atom) (s : str) : option str :=
  if full_match pattern s then Some s
  else match s with
       | [] => None
       | _ :: r => match_at_end pattern r
       end.

Definition dd_hh_mm_ss : list Atom :=
  [Digits 1 2; Lit "-"; Digits 1 2; Lit ":"; Digits 2 2; Lit ":"; Digits 2 2].
Definition hh_mm_ss : list Atom :=
  [Digits 1 2; Lit ":"; Digits 2 2; Lit ":"; Digits 2 2].
Definition mm_ss : list Atom :=
  [Digits 1 2; Lit ":"; Digits 2 2].

Definition etimePatterns : list (list Atom) := [dd_hh_mm_ss; hh_mm_ss; mm_ss].

(** The loop over [etimePatterns]: the first pattern that matches. *)
Fixpoint first_match (patterns : list (list Atom)) (s : str) : option str :=
  match patterns with
  | [] => None
  | p :: rest =>
      match match_at_end p s with
      | Some m => Some m
      | None => first_match rest s
      end
  end.

Definition is_etime_separator (c : ascii) : bool :=
  Ascii.eqb c ":" || Ascii.eqb c "-".

(** [parseEtime(etimeStr)] *)
Definition parseEtime (etimeStr : str) : option Z :=
  if negb (truthy etimeStr) then None
  else
    let parts := split_by is_etime_separator etimeStr in
    let field i := or_zero (parseInt (part i parts)) in
    let totalSeconds :=
      if (length parts =? 4)%nat then
        field 0%nat * 86400 + field 1%nat * 3600 + field 2%nat * 60 + field 3%nat
      else if (length parts =? 3)%nat then
        field 0%nat * 3600 + field 1%nat * 60 + field 2%nat
      else if (length parts =? 2)%nat then
        field 0%nat * 60 + field 1%nat
      else 0 in
    if totalSeconds >? 0 then Some totalSeconds else None.

(** The lifetime [getBatchProcessInfoFromPs] computes for a trimmed
    line of [ps] whose pid was read. *)
Definition lifetime_of_line (trimmed : str) : option Z :=
  match first_match etimePatterns trimmed with
  | Some etimeStr => parseEtime etimeStr
  | None => None
  end.

(** [s.indexOf(" ")] *)
Fixpoint indexOf_space (s : str) : option nat :=
  match s with
  | [] => None
  | c :: r => if Ascii.eqb c " " then Some 0%nat
              else option_map S (indexOf_space r)
  end.

(** [x || "unknown"] *)
Definition or_unknown (s : str) : str := if truthy s then s else lit "unknown".

(** The body of the loop of [getBatchProcessInfoFromPs]: the pid and the
    entry stored for a line, or [None] when the line is skipped.  The
    match of an end-anchored pattern is a suffix of the line, so its
    last occurrence starts where the match does. *)
Definition parsePsLine (line : str) : option (num * (str * option Z)) :=
  let trimmed := trim line in
  if negb (truthy trimmed) then None
  else
    match indexOf_space trimmed with
    | None => None
    | Some firstSpace =>
        let pid := parseInt (firstn firstSpace trimmed) in
        if isNaN pid then None
        else
          match first_match etimePatterns trimmed with
          | Some etimeStr =>
              let etimeStart := (length trimmed - length etimeStr)%nat in
              let command :=
                trim (firstn (etimeStart - (firstSpace + 1))
                             (skipn (firstSpace + 1) trimmed)) in
              Some (pid, (or_unknown command, parseEtime etimeStr))
          | None =>
              let command := trim (skipn (firstSpace + 1) trimmed) in
              Some (pid, (or_unknown command, None))
          end
    end.

Section Adapter.
Variable env : Env.

Definition kill_term (p : num) : list str := [lit "kill"; lit "-TERM"; toString p].
Definition kill_9 (p : num) : list str := [lit "kill"; lit "-9"; toString p].
Definition ps_check (p : num) : list str := [lit "ps"; lit "-p"; toString p].

  (** The end of the [try] block: [if (killed) invalidate; return killed]. *)
Definition finish (p : num) (killed : bool) : M AdapterState bool :=
    when killed (invalidateProcessCache p);;
    mret killed.

  (** The body of the [try] block of [killProcess]. *)
Definition killProcess_try (p : num) (force : bool) : M AdapterState bool :=
    if force then
      proc ← spawnProcess env (kill_9 p);
      when (negb (exitCode proc =? 0) && truthy (stderr proc))
           (logger_error (lit "Failed to kill process " ++ toString p
                          ++ lit ": " ++ stderr proc));;
      finish p (exitCode proc =? 0)
    else
      proc ← spawnProcess env (kill_term p);
      if negb (exitCode proc =? 0) then
        when (truthy (stderr proc))
             (logger_error (lit "Failed to send SIGTERM to process " ++ toString p
                            ++ lit ": " ++ stderr proc));;
        mret false
      else
        sleep 1000;;
        checkProc ← spawnProcess env (ps_check p);
        if exitCode checkProc =? 0 then
          forceProc ← spawnProcess env (kill_9 p);
          when (negb (exitCode forceProc =? 0) && truthy (stderr forceProc))
               (logger_error (lit "Failed to force kill process " ++ toString p
                              ++ lit ": " ++ stderr forceProc));;
          finish p (exitCode forceProc =? 0)
        else
          finish p true.

  (** [UnixPlatformAdapter.killProcess] *)
Definition killProcess (p : num) (force : bool) : M AdapterState bool :=
    try_catch (killProcess_try p force)
      (fun e =>
         invalidateProcessCache p;;
         logger_error (lit "Error killing process " ++ toString p ++ lit ": " ++ e);;
         mret false).
End Adapter.
End Unix.

Module Windows.

(** *** Parsing the output of [netstat -ano] *)

Definition nonblank_lines (output : str) : list str :=
  List.filter (fun line => truthy (trim line)) (lines (trim output)).

Definition upper (c : ascii) : ascii :=
  if ((97 <=? code c) && (code c <=? 122))%N then ascii_of_N (code c - 32) else c.

Definition toUpperCase (s : str) : str := List.map upper s.

(** Whether [s] is [:] followed by one digit or more. *)
Definition is_port_suffix (s : str) : bool :=
  match s with
  | c :: ds => Ascii.eqb c ":" && truthy ds && forallb is_digit ds
  | [] => false
  end.

(** [localAddr.match(/:(\d+)$/)]: group 1 of the leftmost match. *)
Fixpoint match_port (s : str) : option str :=
  if is_port_suffix s then Some (tl s)
  else match s with
       | [] => None
       | _ :: r => match_port r
       end.

(** [parts[parts.length - 1]] *)
Definition last_part (parts : list str) : str := List.last parts [].

(** The body of the first loop of [parseNetstatOutput]: the entry pushed
    for a line, or [None] when the line is skipped. *)
Definition parseNetstatLine (line : str) : option PortInfo :=
  if startsWith (lit "Active") line || startsWith (lit "Proto") line
     || startsWith (lit "  Proto") line then None
  else
    let parts := split_ws (trim line) in
    if (length parts <? 5)%nat then None
    else
      let protocol := toUpperCase (nth 0 parts []) in
      if negb (str_eqb protocol (lit "TCP")) && negb (str_eqb protocol (lit "UDP"))
      then None
      else if negb (str_eqb (last_part parts) (lit "LISTENING")) then None
      else
        let localAddr := nth 1 parts [] in
        match match_port localAddr with
        | None => None
        | Some digits =>
            let port := parseInt digits in
            let pid := parseInt (last_part parts) in
            if isNaN port || isNaN pid then None
            else Some (mkPortInfo port
                         (if str_eqb protocol (lit "UDP") then UDP else TCP)
                         pid [] [] None [] None None)
        end.

(** [`${port.port}-${port.pid}`] *)
Definition dedupe_key (p : PortInfo) : str :=
  toString (port p) ++ lit "-" ++ toString (pid p).

(** The second loop, on a [Map] in insertion order: the first entry of
    each key is kept. *)
Fixpoint dedupe (ports : list PortInfo) (seen : list (str * PortInfo))
  : list (str * PortInfo) :=
  match ports with
  | [] => seen
  | p :: rest =>
      if existsb (fun kv => str_eqb (fst kv) (dedupe_key p)) seen
      then dedupe rest seen
      else dedupe rest (seen ++ [(dedupe_key p, p)])
  end.

(** [parseNetstatOutput(output)] *)
Definition parseNetstatOutput (output : str) : list PortInfo :=
  List.map snd (dedupe (omap parseNetstatLine (nonblank_lines output)) []).

Section Adapter.
Variable env : Env.

Definition taskkill (p : num) : list str := [lit "taskkill"; lit "/PID"; toString p].
Definition taskkill_f (p : num) : list str :=
    [lit "taskkill"; lit "/F"; lit "/PID"; toString p].
Definition tasklist_check (p : num) : list str :=
    [lit "tasklist"; lit "/FI"; lit "PID eq " ++ toString p; lit "/FO"; lit "CSV"; lit "/NH"].

Definition finish (p : num) (killed : bool) : M AdapterState bool :=
    when killed (invalidateProcessCache p);;
    mret killed.

  (** The body of the [try] block of [killProcess]. *)
Definition killProcess_try (p : num) (force : bool) : M AdapterState bool :=
    if force then
      proc ← spawnProcess env (taskkill_f p);
      when (negb (exitCode proc =? 0) && truthy (stderr proc))
           (logger_error (lit "Failed to force kill process " ++ toString p
                          ++ lit ": " ++ stderr proc));;
      finish p (exitCode proc =? 0)
    else
      proc ← spawnProcess env (taskkill p);
      if negb (exitCode proc =? 0) then
        when (truthy (stderr proc))
             (logger_error (lit "Failed to kill process " ++ toString p
                            ++ lit ": " ++ stderr proc));;
        mret false
      else
        sleep 1000;;
        checkProc ← spawnProcess env (tasklist_check p);
        if (exitCode checkProc =? 0) && truthy (trim (stdout checkProc)) then
          forceProc ← spawnProcess env (taskkill_f p);
          when (negb (exitCode forceProc =? 0) && truthy (stderr forceProc))
               (logger_error (lit "Failed to force kill process " ++ toString p
                              ++ lit ": " ++ stderr forceProc));;
          finish p (exitCode forceProc =? 0)
        else
          finish p true.

  (** [WindowsPlatformAdapter.killProcess] *)
Definition killProcess (p : num) (force : bool) : M AdapterState bool :=
    try_catch (killProcess_try p force)
      (fun e =>
         invalidateProcessCache p;;
         logger_error (lit "Error killing process " ++ toString p ++ lit ": " ++ e);;
         mret false).
End Adapter.
End Windows.

(** [process.platform === "win32"] or anything else. *)
Inductive Platform := Win32 | OtherPlatform.

(** The part of [interface PlatformAdapter] used below. *)
Record PlatformAdapter := mkPlatformAdapter {
  adapter_killProcess : num -> bool -> M AdapterState bool
}.

(** [getPlatformAdapter()]: the object it returns is built anew on every
    call, with an empty metadata cache of its own. *)
Definition getPlatformAdapter (env : Env) (platform : Platform) : PlatformAdapter :=
  match platform with
  | Win32 => mkPlatformAdapter (Windows.killProcess env)
  | OtherPlatform => mkPlatformAdapter (Unix.killProcess env)
  end.

Definition new_adapter (w : World) : AdapterState :=
  mkAdapter (CacheManager.create 30000 1000) w.

(** Run a method of a freshly constructed adapter; the adapter and its
    cache are dropped afterwards, the world keeps what happened. *)
Definition on_new_adapter {A} (m : M AdapterState A) : M World A :=
  fun w => let '(r, a) := m (new_adapter w) in (r, world a).

Module ProcessUtils.
Section Utils.
Variable env : Env.
Variable platform : Platform.

  (** [killProcess] of [src/utils/process-utils.ts] *)
Definition killProcess (p : num) (force : bool) : M World bool :=
    try_catch
      (on_new_adapter (adapter_killProcess (getPlatformAdapter env platform) p force))
      (fun _ => mret false).
End Utils.
End ProcessUtils.

(** ** Port actions ([src/actions/port-actions.ts]) *)

Module PortActions.

Record KillReport := mkReport {
  success : bool;
  killed : list PortInfo;
  message : str
}.

(** [`${n}`] for the length of an array. *)
Definition count_str {A} (l : list A) : str := toString (Some (Z.of_nat (length l))).

Definition msg_not_found (p : num) : str :=
  lit "No process found using port " ++ toString p.
Definition msg_all_failed (p : num) : str :=
  lit "Failed to kill processes on port " ++ toString p.
Definition msg_partial (p : num) (killed failed : list PortInfo) : str :=
  lit "Killed " ++ count_str killed ++ lit " process(es) on port " ++ toString p
  ++ lit ", but " ++ count_str failed ++ lit " failed".
Definition msg_all_killed (p : num) (killed : list PortInfo) : str :=
  lit "Successfully killed " ++ count_str killed ++ lit " process(es) on port "
  ++ toString p.
Definition msg_error (p : num) (e : Err) : str :=
  lit "Error killing port " ++ toString p ++ lit ": " ++ e.

Section Actions.
Variable env : Env.
Variable platform : Platform.

  (** [killPort(portInfo, force = false, confirm = true)] *)
Definition killPort (portInfo : PortInfo) (force confirm : bool) : M World bool :=
    if confirm && negb force then
      mret false
    else
      ProcessUtils.killProcess env platform (pid portInfo) force.

  (** [await new PortDetector().detectPorts()]; the detector
      ([src/port/port-detector.ts]) is not among the sources, its result
      comes from the environment. *)
Definition detectPorts : M World (list PortInfo) :=
    fun w => (detect_result env (trace w),
              mkWorld (trace w ++ [Call (lit "detectPorts")]) (errors w)).

  (** The loop [for (const portInfo of matchingPorts)] with its two
      accumulators. *)
Fixpoint kill_each (force : bool) (ports killedAcc failedAcc : list PortInfo)
    : M World (list PortInfo * list PortInfo) :=
    match ports with
    | [] => mret (killedAcc, failedAcc)
    | portInfo :: rest =>
        result ← ProcessUtils.killProcess env platform (pid portInfo) force;
        if result : bool then kill_each force rest (killedAcc ++ [portInfo]) failedAcc
        else kill_each force rest killedAcc (failedAcc ++ [portInfo])
    end.

Definition matchingPorts (p : num) (ports : list PortInfo) : list PortInfo :=
    List.filter (fun q => strict_eq (port q) p) ports.

  (** [killPortByNumber(port, force = false)] *)
Definition killPortByNumber (p : num) (force : bool) : M World KillReport :=
    try_catch
      (ports ← detectPorts;
       let matching := matchingPorts p ports in
       if (length matching =? 0)%nat then
         mret (mkReport false [] (msg_not_found p))
       else
         kf ← kill_each force matching [] [];
         let '(killedL, failedL) := kf in
         if (length killedL =? 0)%nat then
           mret (mkReport false [] (msg_all_failed p))
         else if (0 <? length failedL)%nat then
           mret (mkReport true killedL (msg_partial p killedL failedL))
         else
           mret (mkReport true killedL (msg_all_killed p killedL)))
      (fun e => mret (mkReport false [] (msg_error p e))).
End Actions.
End PortActions.

(** ** The dashboard ([src/tui/dashboard.ts]) *)

Module Dashboard.

Inductive SortKey := ByPort | ByProcess | ByPid.
Inductive SortOption := SortPort | SortProcess | SortPid | SortUser.
Inductive FilterMode := FilterPort | FilterProcess | FilterUser | FilterAll.

(** [confirmAction] is a closure; no code of the dashboard ever assigns
    one, so it is kept as a token and running it is left to the
    environment. *)
Inductive ConfirmAction := PendingAction.

Definition sortkey_eqb (a b : SortKey) : bool :=
  match a, b with
  | ByPort, ByPort | ByProcess, ByProcess | ByPid, ByPid => true
  | _, _ => false
  end.

(** [interface DashboardState] *)
Record DashboardState := mkState {
  ports : list PortInfo;
  groups : list PortGroup;
  selectedIndex : Z;
  selectedGroupIndex : Z;
  filter : str;
  filterMode : FilterMode;
  showHelp : bool;
  showConfirm : bool;
  confirmAction : option ConfirmAction;
  confirmMessage : str;
  showLogs : bool;
  logsContent : option str;
  showCommand : bool;
  commandContent : option str;
  refreshInterval : Z;
  lastUpdate : Z;
  sortBy : SortKey;
  quickKill : bool;
  showDetails : bool;
  searching : bool;
  isKilling : bool;
  killingPort : option (option Z);
  killMessage : option KillMessage;
  killMessageExpiresAt : option Z;
  showStats : bool;
  statsContent : option str;
  currentRank : option str
}.

Definition set_ports (v : list PortInfo) (s : DashboardState) : DashboardState :=
  mkState v (groups s) (selectedIndex s) (selectedGroupIndex s) (filter s) (filterMode s) (showHelp s) (showConfirm s) (confirmAction s) (confirmMessage s) (showLogs s) (logsContent s) (showCommand s) (commandContent s) (refreshInterval s) (lastUpdate s) (sortBy s) (quickKill s) (showDetails s) (searching s) (isKilling s) (killingPort s) (killMessage s) (killMessageExpiresAt s) (showStats s) (statsContent s) (currentRank s).
Definition set_groups (v : list PortGroup) (s : DashboardState) : DashboardState :=
  mkState (ports s) v (selectedIndex s) (selectedGroupIndex s) (filter s) (filterMode s) (showHelp s) (showConfirm s) (confirmAction s) (confirmMessage s) (showLogs s) (logsContent s) (showCommand s) (commandContent s) (refreshInterval s) (lastUpdate s) (sortBy s) (quickKill s) (showDetails s) (searching s) (isKilling s) (killingPort s) (killMessage s) (killMessageExpiresAt s) (showStats s) (statsContent s) (currentRank s).
Definition set_selectedIndex (v : Z) (s : DashboardState) : DashboardState :=
  mkState (ports s) (groups s) v (selectedGroupIndex s) (filter s) (filterMode s) (showHelp s) (showConfirm s) (confirmAction s) (confirmMessage s) (showLogs s) (logsContent s) (showCommand s) (commandContent s) (refreshInterval s) (lastUpdate s) (sortBy s) (quickKill s) (showDetails s) (searching s) (isKilling s) (killingPort s) (killMessage s) (killMessageExpiresAt s) (showStats s) (statsContent s) (currentRank s).
Definition set_filter (v : str) (s : DashboardState) : DashboardState :=
  mkState (ports s) (groups s) (selectedIndex s) (selectedGroupIndex s) v (filterMode s) (showHelp s) (showConfirm s) (confirmAction s) (confirmMessage s) (showLogs s) (logsContent s) (showCommand s) (commandContent s) (refreshInterval s) (lastUpdate s) (sortBy s) (quickKill s) (showDetails s) (searching s) (isKilling s) (killingPort s) (killMessage s) (killMessageExpiresAt s) (showStats s) (statsContent s) (currentRank s).
Definition set_showHelp (v : bool) (s : DashboardState) : DashboardState :=
  mkState (ports s) (groups s) (selectedIndex s) (selectedGroupIndex s) (filter s) (filterMode s) v (showConfirm s) (confirmAction s) (confirmMessage s) (showLogs s) (logsContent s) (showCommand s) (commandContent s) (refreshInterval s) (lastUpdate s) (sortBy s) (quickKill s) (showDetails s) (searching s) (isKilling s) (killingPort s) (killMessage s) (killMessageExpiresAt s) (showStats s) (statsContent s) (currentRank s).
Definition set_showConfirm (v : bool) (s : DashboardState) : DashboardState :=
  mkState (ports s) (groups s) (selectedIndex s) (selectedGroupIndex s) (filter s) (filterMode s) (showHelp s) v (confirmAction s) (confirmMessage s) (showLogs s) (logsContent s) (showCommand s) (commandContent s) (refreshInterval s) (lastUpdate s) (sortBy s) (quickKill s) (showDetails s) (searching s) (isKilling s) (killingPort s) (killMessage s) (killMessageExpiresAt s) (showStats s) (statsContent s) (currentRank s).
Definition set_confirmAction (v : option ConfirmAction) (s : DashboardState) : DashboardState :=
  mkState (ports s) (groups s) (selectedIndex s) (selectedGroupIndex s) (filter s) (filterMode s) (showHelp s) (showConfirm s) v (confirmMessage s) (showLogs s) (logsContent s) (showCommand s) (commandContent s) (refreshInterval s) (lastUpdate s) (sortBy s) (quickKill s) (showDetails s) (searching s) (isKilling s) (killingPort s) (killMessage s) (killMessageExpiresAt s) (showStats s) (statsContent s) (currentRank s).
Definition set_showLogs (v : bool) (s : DashboardState) : DashboardState :=
  mkState (ports s) (groups s) (selectedIndex s) (selectedGroupIndex s) (filter s) (filterMode s) (showHelp s) (showConfirm s) (confirmAction s) (confirmMessage s) v (logsContent s) (showCommand s) (commandContent s) (refreshInterval s) (lastUpdate s) (sortBy s) (quickKill s) (showDetails s) (searching s) (isKilling s) (killingPort s) (killMessage s) (killMessageExpiresAt s) (showStats s) (statsContent s) (currentRank s).
Definition set_logsContent (v : option str) (s : DashboardState) : DashboardState :=
  mkState (ports s) (groups s) (selectedIndex s) (selectedGroupIndex s) (filter s) (filterMode s) (showHelp s) (showConfirm s) (confirmAction s) (confirmMessage s) (showLogs s) v (showCommand s) (commandContent s) (refreshInterval s) (lastUpdate s) (sortBy s) (quickKill s) (showDetails s) (searching s) (isKilling s) (killingPort s) (killMessage s) (killMessageExpiresAt s) (showStats s) (statsContent s) (currentRank s).
Definition set_showCommand (v : bool) (s : DashboardState) : DashboardState :=
  mkState (ports s) (groups s) (selectedIndex s) (selectedGroupIndex s) (filter s) (filterMode s) (showHelp s) (showConfirm s) (confirmAction s) (confirmMessage s) (showLogs s) (logsContent s) v (commandContent s) (refreshInterval s) (lastUpdate s) (sortBy s) (quickKill s) (showDetails s) (searching s) (isKilling s) (killingPort s) (killMessage s) (killMessageExpiresAt s) (showStats s) (statsContent s) (currentRank s).
Definition set_commandContent (v : option str) (s : DashboardState) : DashboardState :=
  mkState (ports s) (groups s) (selectedIndex s) (selectedGroupIndex s) (filter s) (filterMode s) (showHelp s) (showConfirm s) (confirmAction s) (confirmMessage s) (showLogs s) (logsContent s) (showCommand s) v (refreshInterval s) (lastUpdate s) (sortBy s) (quickKill s) (showDetails s) (searching s) (isKilling s) (killingPort s) (killMessage s) (killMessageExpiresAt s) (showStats s) (statsContent s) (currentRank s).
Definition set_lastUpdate (v : Z) (s : DashboardState) : DashboardState :=
  mkState (ports s) (groups s) (selectedIndex s) (selectedGroupIndex s) (filter s) (filterMode s) (showHelp s) (showConfirm s) (confirmAction s) (confirmMessage s) (showLogs s) (logsContent s) (showCommand s) (commandContent s) (refreshInterval s) v (sortBy s) (quickKill s) (showDetails s) (searching s) (isKilling s) (killingPort s) (killMessage s) (killMessageExpiresAt s) (showStats s) (statsContent s) (currentRank s).
Definition set_sortBy (v : SortKey) (s : DashboardState) : DashboardState :=
  mkState (ports s) (groups s) (selectedIndex s) (selectedGroupIndex s) (filter s) (filterMode s) (showHelp s) (showConfirm s) (confirmAction s) (confirmMessage s) (showLogs s) (logsContent s) (showCommand s) (commandContent s) (refreshInterval s) (lastUpdate s) v (quickKill s) (showDetails s) (searching s) (isKilling s) (killingPort s) (killMessage s) (killMessageExpiresAt s) (showStats s) (statsContent s) (currentRank s).
Definition set_showDetails (v : bool) (s : DashboardState) : DashboardState :=
  mkState (ports s) (groups s) (selectedIndex s) (selectedGroupIndex s) (filter s) (filterMode s) (showHelp s) (showConfirm s) (confirmAction s) (confirmMessage s) (showLogs s) (logsContent s) (showCommand s) (commandContent s) (refreshInterval s) (lastUpdate s) (sortBy s) (quickKill s) v (searching s) (isKilling s) (killingPort s) (killMessage s) (killMessageExpiresAt s) (showStats s) (statsContent s) (currentRank s).
Definition set_searching (v : bool) (s : DashboardState) : DashboardState :=
  mkState (ports s) (groups s) (selectedIndex s) (selectedGroupIndex s) (filter s) (filterMode s) (showHelp s) (showConfirm s) (confirmAction s) (confirmMessage s) (showLogs s) (logsContent s) (showCommand s) (commandContent s) (refreshInterval s) (lastUpdate s) (sortBy s) (quickKill s) (showDetails s) v (isKilling s) (killingPort s) (killMessage s) (killMessageExpiresAt s) (showStats s) (statsContent s) (currentRank s).
Definition set_isKilling (v : bool) (s : DashboardState) : DashboardState :=
  mkState (ports s) (groups s) (selectedIndex s) (selectedGroupIndex s) (filter s) (filterMode s) (showHelp s) (showConfirm s) (confirmAction s) (confirmMessage s) (showLogs s) (logsContent s) (showCommand s) (commandContent s) (refreshInterval s) (lastUpdate s) (sortBy s) (quickKill s) (showDetails s) (searching s) v (killingPort s) (killMessage s) (killMessageExpiresAt s) (showStats s) (statsContent s) (currentRank s).
Definition set_killingPort (v : option (option Z)) (s : DashboardState) : DashboardState :=
  mkState (ports s) (groups s) (selectedIndex s) (selectedGroupIndex s) (filter s) (filterMode s) (showHelp s) (showConfirm s) (confirmAction s) (confirmMessage s) (showLogs s) (logsContent s) (showCommand s) (commandContent s) (refreshInterval s) (lastUpdate s) (sortBy s) (quickKill s) (showDetails s) (searching s) (isKilling s) v (killMessage s) (killMessageExpiresAt s) (showStats s) (statsContent s) (currentRank s).
Definition set_killMessage (v : option KillMessage) (s : DashboardState) : DashboardState :=
  mkState (ports s) (groups s) (selectedIndex s) (selectedGroupIndex s) (filter s) (filterMode s) (showHelp s) (showConfirm s) (confirmAction s) (confirmMessage s) (showLogs s) (logsContent s) (showCommand s) (commandContent s) (refreshInterval s) (lastUpdate s) (sortBy s) (quickKill s) (showDetails s) (searching s) (isKilling s) (killingPort s) v (killMessageExpiresAt s) (showStats s) (statsContent s) (currentRank s).
Definition set_killMessageExpiresAt (v : option Z) (s : DashboardState) : DashboardState :=
  mkState (ports s) (groups s) (selectedIndex s) (selectedGroupIndex s) (filter s) (filterMode s) (showHelp s) (showConfirm s) (confirmAction s) (confirmMessage s) (showLogs s) (logsContent s) (showCommand s) (commandContent s) (refreshInterval s) (lastUpdate s) (sortBy s) (quickKill s) (showDetails s) (searching s) (isKilling s) (killingPort s) (killMessage s) v (showStats s) (statsContent s) (currentRank s).
Definition set_showStats (v : bool) (s : DashboardState) : DashboardState :=
  mkState (ports s) (groups s) (selectedIndex s) (selectedGroupIndex s) (filter s) (filterMode s) (showHelp s) (showConfirm s) (confirmAction s) (confirmMessage s) (showLogs s) (logsContent s) (showCommand s) (commandContent s) (refreshInterval s) (lastUpdate s) (sortBy s) (quickKill s) (showDetails s) (searching s) (isKilling s) (killingPort s) (killMessage s) (killMessageExpiresAt s) v (statsContent s) (currentRank s).
Definition set_statsContent (v : option str) (s : DashboardState) : DashboardState :=
  mkState (ports s) (groups s) (selectedIndex s) (selectedGroupIndex s) (filter s) (filterMode s) (showHelp s) (showConfirm s) (confirmAction s) (confirmMessage s) (showLogs s) (logsContent s) (showCommand s) (commandContent s) (refreshInterval s) (lastUpdate s) (sortBy s) (quickKill s) (showDetails s) (searching s) (isKilling s) (killingPort s) (killMessage s) (killMessageExpiresAt s) (showStats s) v (currentRank s).
Definition set_currentRank (v : option str) (s : DashboardState) : DashboardState :=
  mkState (ports s) (groups s) (selectedIndex s) (selectedGroupIndex s) (filter s) (filterMode s) (showHelp s) (showConfirm s) (confirmAction s) (confirmMessage s) (showLogs s) (logsContent s) (showCommand s) (commandContent s) (refreshInterval s) (lastUpdate s) (sortBy s) (quickKill s) (showDetails s) (searching s) (isKilling s) (killingPort s) (killMessage s) (killMessageExpiresAt s) (showStats s) (statsContent s) v.

(** One element of the flattened list: [{ port, group }].  The group is
    held by value; of a group only [id] and [type] are read through a
    flattened entry and neither is ever assigned. *)
Record FlatEntry := mkFlat { fe_port : PortInfo; fe_group : PortGroup }.

Record FilteredCache := mkCache {
  fc_result : list FlatEntry;
  fc_filter : str;
  fc_groupsHash : str;
  fc_sortBy : SortKey
}.

Record RenderState := mkRender {
  rs_filteredPorts : list FlatEntry;
  rs_selectedIndex : Z;
  rs_filter : str;
  rs_sortBy : SortKey;
  rs_showDetails : bool
}.

(** The options given on the command line. *)
Record FilterOptions := mkOptions {
  fo_type : option str;
  fo_user : option str;
  fo_process : option str;
  fo_sort : option SortOption
}.

Inductive Modal := Help | Confirm | Logs | Command | Stats.

(** What the renderer is asked to draw, at the granularity of the render
    methods of the dashboard.  The text of a region is not modelled, its
    position is: the header is line 0, a port row has its line [y], the
    details take lines [height - 4] and [height - 3], the footer lines
    [height - 2] and [height - 1], the toast line [height - 3]. *)
Inductive DrawOp :=
| OpClear
| OpHideCursor
| OpShowCursor
| OpHeader
| OpPortLine (index y : Z)
| OpDetails (height : Z)
| OpFooter (height : Z)
| OpToast (height : Z)
| OpModal (m : Modal).

(** The [Dashboard] object: its state, its private fields, the renderer
    (pending buffer, writes made to the terminal, terminal size) and the
    world of the process. *)
Record Dash := mkDash {
  state : DashboardState;
  searchBuffer : str;
  filteredPortsCache : option FilteredCache;
  previousRenderState : option RenderState;
  isRunning : bool;
  exited : bool;
  filterOptions : FilterOptions;
  screenWidth : Z;
  screenHeight : Z;
  buffer : list DrawOp;
  written : list (list DrawOp);
  os : World
}.

Definition set_state (v : DashboardState) (s : Dash) : Dash :=
  mkDash v (searchBuffer s) (filteredPortsCache s) (previousRenderState s) (isRunning s) (exited s) (filterOptions s) (screenWidth s) (screenHeight s) (buffer s) (written s) (os s).
Definition set_searchBuffer (v : str) (s : Dash) : Dash :=
  mkDash (state s) v (filteredPortsCache s) (previousRenderState s) (isRunning s) (exited s) (filterOptions s) (screenWidth s) (screenHeight s) (buffer s) (written s) (os s).
Definition set_filteredPortsCache (v : option FilteredCache) (s : Dash) : Dash :=
  mkDash (state s) (searchBuffer s) v (previousRenderState s) (isRunning s) (exited s) (filterOptions s) (screenWidth s) (screenHeight s) (buffer s) (written s) (os s).
Definition set_previousRenderState (v : option RenderState) (s : Dash) : Dash :=
  mkDash (state s) (searchBuffer s) (filteredPortsCache s) v (isRunning s) (exited s) (filterOptions s) (screenWidth s) (screenHeight s) (buffer s) (written s) (os s).
Definition set_isRunning (v : bool) (s : Dash) : Dash :=
  mkDash (state s) (searchBuffer s) (filteredPortsCache s) (previousRenderState s) v (exited s) (filterOptions s) (screenWidth s) (screenHeight s) (buffer s) (written s) (os s).
Definition set_exited (v : bool) (s : Dash) : Dash :=
  mkDash (state s) (searchBuffer s) (filteredPortsCache s) (previousRenderState s) (isRunning s) v (filterOptions s) (screenWidth s) (screenHeight s) (buffer s) (written s) (os s).
Definition set_screenWidth (v : Z) (s : Dash) : Dash :=
  mkDash (state s) (searchBuffer s) (filteredPortsCache s) (previousRenderState s) (isRunning s) (exited s) (filterOptions s) v (screenHeight s) (buffer s) (written s) (os s).
Definition set_screenHeight (v : Z) (s : Dash) : Dash :=
  mkDash (state s) (searchBuffer s) (filteredPortsCache s) (previousRenderState s) (isRunning s) (exited s) (filterOptions s) (screenWidth s) v (buffer s) (written s) (os s).
Definition set_buffer (v : list DrawOp) (s : Dash) : Dash :=
  mkDash (state s) (searchBuffer s) (filteredPortsCache s) (previousRenderState s) (isRunning s) (exited s) (filterOptions s) (screenWidth s) (screenHeight s) v (written s) (os s).
Definition set_written (v : list (list DrawOp)) (s : Dash) : Dash :=
  mkDash (state s) (searchBuffer s) (filteredPortsCache s) (previousRenderState s) (isRunning s) (exited s) (filterOptions s) (screenWidth s) (screenHeight s) (buffer s) v (os s).
Definition set_os (v : World) (s : Dash) : Dash :=
  mkDash (state s) (searchBuffer s) (filteredPortsCache s) (previousRenderState s) (isRunning s) (exited s) (filterOptions s) (screenWidth s) (screenHeight s) (buffer s) (written s) v.

(** [setState(updater)]: the updater mutates [this.state] in place. *)
Definition setState (f : DashboardState -> DashboardState) : M Dash unit :=
  modify (fun d => set_state (f (state d)) d).

(** The state built by the constructor. *)
Definition initial_state : DashboardState :=
  {| ports := []; groups := []; selectedIndex := 0; selectedGroupIndex := 0;
     filter := []; filterMode := FilterAll;
     showHelp := false; showConfirm := false; confirmAction := None;
     confirmMessage := [];
     showLogs := false; logsContent := None;
     showCommand := false; commandContent := None;
     refreshInterval := 2000; lastUpdate := 0; sortBy := ByPort;
     quickKill := false; showDetails := true; searching := false;
     isKilling := false; killingPort := None;
     killMessage := None; killMessageExpiresAt := None;
     showStats := false; statsContent := None; currentRank := None |}.

(** [new Dashboard(options)] on a terminal of the given size. *)
Definition new_dashboard (options : FilterOptions) (width height : Z) : Dash :=
  {| state := initial_state; searchBuffer := [];
     filteredPortsCache := None; previousRenderState := None;
     isRunning := false; exited := false; filterOptions := options;
     screenWidth := width; screenHeight := height;
     buffer := []; written := []; os := mkWorld [] [] |}.

Definition no_options : FilterOptions := mkOptions None None None None.

(** *** The flattened list *)

Definition lower (c : ascii) : ascii :=
  if ((65 <=? code c) && (code c <=? 90))%N then ascii_of_N (code c + 32) else c.

Definition toLowerCase (s : str) : str := List.map lower s.

Definition of_length {A} (l : list A) : Z := Z.of_nat (length l).

Definition groupsHash (gs : list PortGroup) : str :=
  join (lit "|")
    (List.map (fun g => g_id g ++ lit ":"
                        ++ (if collapsed g then lit "1" else lit "0")
                        ++ lit ":" ++ toString (Some (of_length (g_ports g))))
              gs).

(** The test applied to a port when the filter is not empty. *)
Definition matches_filter (f : str) (p : PortInfo) : bool :=
  let filterLower := toLowerCase f in
  let portMatch := includes f (toString (port p)) in
  let processMatch := includes filterLower (toLowerCase (processName p)) in
  let commandMatch := includes filterLower (toLowerCase (command p)) in
  portMatch || processMatch || commandMatch.

Definition flatten (f : str) (gs : list PortGroup) : list FlatEntry :=
  flat_map
    (fun g =>
       if collapsed g then []
       else List.map (fun p => mkFlat p g)
              (List.filter (fun p => if truthy f then matches_filter f p else true)
                           (g_ports g)))
    gs.

(** [getFilteredPorts()], memoized on filter, groups hash and sort key. *)
Definition getFilteredPorts : M Dash (list FlatEntry) :=
  fun d =>
    let st := state d in
    let h := groupsHash (groups st) in
    let recalculate :=
      let flat := flatten (filter st) (groups st) in
      (Ok flat,
       set_filteredPortsCache (Some (mkCache flat (filter st) h (sortBy st))) d) in
    match filteredPortsCache d with
    | Some c =>
        if str_eqb (fc_filter c) (filter st) && str_eqb (fc_groupsHash c) h
           && sortkey_eqb (fc_sortBy c) (sortBy st)
        then (Ok (fc_result c), d)
        else recalculate
    | None => recalculate
    end.

(** [arr[i] || null] for a number [i]. *)
Definition at_index {A} (l : list A) (i : Z) : option A :=
  if i <? 0 then None else nth_error l (Z.to_nat i).

(** [getSelectedPort()] *)
Definition getSelectedPort : M Dash (option FlatEntry) :=
  flatPorts ← getFilteredPorts;
  if (length flatPorts =? 0)%nat then mret None
  else
    d ← get_state;
    let index := Z.min (selectedIndex (state d)) (of_length flatPorts - 1) in
    mret (at_index flatPorts index).

(** [moveSelection(direction)] *)
Definition moveSelection (direction : Z) : M Dash unit :=
  flatPorts ← getFilteredPorts;
  if (length flatPorts =? 0)%nat then mret tt
  else
    setState (fun st => set_selectedIndex (selectedIndex st + direction) st);;
    d ← get_state;
    if selectedIndex (state d) <? 0 then
      setState (set_selectedIndex (of_length flatPorts - 1))
    else if selectedIndex (state d) >=? of_length flatPorts then
      setState (set_selectedIndex 0)
    else skip.

(** *** Sorting *)

(** [Array.prototype.sort] is stable; a comparator result that is [NaN]
    counts as [0].  (For a comparator that is not a consistent order the
    outcome is implementation-defined; an insertion sort is taken.) *)
Fixpoint insert_sorted {A} (cmp : A -> A -> Z) (x : A) (l : list A) : list A :=
  match l with
  | [] => [x]
  | y :: r => if cmp x y <=? 0 then x :: l else y :: insert_sorted cmp x r
  end.

Definition sort {A} (cmp : A -> A -> Z) (l : list A) : list A :=
  fold_right (insert_sorted cmp) [] l.

(** [a - b] as a comparator result. *)
Definition minus (a b : num) : Z :=
  match a, b with
  | Some x, Some y => x - y
  | _, _ => 0
  end.

Definition set_g_ports (ps : list PortInfo) (g : PortGroup) : PortGroup :=
  mkGroup (g_id g) (g_type g) ps (collapsed g).

Definition set_collapsed (c : bool) (g : PortGroup) : PortGroup :=
  mkGroup (g_id g) (g_type g) (g_ports g) c.

(** [interface DashboardHandlers], without [getState] and [setState],
    which are the state of the monad. *)
Record Handlers := mkHandlers {
  h_getSelectedPort : M Dash (option FlatEntry);
  h_moveSelection : Z -> M Dash unit;
  h_applySorting : M Dash unit;
  h_toggleGroup : M Dash unit;
  h_refresh : M Dash unit;
  h_render : M Dash unit;
  h_stop : M Dash unit;
  h_clearFilteredPortsCache : M Dash unit;
  h_clearDetectorCache : M Dash unit
}.

(** [process.exit(0)]: nothing runs afterwards. *)
Definition exit : M Dash unit := modify (set_exited true).

Section Methods.
Variable env : Env.
Variable platform : Platform.

Definition compare_by (k : SortKey) (a b : PortInfo) : Z :=
    match k with
    | ByPort => minus (port a) (port b)
    | ByProcess => locale_compare env (processName a) (processName b)
    | ByPid => minus (pid a) (pid b)
    end.

  (** [applySorting()] *)
Definition applySorting : M Dash unit :=
    setState (fun st =>
      set_groups
        (List.map (fun g => set_g_ports (sort (compare_by (sortBy st)) (g_ports g)) g)
                  (groups st))
        st);;
    modify (set_filteredPortsCache None).

  (** [groups.find(g => g.id === id)] followed by the flip of [collapsed]. *)
Fixpoint toggle_first (id : str) (gs : list PortGroup) : list PortGroup :=
    match gs with
    | [] => []
    | g :: r =>
        if str_eqb (g_id g) id then set_collapsed (negb (collapsed g)) g :: r
        else g :: toggle_first id r
    end.

  (** [toggleGroup()] *)
Definition toggleGroup : M Dash unit :=
    selected ← getSelectedPort;
    match selected with
    | None => mret tt
    | Some sel =>
        setState (fun st => set_groups (toggle_first (g_id (fe_group sel)) (groups st)) st)
    end.

  (** *** Refresh *)

  (** A call into a collaborator: the answer comes from the environment,
      the call is recorded. *)
Definition call {A} (name : string) (answer : list Event -> Outcome A) : M Dash A :=
    fun d =>
      (answer (trace (os d)),
       set_os (mkWorld (trace (os d) ++ [Call (lit name)]) (errors (os d))) d).

  (** [Date.now()] *)
Definition now : M Dash Z := call "Date.now" (fun t => Ok (date_now env t)).

Definition log_error (msg : str) : M Dash unit :=
    modify (fun d => set_os (mkWorld (trace (os d)) (errors (os d) ++ [msg])) d).

  (** [src/utils/filter-utils.ts] *)
Definition filterByType (ps : list PortInfo) (pattern : str) : list PortInfo :=
    List.filter (fun p => minimatch env (categorize_port env p) pattern) ps.

Definition filterByUser (ps : list PortInfo) (pattern : str) : list PortInfo :=
    List.filter (fun p => minimatch env (user p) pattern) ps.

Definition filterByProcess (ps : list PortInfo) (pattern : str) : list PortInfo :=
    List.filter (fun p => minimatch env (processName p) pattern
                          || minimatch env (command p) pattern) ps.

Definition compare_option (o : SortOption) (a b : PortInfo) : Z :=
    match o with
    | SortPort => minus (port a) (port b)
    | SortProcess => locale_compare env (processName a) (processName b)
    | SortPid => minus (pid a) (pid b)
    | SortUser => locale_compare env (user a) (user b)
    end.

Definition sortPorts (ps : list PortInfo) (o : SortOption) : list PortInfo :=
    sort (compare_option o) ps.

  (** An option that is set and not the empty string. *)
Definition given (o : option str) : option str :=
    match o with
    | Some s => if truthy s then Some s else None
    | None => None
    end.

  (** [if (filteredPorts.length === 0) continue;] *)
Definition unless_empty (ps : list PortInfo) : option (list PortInfo) :=
    match ps with [] => None | _ :: _ => Some ps end.

  (** The body of the loop of [applyFiltersToGroups]: the group to push,
      or [None] when the loop continues without pushing. *)
Definition filter_group (o : FilterOptions) (g : PortGroup) : option PortGroup :=
    ps1 ← match given (fo_type o) with
          | Some t => if minimatch env (g_type g) t then Some (g_ports g)
                      else unless_empty (filterByType (g_ports g) t)
          | None => Some (g_ports g)
          end;
    ps2 ← match given (fo_user o) with
          | Some u => unless_empty (filterByUser ps1 u)
          | None => Some ps1
          end;
    ps3 ← match given (fo_process o) with
          | Some pr => unless_empty (filterByProcess ps2 pr)
          | None => Some ps2
          end;
    let ps4 := match fo_sort o with Some so => sortPorts ps3 so | None => ps3 end in
    if (0 <? length ps4)%nat then Some (set_g_ports ps4 g) else None.

Definition applyFiltersToGroups (gs : list PortGroup) (o : FilterOptions)
    : list PortGroup :=
    omap (filter_group o) gs.

Definition any_given (o : FilterOptions) : bool :=
    match given (fo_type o), given (fo_user o), given (fo_process o) with
    | None, None, None => false
    | _, _, _ => true
    end.

  (** [refresh()] *)
Definition refresh : M Dash unit :=
    try_catch
      (found ← call "detectPorts" (detect_result env);
       result ← call "processPorts" (fun t => process_ports_result env t found);
       setState (set_ports (pp_ports result));;
       d ← get_state;
       let o := filterOptions d in
       setState (set_groups (if any_given o
                             then applyFiltersToGroups (pp_groups result) o
                             else pp_groups result));;
       setState (set_lastUpdate (pp_timestamp result));;
       match fo_sort o with
       | Some so =>
           setState (fun st =>
             set_groups
               (List.map (fun g => set_g_ports (sort (compare_option so) (g_ports g)) g)
                         (groups st))
               st)
       | None => applySorting
       end;;
       flatPorts ← getFilteredPorts;
       d ← get_state;
       when (selectedIndex (state d) >=? of_length flatPorts)
            (setState (set_selectedIndex (Z.max 0 (of_length flatPorts - 1))));;
       modify (set_filteredPortsCache None))
      (fun e => log_error (lit "Failed to refresh ports: " ++ e)).

  (** *** Rendering *)

  (** A render method pushes to the buffer of the renderer. *)
Definition draw (op : DrawOp) : M Dash unit :=
    modify (fun d => set_buffer (buffer d ++ [op]) d).

  (** [renderer.clear()]: drops the buffer and writes the clear sequence. *)
Definition renderer_clear : M Dash unit :=
    modify (fun d => set_written (written d ++ [[OpClear]]) (set_buffer [] d)).

  (** [renderer.render()]: one write of the whole buffer, if not empty. *)
Definition renderer_render : M Dash unit :=
    modify (fun d =>
      match buffer d with
      | [] => d
      | ops => set_buffer [] (set_written (written d ++ [ops]) d)
      end).

Definition renderHeader : M Dash unit :=
    getFilteredPorts;;
    draw OpHeader.

Definition renderPortLine (entry : FlatEntry) (index y : Z) : M Dash unit :=
    draw (OpPortLine index y).

Definition renderDetails (selected : FlatEntry) (height : Z) : M Dash unit :=
    draw (OpDetails height).

Definition is_some {A} (o : option A) : bool :=
    match o with Some _ => true | None => false end.

Definition renderKillMessage : M Dash unit :=
    d ← get_state;
    if is_some (killMessage (state d)) then draw (OpToast (screenHeight d)) else skip.

Definition maxHeight_of (d : Dash) : Z :=
    screenHeight d - (if showDetails (state d) then 6 else 4).

  (** [for (let i = 0; i < filteredPorts.length && y < maxHeight; i++)],
      with [y = i + 2] throughout. *)
Fixpoint render_rows (rows : list FlatEntry) (i maxHeight : Z) : M Dash unit :=
    match rows with
    | [] => skip
    | entry :: rest =>
        if i + 2 <? maxHeight then
          renderPortLine entry i (i + 2);;
          render_rows rest (i + 1) maxHeight
        else skip
    end.

  (** [renderMain()] *)
Definition renderMain : M Dash unit :=
    d ← get_state;
    let height := screenHeight d in
    filteredPorts ← getFilteredPorts;
    renderHeader;;
    render_rows filteredPorts 0 (maxHeight_of d);;
    selected ← getSelectedPort;
    match selected with
    | Some sel => when (showDetails (state d)) (renderDetails sel height)
    | None => skip
    end;;
    draw (OpFooter height);;
    when (is_some (killMessage (state d))) renderKillMessage.

  (** The full repaint of the main view. *)
Definition fullRender : M Dash unit :=
    renderer_clear;;
    draw OpHideCursor;;
    renderMain;;
    renderer_render.

  (** [changedLines.add(n)] on a [Set] kept in insertion order. *)
Definition set_add (n : Z) (l : list Z) : list Z :=
    if existsb (Z.eqb n) l then l else l ++ [n].

Definition opt_eqb {A} (eqb : A -> A -> bool) (a b : option A) : bool :=
    match a, b with
    | Some x, Some y => eqb x y
    | None, None => true
    | _, _ => false
    end.

  (** The test of [renderDelta] on the rows at one index. *)
Definition row_differs (prev curr : FlatEntry) : bool :=
    let a := fe_port prev in
    let b := fe_port curr in
    negb (strict_eq (pid a) (pid b))
    || negb (strict_eq (port a) (port b))
    || negb (str_eqb (processName a) (processName b))
    || negb (str_eqb (command a) (command b))
    || negb (opt_eqb Z.eqb (lifetime a) (lifetime b))
    || negb (opt_eqb str_eqb (type a) (type b)).

  (** [for (let i = 0; i < minLength && i + 2 < maxHeight; i++)] *)
Fixpoint diff_rows (prev curr : list FlatEntry) (i maxHeight : Z) (changed : list Z)
    : list Z :=
    match prev, curr with
    | p :: prev', c :: curr' =>
        if i + 2 <? maxHeight then
          diff_rows prev' curr' (i + 1) maxHeight
                    (if row_differs p c then set_add (i + 2) changed else changed)
        else changed
    | _, _ => changed
    end.

Definition changedLines (previous current : RenderState) (maxHeight : Z) : list Z :=
    let selection :=
      if rs_selectedIndex previous =? rs_selectedIndex current then []
      else set_add (rs_selectedIndex current + 2)
                   (set_add (rs_selectedIndex previous + 2) []) in
    diff_rows (rs_filteredPorts previous) (rs_filteredPorts current) 0 maxHeight selection.

  (** [for (const lineNum of changedLines)] *)
Fixpoint render_changed (lineNums : list Z) (current : RenderState) (maxHeight : Z)
    : M Dash unit :=
    match lineNums with
    | [] => skip
    | lineNum :: rest =>
        (if (lineNum >=? 2) && (lineNum <? maxHeight) then
           let index := lineNum - 2 in
           if index <? of_length (rs_filteredPorts current) then
             match at_index (rs_filteredPorts current) index with
             | Some entry => renderPortLine entry index lineNum
             | None => skip
             end
           else skip
         else skip);;
        render_changed rest current maxHeight
    end.

  (** [renderDelta(previous, current)] *)
Definition renderDelta (previous current : RenderState) : M Dash unit :=
    d ← get_state;
    let height := screenHeight d in
    let maxHeight := maxHeight_of d in
    let changed := changedLines previous current maxHeight in
    if 2 * of_length changed >? maxHeight then
      fullRender
    else
      draw OpHideCursor;;
      renderHeader;;
      render_changed changed current maxHeight;;
      (if showDetails (state d) then
         selected ← getSelectedPort;
         match selected with
         | Some sel => renderDetails sel height
         | None => skip
         end
       else skip);;
      when (is_some (killMessage (state d))) renderKillMessage;;
      renderer_render.

Definition modal_of (st : DashboardState) : option Modal :=
    if showHelp st then Some Help
    else if showConfirm st then Some Confirm
    else if showLogs st then Some Logs
    else if showCommand st then Some Command
    else if showStats st then Some Stats
    else None.

Definition nonzero (z : Z) : bool := negb (z =? 0).

  (** The check at the start of a render of the main view: a toast whose
      expiry time has passed is dropped. *)
Definition clear_expired_message (st : DashboardState) : M Dash unit :=
    match killMessage st, killMessageExpiresAt st with
    | Some _, Some expiresAt =>
        if nonzero expiresAt then
          t ← now;
          when (t >? expiresAt)
               (setState (fun s => set_killMessageExpiresAt None
                                     (set_killMessage None s)))
        else skip
    | _, _ => skip
    end.

  (** [render()] *)
Definition render : M Dash unit :=
    d ← get_state;
    match modal_of (state d) with
    | Some m =>
        renderer_clear;;
        draw OpHideCursor;;
        draw (OpModal m);;
        renderer_render;;
        modify (set_previousRenderState None)
    | None =>
        filteredPorts ← getFilteredPorts;
        let st := state d in
        let currentState :=
          mkRender filteredPorts (selectedIndex st) (filter st) (sortBy st)
                   (showDetails st) in
        clear_expired_message st;;
        d1 ← get_state;
        let hasKillMessage := is_some (killMessage (state d1)) in
        match previousRenderState d1 with
        | Some previous =>
            let canUseDelta :=
              negb hasKillMessage
              && (length (rs_filteredPorts previous)
                  =? length (rs_filteredPorts currentState))%nat
              && str_eqb (rs_filter previous) (rs_filter currentState)
              && sortkey_eqb (rs_sortBy previous) (rs_sortBy currentState)
              && Bool.eqb (rs_showDetails previous) (rs_showDetails currentState) in
            if canUseDelta then renderDelta previous currentState else fullRender
        | None => fullRender
        end;;
        modify (set_previousRenderState (Some currentState))
    end.

  (** [stop()] *)
Definition stop : M Dash unit :=
    modify (set_isRunning false);;
    renderer_clear;;
    draw OpShowCursor;;
    renderer_render.

  (** The callback of the refresh timer. *)
Definition on_timer : M Dash unit :=
    d ← get_state;
    if isRunning d then refresh;; render else skip.

  (** The handler of the [resize] event of the terminal. *)
Definition on_resize (width height : Z) : M Dash unit :=
    modify (fun d => set_screenHeight height (set_screenWidth width d));;
    render.
  (** [getHandlers()]: the methods of the dashboard handed to the handlers
      module. *)
Definition getHandlers : Handlers :=
    {| h_getSelectedPort := getSelectedPort;
       h_moveSelection := moveSelection;
       h_applySorting := applySorting;
       h_toggleGroup := toggleGroup;
       h_refresh := refresh;
       h_render := render;
       h_stop := stop;
       h_clearFilteredPortsCache := modify (set_filteredPortsCache None);
       h_clearDetectorCache := call "clearCache" (clear_cache_result env) |}.
End Methods.

End Dashboard.

(** ** The keyboard handlers ([src/tui/dashboard-handlers.ts]) *)

Module DashboardHandlers.
Import Dashboard.

(** [isModalOpen()] *)
Definition isModalOpen (st : DashboardState) : bool :=
  showHelp st || showConfirm st || showLogs st || showCommand st
  || showStats st || searching st.

(** The UTF-8 bytes of the emoji that opens the rank-up toast. *)
Definition party : str := List.map ascii_of_N [240; 159; 142; 137]%N.

(** [getFullCommand(portInfo)] of [port-actions.ts] *)
Definition getFullCommand (portInfo : PortInfo) : str :=
  if truthy (command portInfo) then command portInfo
  else lit "Unknown command for PID " ++ toString (pid portInfo).

Section Handlers.
Variable env : Env.
Variable platform : Platform.
Variable handlers : Handlers.

  (** The result of a pure helper of a module that is not modelled. *)
Definition helper {A} (r : Outcome A) : M Dash A := fun d => (r, d).

  (** An action of [port-actions.ts] run in the world of the process. *)
Definition in_os {A} (m : M World A) : M Dash A :=
    fun d => let '(r, w) := m (os d) in (r, set_os w d).

Definition unless_modal (m : M Dash unit) : M Dash unit :=
    d ← get_state;
    if isModalOpen (state d) then skip else m.

  (** The updater of the success branch of [handleKill]. *)
Definition show_kill_success (killMsg : KillMessage) (newRank : Rank)
      (rankUp : option Rank) : M Dash unit :=
    setState (set_killMessage (Some killMsg));;
    t ← now env;
    setState (set_killMessageExpiresAt (Some (t + 3000)));;
    rankText ← helper (format_rank env newRank);
    setState (set_currentRank (Some rankText));;
    match rankUp with
    | Some r =>
        upText ← helper (format_rank env r);
        setState (set_killMessage
                    (Some (mkKillMessage
                             (party ++ lit " Rank Up! You are now a " ++ upText ++ lit "!")
                             (rank_emoji r) (Some (lit "yellow")))));;
        t' ← now env;
        setState (set_killMessageExpiresAt (Some (t' + 5000)))
    | None => skip
    end.

  (** The [try] block of [handleKill]. *)
Definition handleKill_try (selected : FlatEntry) : M Dash unit :=
    let target := fe_port selected in
    wasKilled ← in_os (PortActions.killPort env platform target false false);
    (if wasKilled : bool then
       previousStats ← call "loadStats" (fun t => Ok (load_stats_result env t));
       stats ← call "recordKill" (fun t => record_kill_result env t target false);
       killMsg ← call "generateKillMessage"
                   (fun t => kill_message_result env t target true false);
       newRank ← helper (current_rank env (totalKills stats));
       rankUp ← helper (rank_up env (totalKills previousStats) (totalKills stats));
       show_kill_success killMsg newRank rankUp;;
       h_render handlers
     else
       killMsg ← call "generateKillMessage"
                   (fun t => kill_message_result env t target false false);
       setState (set_killMessage (Some killMsg));;
       t ← now env;
       setState (set_killMessageExpiresAt (Some (t + 3000)));;
       h_render handlers);;
    h_clearFilteredPortsCache handlers;;
    h_clearDetectorCache handlers;;
    in_os (modify (fun w => mkWorld (trace w ++ [Sleep 200]) (errors w)));;
    h_refresh handlers;;
    h_render handlers.

  (** The [catch] block of [handleKill]. *)
Definition handleKill_catch : M Dash unit :=
    h_clearFilteredPortsCache handlers;;
    h_clearDetectorCache handlers;;
    h_refresh handlers;;
    h_render handlers.

  (** The [finally] block of [handleKill]. *)
Definition handleKill_finally : M Dash unit :=
    setState (fun st => set_killingPort None (set_isKilling false st));;
    h_render handlers.

  (** [handleKill(handlers)] *)
Definition handleKill : M Dash unit :=
    selected ← h_getSelectedPort handlers;
    match selected with
    | None => mret tt
    | Some sel =>
        setState (fun st => set_killingPort (Some (port (fe_port sel)))
                              (set_isKilling true st));;
        h_render handlers;;
        try_finally
          (try_catch (handleKill_try sel) (fun _ => handleKill_catch))
          handleKill_finally
    end.

  (** [handleCopy(handlers)]; [copyCommandToClipboard] catches its errors. *)
Definition handleCopy : M Dash unit :=
    selected ← h_getSelectedPort handlers;
    match selected with
    | None => mret tt
    | Some sel =>
        try_catch
          (call "clipboard"
             (fun t => clipboard_result env t (getFullCommand (fe_port sel))))
          (fun _ => mret false);;
        mret tt
    end.

  (** [adapter.getProcessCommand(pid)] on a new adapter; the command line
      comes from the environment. *)
Definition getProcessCommand (p : num) : M Dash str :=
    call "getProcessCommand" (fun t => process_command_result env t p).

  (** [handleViewCommand(handlers)] *)
Definition handleViewCommand : M Dash unit :=
    selected ← h_getSelectedPort handlers;
    match selected with
    | None => mret tt
    | Some sel =>
        setState (set_showCommand true);;
        try_catch
          (fullCommand ← getProcessCommand (pid (fe_port sel));
           setState (set_commandContent
                       (Some (if truthy fullCommand then fullCommand
                              else getFullCommand (fe_port sel)))))
          (fun _ => setState (set_commandContent (Some (getFullCommand (fe_port sel)))));;
        h_render handlers
    end.

  (** [getProcessLogs(pid)] of [process-utils.ts] *)
Definition getProcessLogs (p : num) : M Dash (option (str * str)) :=
    try_catch
      (cmd ← getProcessCommand p;
       mret (Some (lit "Process: " ++ cmd ++ [newline; newline]
                   ++ lit "Note: Live logs are not available. Use the process command to view logs manually.",
                   [])))
      (fun _ => mret None).

  (** [viewPortLogs(portInfo)] of [port-actions.ts] *)
Definition viewPortLogs (portInfo : PortInfo) : M Dash (option str) :=
    logs ← getProcessLogs (pid portInfo);
    match logs with
    | None => mret None
    | Some (out, err) =>
        mret (Some (lit "Process: " ++ processName portInfo
                    ++ lit " (PID: " ++ toString (pid portInfo) ++ lit ")" ++ [newline]
                    ++ lit "Port: " ++ toString (port portInfo) ++ [newline]
                    ++ lit "Command: " ++ command portInfo ++ [newline; newline]
                    ++ lit "Logs:" ++ [newline] ++ out ++ [newline] ++ err))
    end.

  (** [handleViewLogs(handlers)] *)
Definition handleViewLogs : M Dash unit :=
    selected ← h_getSelectedPort handlers;
    match selected with
    | None => mret tt
    | Some sel =>
        logs ← viewPortLogs (fe_port sel);
        setState (fun st =>
          set_logsContent
            (Some (match logs with
                   | Some text => if truthy text then text else lit "No logs available"
                   | None => lit "No logs available"
                   end))
            (set_showLogs true st));;
        h_render handlers
    end.

Definition on_quit : M Dash unit := h_stop handlers;; exit.

Definition on_up : M Dash unit :=
    unless_modal (h_moveSelection handlers (-1);; h_render handlers).

Definition on_down : M Dash unit :=
    unless_modal (h_moveSelection handlers 1;; h_render handlers).

Definition on_search : M Dash unit :=
    unless_modal (setState (set_searching true);; h_render handlers).

Definition on_kill : M Dash unit := unless_modal handleKill.
Definition on_copy : M Dash unit := unless_modal handleCopy.
Definition on_view_command : M Dash unit := unless_modal handleViewCommand.
Definition on_view_logs : M Dash unit := unless_modal handleViewLogs.

Definition on_toggle_group : M Dash unit :=
    unless_modal (h_toggleGroup handlers;;
                  h_clearFilteredPortsCache handlers;;
                  h_render handlers).

Definition on_toggle_details : M Dash unit :=
    unless_modal (setState (fun st => set_showDetails (negb (showDetails st)) st);;
                  h_render handlers).

Definition on_sort (k : SortKey) : M Dash unit :=
    unless_modal (setState (set_sortBy k);;
                  h_applySorting handlers;;
                  h_render handlers).

Definition on_help : M Dash unit :=
    setState (fun st => set_showHelp (negb (showHelp st)) st);;
    h_render handlers.

Definition on_stats : M Dash unit :=
    d ← get_state;
    if isModalOpen (state d) && negb (showStats (state d)) then mret tt
    else
      (if showStats (state d) then
         setState (fun st => set_statsContent None (set_showStats false st))
       else
         stats ← call "loadStats" (fun t => Ok (load_stats_result env t));
         rank ← helper (current_rank env (totalKills stats));
         summary ← helper (stats_summary env stats);
         setState (set_showStats true);;
         rankText ← helper (format_rank env rank);
         setState (set_statsContent (Some (rankText ++ [newline; newline] ++ summary))));;
      h_render handlers.

Definition on_escape : M Dash unit :=
    d ← get_state;
    let st := state d in
    if searching st then
      setState (fun s => set_filter [] (set_searching false s));;
      h_clearFilteredPortsCache handlers;;
      h_render handlers
    else if showHelp st then
      setState (set_showHelp false);;
      h_render handlers
    else if showConfirm st then
      setState (fun s => set_confirmAction None (set_showConfirm false s));;
      h_render handlers
    else if showLogs st then
      setState (fun s => set_logsContent None (set_showLogs false s));;
      h_render handlers
    else if showCommand st then
      setState (fun s => set_commandContent None (set_showCommand false s));;
      h_render handlers
    else if showStats st then
      setState (fun s => set_statsContent None (set_showStats false s));;
      h_render handlers
    else skip.

Definition on_enter : M Dash unit :=
    d ← get_state;
    let st := state d in
    if searching st then
      setState (set_searching false);;
      h_clearFilteredPortsCache handlers;;
      h_render handlers
    else if showConfirm st && is_some (confirmAction st) then
      setState (set_showConfirm false);;
      call "confirmAction" (confirm_action_result env);;
      h_render handlers
    else skip.

  (** The table filled by [setupKeyboardHandlers]: the handler registered
      for a key, and whether it is an [async] function. *)
Definition registered : list (string * (bool * M Dash unit)) :=
    [ ("q", (false, on_quit));
      ("up", (false, on_up));
      ("down", (false, on_down));
      ("/", (false, on_search));
      ("k", (true, on_kill));
      ("c", (true, on_copy));
      ("v", (true, on_view_command));
      ("l", (true, on_view_logs));
      ("g", (false, on_toggle_group));
      ("d", (false, on_toggle_details));
      ("1", (false, on_sort ByPort));
      ("2", (false, on_sort ByProcess));
      ("3", (false, on_sort ByPid));
      ("?", (false, on_help));
      ("s", (true, on_stats));
      ("escape", (false, on_escape));
      ("enter", (true, on_enter)) ]%string.
End Handlers.
End DashboardHandlers.

(** ** The keyboard ([src/tui/keyboard.ts]) and the event loop *)

Module Keyboard.
Import Dashboard.

Definition chr (n : N) : ascii := ascii_of_N n.
Definition esc : ascii := chr 27.

(** [parseKey(sequence)] *)
Definition parseKey (sequence : str) : str :=
  if str_eqb sequence [chr 3] then lit "ctrl+c"
  else if str_eqb sequence [esc] then lit "escape"
  else if str_eqb sequence [chr 127] || str_eqb sequence [chr 8] then lit "backspace"
  else if str_eqb sequence [chr 13] || str_eqb sequence [chr 10] then lit "enter"
  else if str_eqb sequence [chr 9] then lit "tab"
  else if str_eqb sequence (lit " ") then lit "space"
  else if str_eqb sequence (esc :: lit "[A") then lit "up"
  else if str_eqb sequence (esc :: lit "[B") then lit "down"
  else if str_eqb sequence (esc :: lit "[C") then lit "right"
  else if str_eqb sequence (esc :: lit "[D") then lit "left"
  else if str_eqb sequence (esc :: lit "OP") then lit "f1"
  else if str_eqb sequence (esc :: lit "OQ") then lit "f2"
  else if str_eqb sequence (esc :: lit "OR") then lit "f3"
  else if str_eqb sequence (esc :: lit "OS") then lit "f4"
  else match sequence with
       | [c] =>
           if ((1 <=? code c) && (code c <=? 26))%N
           then lit "ctrl+" ++ [chr (code c + 96)]
           else sequence
       | _ => sequence
       end.

(** [this.handlers.get(key)] *)
Fixpoint lookup_handler {A} (key : str) (table : list (string * A)) : option A :=
  match table with
  | [] => None
  | (k, h) :: rest => if str_eqb (lit k) key then Some h else lookup_handler key rest
  end.

Section Loop.
Variable env : Env.
Variable platform : Platform.

  (** The handler registered for ["*"] by [setupKeyboard]: the digits
      typed while searching. *)
Definition on_any (key : str) : M Dash unit :=
    d ← get_state;
    if searching (state d) && (length key =? 1)%nat && existsb is_digit key then
      modify (fun d => set_searchBuffer (searchBuffer d ++ key) d);;
      modify (fun d => set_state (set_filter (searchBuffer d) (state d)) d);;
      modify (set_filteredPortsCache None);;
      render env
    else if searching (state d) && str_eqb key (lit "backspace") then
      modify (fun d => set_searchBuffer (removelast (searchBuffer d)) d);;
      modify (fun d => set_state (set_filter (searchBuffer d) (state d)) d);;
      modify (set_filteredPortsCache None);;
      render env
    else skip.

  (** The listener of [stdin]: one chunk of input.  The promise of an
      [async] handler is not awaited by the listener, which only swallows
      its rejection; here the handler runs to completion first. *)
Definition on_data (sequence : str) : M Dash unit :=
    d ← get_state;
    if exited d then skip
    else
      let key := parseKey sequence in
      if str_eqb key (lit "ctrl+c") then exit
      else
        match lookup_handler key
                (DashboardHandlers.registered env platform (getHandlers env)) with
        | Some (true, handler) => try_catch handler (fun _ => skip)
        | Some (false, handler) => handler
        | None => skip
        end;;
        d' ← get_state;
        if exited d' then skip else on_any key.

  (** What can happen to a running dashboard. *)
Inductive Action :=
  | Data (sequence : str)
  | Tick
  | Resize (width height : Z).

Definition step (a : Action) : M Dash unit :=
    d ← get_state;
    if exited d then skip
    else match a with
         | Data sequence => on_data sequence
         | Tick => on_timer env
         | Resize width height => on_resize env width height
         end.

  (** The state after a sequence of actions; an exception that escapes an
      action leaves the state as the action left it. *)
Definition run (actions : list Action) (d : Dash) : Dash :=
    fold_left (fun d a => snd (step a d)) actions d.

  (** [start()] *)
Definition start : M Dash unit :=
    modify (set_isRunning true);;
    stats ← call "loadStats" (fun t => Ok (load_stats_result env t));
    rank ← DashboardHandlers.helper (current_rank env (totalKills stats));
    rankText ← DashboardHandlers.helper (format_rank env rank);
    setState (set_currentRank (Some rankText));;
    refresh env.
End Loop.
End Keyboard.

(** ** Terminal text helpers ([truncate] and [pad]) *)

Module Ansi.

(** [str.slice(0, end)]: a negative [end] counts from the end of the
    string. *)
Definition slice_to (e : Z) (s : str) : str :=
  if e <? 0 then firstn (Z.to_nat (Z.max (Z.of_nat (length s) + e) 0)) s
  else firstn (Z.to_nat e) s.

(** [truncate(str, width, suffix = "...")] *)
Definition truncate (s : str) (width : Z) (suffix : str) : str :=
  if Z.of_nat (length s) <=? width then s
  else slice_to (width - Z.of_nat (length suffix)) s ++ suffix.

(** The default suffix. *)
Definition ellipsis : str := lit "...".

Inductive Align := AlignLeft | AlignRight | AlignCenter.

(** [" ".repeat(n)] *)
Definition spaces (n : Z) : str := repeat " "%char (Z.to_nat n).

(** [pad(str, width, align = "left")] *)
Definition pad (s : str) (width : Z) (align : Align) : str :=
  if Z.of_nat (length s) >=? width then s
  else
    let padding := width - Z.of_nat (length s) in
    match align with
    | AlignRight => spaces padding ++ s
    | AlignCenter =>
        let left := padding / 2 in
        let right := padding - left in
        spaces left ++ s ++ spaces right
    | AlignLeft => s ++ spaces padding
    end.

(** A cell of a port row: [pad(truncate(text, width), width, align)], as
    [renderPortLine] builds the process, type and user columns. *)
Definition cell (text : str) (width : Z) (align : Align) : str :=
  pad (truncate text width ellipsis) width align.

End Ansi.

(** ** Kill statistics ([loadStats], [recordKill]) *)

Module Stats.

(** The statistics are plain JSON data, and nothing in the code checks
    what the file holds.  The model follows the code where the data have
    the types [KillStats] declares, and says so where they have not:
    [Untyped] stands for a value of another type, with which the code
    goes on computing (and may throw); such a run is not followed. *)
Inductive Typed (A : Type) : Type :=
| Known (a : A)
| Untyped.
Arguments Known {A} a.
Arguments Untyped {A}.

(** [getDefaultStats()] *)
Definition getDefaultStats : KillStats := mkStats 0 [] None None None 0 0.

(** The names every object inherits from [Object.prototype]. *)
Definition object_prototype_keys : list str :=
  [lit "constructor"; lit "__defineGetter__"; lit "__defineSetter__";
   lit "hasOwnProperty"; lit "__lookupGetter__"; lit "__lookupSetter__";
   lit "isPrototypeOf"; lit "propertyIsEnumerable"; lit "toString";
   lit "valueOf"; lit "__proto__"; lit "toLocaleString"].

Definition inherited (key : str) : bool :=
  existsb (str_eqb key) object_prototype_keys.

(** The own property [key] of an object used as a map of counters. *)
Fixpoint own (key : str) (o : list (str * Z)) : option Z :=
  match o with
  | [] => None
  | (k, v) :: r => if str_eqb k key then Some v else own key r
  end.

(** [obj[key] || 0]: the own property; [0] when the object has no such
    property and inherits none; and no number when the key names a
    member of [Object.prototype], which is a function or an object and
    therefore truthy. *)
Definition count_of (key : str) (o : list (str * Z)) : Typed Z :=
  match own key o with
  | Some v => Known v
  | None => if inherited key then Untyped else Known 0
  end.

(** [obj[key] = v]: an existing property keeps its place, a new one is
    added at the end.  (JavaScript enumerates keys that are array indices
    first; nothing below depends on the order of enumeration.) *)
Fixpoint obj_set (key : str) (v : Z) (o : list (str * Z)) : list (str * Z) :=
  match o with
  | [] => [(key, v)]
  | (k, x) :: r => if str_eqb k key then (k, v) :: r else (k, x) :: obj_set key v r
  end.

(** [portInfo.type || "other"] *)
Definition type_key (portInfo : PortInfo) : str :=
  match type portInfo with
  | Some t => if truthy t then t else lit "other"
  | None => lit "other"
  end.

(** [`port:${portInfo.port}`] *)
Definition port_key (p : num) : str := lit "port:" ++ toString p.

(** [!stats.firstKillTimestamp]: [null] and [0] are both false. *)
Definition no_timestamp (t : option Z) : bool :=
  match t with
  | None => true
  | Some z => z =? 0
  end.

(** The body of [recordKill] between [loadStats()] and [saveStats(stats)]:
    the update of the loaded statistics, [now] being [Date.now()].  With
    a counter that is no number the sum is a string, and the run is not
    followed.  [mostKilledPort] holds [null] for [NaN] as well: it is
    only read in a condition, where both are false. *)
Definition record (stats : KillStats) (portInfo : PortInfo) (force : bool) (now : Z)
  : Typed KillStats :=
  let total := totalKills stats + 1 in
  match count_of (type_key portInfo) (killsByType stats) with
  | Untyped => Untyped
  | Known typeCount =>
      let byType :=
        obj_set (type_key portInfo) (typeCount + 1) (killsByType stats) in
      let first :=
        if no_timestamp (firstKillTimestamp stats) then Some now
        else firstKillTimestamp stats in
      let portKey := port_key (port portInfo) in
      match count_of portKey byType with
      | Untyped => Untyped
      | Known before =>
          let portCount := before + 1 in
          let byType' := obj_set portKey portCount byType in
          let more := portCount >? mostKilledPortCount stats in
          Known (mkStats total byType' first (Some now)
                   (if more then port portInfo else mostKilledPort stats)
                   (if more then portCount else mostKilledPortCount stats)
                   (if force then forceKills stats + 1 else forceKills stats))
      end
  end.

Section Persisted.
Variable env : Env.
  (** What [loadStats] returns: the defaults when the file is absent or
      cannot be read or parsed, and otherwise the defaults overwritten
      by whatever the JSON object of the file holds, which is a
      [KillStats] only if the file is as [saveStats] wrote it. *)
Variable stats_file : list Event -> Typed KillStats.

  (** [loadStats()]: it never throws. *)
Definition loadStats : M World (Typed KillStats) :=
    fun w => (Ok (stats_file (trace w)),
              mkWorld (trace w ++ [Call (lit "loadStats")]) (errors w)).

  (** [saveStats(stats)]: a failed write is swallowed. *)
Definition saveStats (stats : KillStats) : M World unit :=
    modify (fun w => mkWorld (trace w ++ [Call (lit "saveStats")]) (errors w)).

  (** [recordKill(portInfo, force = false)] *)
Definition recordKill (portInfo : PortInfo) (force : bool)
    : M World (Typed KillStats) :=
    loaded ← loadStats;
    match loaded with
    | Untyped => mret Untyped
    | Known stats =>
        w ← get_state;
        match record stats portInfo force (date_now env (trace w)) with
        | Untyped => mret Untyped
        | Known stats' => saveStats stats';; mret (Known stats')
        end
    end.
End Persisted.

(** The statistics after a series of kills, each recorded on top of the
    statistics the previous one saved and the next one loads. *)
Definition record_all (kills : list (PortInfo * bool * Z)) (stats : KillStats)
  : Typed KillStats :=
  fold_left (fun s k =>
               match s with
               | Known s => record s (fst (fst k)) (snd (fst k)) (snd k)
               | Untyped => Untyped
               end)
            kills (Known stats).

End Stats.

(** ** Port categories ([src/port/type-detector.ts]) *)

Module TypeDetector.

(** A preset of [TypePresetsConfig]; its declaration
    ([src/port/type-presets.ts]) is not among the sources, the fields
    are those the detector reads, each optional one as an [option]. *)
Record PortRange := mkRange { range_min : Z; range_max : Z }.

Record TypePreset := mkPreset {
  name : str;
  priority : option Z;
  ports : option (list Z);
  portRanges : option (list PortRange);
  commandPatterns : option (list str);
  processPatterns : option (list str)
}.

(** [preset.priority || 0] *)
Definition priority_of (preset : TypePreset) : Z :=
  match priority preset with Some z => z | None => 0 end.

(** [new TypeDetector(config)]: the presets are sorted by priority,
    highest first; the value is the sorted [config.types]. *)
Definition new_detector (types : list TypePreset) : list TypePreset :=
  Dashboard.sort (fun a b => priority_of b - priority_of a) types.

(** [preset.ports.includes(portNum)] *)
Definition includes_port (ps : list Z) (portNum : num) : bool :=
  existsb (fun q => same_value (Some q) portNum) ps.

(** [portNum >= range.min && portNum <= range.max]; both comparisons are
    false on [NaN]. *)
Definition in_range (portNum : num) (range : PortRange) : bool :=
  match portNum with
  | Some z => (z >=? range_min range) && (z <=? range_max range)
  | None => false
  end.

(** [detectByPort(portNum)] *)
Fixpoint detectByPort (types : list TypePreset) (portNum : num) : option str :=
  match types with
  | [] => None
  | preset :: rest =>
      if str_eqb (name preset) (lit "other") then detectByPort rest portNum
      else if match ports preset with
              | Some ps => includes_port ps portNum
              | None => false
              end
      then Some (name preset)
      else if match portRanges preset with
              | Some ranges => existsb (in_range portNum) ranges
              | None => false
              end
      then Some (name preset)
      else detectByPort rest portNum
  end.

(** The loops over [commandPatterns] and [processPatterns]. *)
Definition any_pattern (patterns : option (list str)) (searchText : str) : bool :=
  match patterns with
  | Some l => existsb (fun pattern => includes (Dashboard.toLowerCase pattern) searchText) l
  | None => false
  end.

Fixpoint detect_in (types : list TypePreset) (searchText : str) : option str :=
  match types with
  | [] => None
  | preset :: rest =>
      if str_eqb (name preset) (lit "other") || str_eqb (name preset) (lit "unexpected")
      then detect_in rest searchText
      else if any_pattern (commandPatterns preset) searchText then Some (name preset)
      else if any_pattern (processPatterns preset) searchText then Some (name preset)
      else detect_in rest searchText
  end.

(** [detectByCommand(command, processName)] *)
Definition detectByCommand (types : list TypePreset) (command processName : str)
  : option str :=
  detect_in types (Dashboard.toLowerCase (command ++ lit " " ++ processName)).

(** [if (match) return match]: a name that is the empty string does not
    count as a match. *)
Definition found (m : option str) : option str :=
  match m with
  | Some n => if truthy n then Some n else None
  | None => None
  end.

(** [detectType(port)] *)
Definition detectType (types : list TypePreset) (p : PortInfo) : str :=
  match found (detectByPort types (port p)) with
  | Some portMatch => portMatch
  | None =>
      match found (detectByCommand types (command p) (processName p)) with
      | Some commandMatch => commandMatch
      | None => lit "other"
      end
  end.

End TypeDetector.

(** ** The command line ([src/cli.ts]) *)

Module Cli.

(** [interface CLIOptions]; a flag that is [undefined] or [true] is a
    [bool]. *)
Record CLIOptions := mkOptions {
  opt_type : option str;
  opt_user : option str;
  opt_process : option str;
  opt_sort : option Dashboard.SortOption;
  opt_help : bool;
  opt_version : bool;
  opt_port : option str;
  opt_force : bool
}.

(** [interface ParsedArgs] *)
Record ParsedArgs := mkParsed {
  cli_command : option str;
  cli_options : CLIOptions;
  cli_args : list str
}.

Definition no_options : CLIOptions :=
  mkOptions None None None None false false None false.

Definition with_options (f : CLIOptions -> CLIOptions) (r : ParsedArgs) : ParsedArgs :=
  mkParsed (cli_command r) (f (cli_options r)) (cli_args r).

Definition set_type (v : str) (o : CLIOptions) : CLIOptions :=
  mkOptions (Some v) (opt_user o) (opt_process o) (opt_sort o) (opt_help o)
            (opt_version o) (opt_port o) (opt_force o).
Definition set_user (v : str) (o : CLIOptions) : CLIOptions :=
  mkOptions (opt_type o) (Some v) (opt_process o) (opt_sort o) (opt_help o)
            (opt_version o) (opt_port o) (opt_force o).
Definition set_process (v : str) (o : CLIOptions) : CLIOptions :=
  mkOptions (opt_type o) (opt_user o) (Some v) (opt_sort o) (opt_help o)
            (opt_version o) (opt_port o) (opt_force o).
Definition set_sort (v : Dashboard.SortOption) (o : CLIOptions) : CLIOptions :=
  mkOptions (opt_type o) (opt_user o) (opt_process o) (Some v) (opt_help o)
            (opt_version o) (opt_port o) (opt_force o).
Definition set_help (o : CLIOptions) : CLIOptions :=
  mkOptions (opt_type o) (opt_user o) (opt_process o) (opt_sort o) true
            (opt_version o) (opt_port o) (opt_force o).
Definition set_version (o : CLIOptions) : CLIOptions :=
  mkOptions (opt_type o) (opt_user o) (opt_process o) (opt_sort o) (opt_help o)
            true (opt_port o) (opt_force o).
Definition set_port (v : str) (o : CLIOptions) : CLIOptions :=
  mkOptions (opt_type o) (opt_user o) (opt_process o) (opt_sort o) (opt_help o)
            (opt_version o) (Some v) (opt_force o).
Definition set_force (o : CLIOptions) : CLIOptions :=
  mkOptions (opt_type o) (opt_user o) (opt_process o) (opt_sort o) (opt_help o)
            (opt_version o) (opt_port o) true.

(** [arg === a || arg === b] *)
Definition is_one_of (names : list string) (arg : str) : bool :=
  existsb (fun n => str_eqb arg (lit n)) names.

(** [["port", "process", "pid", "user"].includes(sortValue)] *)
Definition sort_of (v : str) : option Dashboard.SortOption :=
  if str_eqb v (lit "port") then Some Dashboard.SortPort
  else if str_eqb v (lit "process") then Some Dashboard.SortProcess
  else if str_eqb v (lit "pid") then Some Dashboard.SortPid
  else if str_eqb v (lit "user") then Some Dashboard.SortUser
  else None.

(** The loop of [parseArgs] from position [i] on, [args] being what is
    left of the array from there.  An option that takes a value consumes
    the next element, whatever it is; at the end of the array it is
    dropped. *)
Fixpoint parse (args : list str) (result : ParsedArgs) : ParsedArgs :=
  match args with
  | [] => result
  | arg :: rest =>
      if is_one_of ["--help"; "-h"]%string arg then
        parse rest (with_options set_help result)
      else if is_one_of ["--version"; "-v"]%string arg then
        parse rest (with_options set_version result)
      else if is_one_of ["--type"; "-t"]%string arg then
        match rest with
        | v :: rest' => parse rest' (with_options (set_type v) result)
        | [] => result
        end
      else if is_one_of ["--user"; "-u"]%string arg then
        match rest with
        | v :: rest' => parse rest' (with_options (set_user v) result)
        | [] => result
        end
      else if is_one_of ["--process"; "-p"]%string arg then
        match rest with
        | v :: rest' => parse rest' (with_options (set_process v) result)
        | [] => result
        end
      else if is_one_of ["--sort"; "-s"]%string arg then
        match rest with
        | v :: rest' =>
            parse rest' (match sort_of v with
                         | Some so => with_options (set_sort so) result
                         | None => result
                         end)
        | [] => result
        end
      else if is_one_of ["--port"]%string arg then
        match rest with
        | v :: rest' => parse rest' (with_options (set_port v) result)
        | [] => result
        end
      else if is_one_of ["--force"; "-f"]%string arg then
        parse rest (with_options set_force result)
      else if negb (startsWith (lit "-") arg) then
        match cli_command result with
        | None =>
            if str_eqb arg (lit "kill")
            then parse rest (mkParsed (Some arg) (cli_options result) (cli_args result))
            else parse rest (mkParsed (cli_command result) (cli_options result)
                                      (cli_args result ++ [arg]))
        | Some _ =>
            parse rest (mkParsed (cli_command result) (cli_options result)
                                 (cli_args result ++ [arg]))
        end
      else parse rest result
  end.

(** [parseArgs()], [argv] being [process.argv.slice(2)]. *)
Definition parseArgs (argv : list str) : ParsedArgs :=
  parse argv (mkParsed None no_options []).

(** The process as the command line sees it: what was printed with
    [console.log] and [console.error], the status passed to
    [process.exit], and the world of external commands. *)
Record Terminal := mkTerminal {
  logged : list str;
  complained : list str;
  exit_status : option Z;
  os : World
}.

Definition console_log (line : str) : M Terminal unit :=
  modify (fun t => mkTerminal (logged t ++ [line]) (complained t) (exit_status t) (os t)).

Definition console_error (line : str) : M Terminal unit :=
  modify (fun t => mkTerminal (logged t) (complained t ++ [line]) (exit_status t) (os t)).

(** [process.exit(code)]; the statements that follow it in the source
    are in the other branch here. *)
Definition process_exit (code : Z) : M Terminal unit :=
  modify (fun t => mkTerminal (logged t) (complained t) (Some code) (os t)).

Definition in_os {A} (m : M World A) : M Terminal A :=
  fun t => let '(r, w) := m (os t) in
           (r, mkTerminal (logged t) (complained t) (exit_status t) w).

Section Commands.
Variable env : Env.
Variable platform : Platform.

  (** [!portArg]: [undefined] or the empty string. *)
Definition missing (portArg : option str) : bool :=
    match portArg with
    | Some s => negb (truthy s)
    | None => true
    end.

  (** [isNaN(port) || port < 1 || port > 65535] *)
Definition invalid_port (p : num) : bool :=
    match p with
    | None => true
    | Some z => (z <? 1) || (z >? 65535)
    end.

  (** [for (const portInfo of result.killed) console.log(...)] *)
Fixpoint log_killed (killed : list PortInfo) : M Terminal unit :=
    match killed with
    | [] => mret tt
    | portInfo :: rest =>
        console_log (lit "  - PID " ++ toString (pid portInfo) ++ lit ": "
                     ++ processName portInfo ++ lit " (port "
                     ++ toString (port portInfo) ++ lit ")");;
        log_killed rest
    end.

  (** [handleKillCommand(portArg, force = false)] *)
Definition handleKillCommand (portArg : option str) (force : bool) : M Terminal unit :=
    if missing portArg then
      console_error (lit "Error: Port number required");;
      console_log (lit "Usage: kipo kill <port>");;
      console_log (lit "   or: kipo kill --port <port>");;
      process_exit 1
    else
      let text := default [] portArg in
      let p := parseInt text in
      if invalid_port p then
        console_error (lit "Error: Invalid port number: " ++ text);;
        console_log (lit "Port must be a number between 1 and 65535");;
        process_exit 1
      else
        result ← in_os (PortActions.killPortByNumber env platform p force);
        if PortActions.success result then
          console_log (PortActions.message result);;
          when (0 <? length (PortActions.killed result))%nat
            (console_log (newline :: lit "Killed processes:");;
             log_killed (PortActions.killed result));;
          process_exit 0
        else
          console_error (PortActions.message result);;
          process_exit 1.
End Commands.

End Cli.

(** ** Port discovery on Unix ([UnixPlatformAdapter.detectPorts] and the
    batch resolution of process metadata) *)

(** Modelled from the spec: the two operations of [CacheManager]
    ([src/platform/cache-manager.ts], not among the sources) that the
    adapters call besides [get] and [delete].  The spec pins [set]
    followed by [get] only and leaves eviction open, so both are kept
    abstract; each is given the time of the call. *)
Record CachePolicy := mkPolicy {
  cache_cleanup : Z -> CacheManager.t ProcessInfo -> CacheManager.t ProcessInfo;
  cache_set : Z -> num -> ProcessInfo -> CacheManager.t ProcessInfo
              -> CacheManager.t ProcessInfo
}.

(** A cache that drops expired entries on [cleanup] and never evicts. *)
Definition ttl_policy : CachePolicy :=
  {| cache_cleanup := fun now c =>
       CacheManager.mk (CacheManager.ttl c) (CacheManager.maxSize c)
         (base.filter (fun kv => now - CacheManager.storedAt (snd kv) <= CacheManager.ttl c)
                      (CacheManager.store c));
     cache_set := fun now k v c =>
       CacheManager.mk (CacheManager.ttl c) (CacheManager.maxSize c)
         (<[k := CacheManager.mkEntry v now]> (CacheManager.store c)) |}.

Module UnixDiscovery.

(** What [getBatchProcessInfoFromPs] stores for a pid: [{ command, lifetime? }]. *)
Definition PsInfo : Type := str * option Z.

(** The loop of [getBatchProcessInfoFromPs] over the lines of [ps]. *)
Definition parsePsOutput (output : str) : gmap (option Z) PsInfo :=
  fold_left
    (fun result line =>
       match Unix.parsePsLine line with
       | Some (pid, entry) => <[pid := entry]> result
       | None => result
       end)
    (lines (trim output)) ∅.

(** The loop of [getBatchProcessCWD] over the lines of [lsof -Fn], with
    its variable [currentPid]. *)
Definition cwd_step (acc : gmap (option Z) str * option num) (line : str)
  : gmap (option Z) str * option num :=
  let '(result, currentPid) := acc in
  if startsWith (lit "p") line then (result, Some (parseInt (slice 1 line)))
  else if startsWith (lit "n") line then
    match currentPid with
    | Some pid => (<[pid := slice 1 line]> result, None)
    | None => (result, currentPid)
    end
  else (result, currentPid).

Definition parseCwdOutput (output : str) : gmap (option Z) str :=
  fst (fold_left cwd_step (lines output) (∅, None)).

(** [pids.join(",")] *)
Definition pidList (pids : list num) : str := join (lit ",") (List.map toString pids).

Definition lsof_listing : list str := [lit "lsof"; lit "-i"; lit "-P"; lit "-n"].

Definition ps_batch (pids : list num) : list str :=
  [lit "ps"; lit "-p"; pidList pids; lit "-o"; lit "pid=,command=,etime="; lit "-ww"].

Definition lsof_cwd (pids : list num) : list str :=
  [lit "lsof"; lit "-p"; pidList pids; lit "-a"; lit "-d"; lit "cwd"; lit "-Fn"].

Definition ps_command (p : num) : list str :=
  [lit "ps"; lit "-p"; toString p; lit "-o"; lit "command="; lit "-ww"].

(** The fallback of [getBatchProcessInfoFromPs]. *)
Definition unknown_for (pids : list num) : gmap (option Z) PsInfo :=
  fold_left (fun result pid => <[pid := (lit "unknown", None)]> result) pids ∅.

(** The entry built for a pid that was not in the cache. *)
Definition combine (processInfoMap : gmap (option Z) PsInfo)
    (cwdMap : gmap (option Z) str) (pid : num) : ProcessInfo :=
  mkProcessInfo
    (match processInfoMap !! pid with
     | Some entry => Unix.or_unknown (fst entry)
     | None => lit "unknown"
     end)
    (match cwdMap !! pid with
     | Some path => if truthy path then Some path else None
     | None => None
     end)
    (match processInfoMap !! pid with
     | Some entry => snd entry
     | None => None
     end).

Section Discovery.
Variable env : Env.
Variable policy : CachePolicy.

  (** The time a cache operation reads. *)
Definition clock (a : AdapterState) : Z := date_now env (trace (world a)).

Definition cleanup : M AdapterState unit :=
    modify (fun a => mkAdapter (cache_cleanup policy (clock a) (processInfoCache a))
                               (world a)).

Definition cached (p : num) : M AdapterState (option ProcessInfo) :=
    fun a => (Ok (CacheManager.get (clock a) p (processInfoCache a)), a).

Definition store (p : num) (info : ProcessInfo) : M AdapterState unit :=
    modify (fun a => mkAdapter (cache_set policy (clock a) p info (processInfoCache a))
                               (world a)).

  (** [getBatchProcessInfoFromPs(pids)] *)
Definition getBatchProcessInfoFromPs (pids : list num)
    : M AdapterState (gmap (option Z) PsInfo) :=
    if (length pids =? 0)%nat then mret ∅
    else
      try_catch
        (proc ← spawnProcess env (ps_batch pids);
         mret (parsePsOutput (stdout proc)))
        (fun _ => mret (unknown_for pids)).

  (** [getBatchProcessCWD(pids)] *)
Definition getBatchProcessCWD (pids : list num) : M AdapterState (gmap (option Z) str) :=
    if (length pids =? 0)%nat then mret ∅
    else
      try_catch
        (proc ← spawnProcess env (lsof_cwd pids);
         mret (parseCwdOutput (stdout proc)))
        (fun _ => mret ∅).

  (** The first loop of [getBatchProcessInfo]: what the cache answers. *)
Fixpoint check_cache (pids : list num) (result : gmap (option Z) ProcessInfo)
      (uncachedPids : list num)
    : M AdapterState (gmap (option Z) ProcessInfo * list num) :=
    match pids with
    | [] => mret (result, uncachedPids)
    | pid :: rest =>
        hit ← cached pid;
        match hit with
        | Some info => check_cache rest (<[pid := info]> result) uncachedPids
        | None => check_cache rest result (uncachedPids ++ [pid])
        end
    end.

  (** Its last loop: the entries of the pids that were not cached. *)
Fixpoint fill (uncachedPids : list num) (processInfoMap : gmap (option Z) PsInfo)
      (cwdMap : gmap (option Z) str) (result : gmap (option Z) ProcessInfo)
    : M AdapterState (gmap (option Z) ProcessInfo) :=
    match uncachedPids with
    | [] => mret result
    | pid :: rest =>
        let info := combine processInfoMap cwdMap pid in
        store pid info;;
        fill rest processInfoMap cwdMap (<[pid := info]> result)
    end.

  (** [getBatchProcessInfo(pids)].  The two commands of [Promise.all]
      are started in this order before either is awaited; neither task
      reads what the other writes. *)
Definition getBatchProcessInfo (pids : list num)
    : M AdapterState (gmap (option Z) ProcessInfo) :=
    cleanup;;
    checked ← check_cache pids ∅ [];
    let '(result, uncachedPids) := checked in
    if (length uncachedPids =? 0)%nat then mret result
    else
      processInfoMap ← getBatchProcessInfoFromPs uncachedPids;
      cwdMap ← getBatchProcessCWD uncachedPids;
      fill uncachedPids processInfoMap cwdMap result.

  (** [parseLsofOutput(output)] *)
Definition parseLsofOutput (output : str) : M AdapterState (list PortInfo) :=
    batchProcessInfo ← getBatchProcessInfo (Unix.uniquePids (Unix.parseLsofLines output));
    mret (Unix.parseLsofOutput output batchProcessInfo).

Definition permission_denied : Err :=
    lit "Permission denied. Some ports may require sudo access.".

Definition lsof_failed (result : ProcResult) : Err :=
    lit "lsof failed with exit code " ++ toString (Some (exitCode result)) ++ lit ": "
    ++ (if truthy (stderr result) then stderr result else lit "No error message").

  (** [detectPorts()]; every error of the model is an [Error], which the
      [catch] block throws again as it is. *)
Definition detectPorts : M AdapterState (list PortInfo) :=
    try_catch
      (result ← spawnProcess env lsof_listing;
       if negb (exitCode result =? 0) then
         if includes (lit "Permission denied") (stderr result)
         then throw permission_denied
         else throw (lsof_failed result)
       else parseLsofOutput (stdout result))
      (fun error => throw error).

  (** [getProcessInfo(pid)] *)
Definition getProcessInfo (p : num) : M AdapterState (str * option str) :=
    batchInfo ← getBatchProcessInfo [p];
    match batchInfo !! p with
    | Some info => mret (pi_command info, pi_cwd info)
    | None => mret (lit "unknown", None)
    end.

  (** [getProcessLifetime(pid)] *)
Definition getProcessLifetime (p : num) : M AdapterState (option Z) :=
    hit ← cached p;
    match hit with
    | Some info => mret (pi_lifetime info)
    | None =>
        batchInfo ← getBatchProcessInfo [p];
        mret (match batchInfo !! p with
              | Some info => pi_lifetime info
              | None => None
              end)
    end.

  (** [getProcessCommand(pid)] *)
Definition getProcessCommand (p : num) : M AdapterState str :=
    try_catch
      (proc ← spawnProcess env (ps_command p);
       if (exitCode proc =? 0) && truthy (trim (stdout proc)) then
         mret (trim (stdout proc))
       else
         batchInfo ← getBatchProcessInfo [p];
         mret (match batchInfo !! p with
               | Some info => Unix.or_unknown (pi_command info)
               | None => lit "unknown"
               end))
      (fun _ => mret (lit "unknown")).
End Discovery.

End UnixDiscovery.

(** ** Port discovery on Windows ([WindowsPlatformAdapter.detectPorts]) *)

Module WindowsDiscovery.

Definition netstat_listing : list str := [lit "netstat"; lit "-ano"].

Definition netstat_failed (result : ProcResult) : Err :=
  lit "netstat failed with exit code " ++ toString (Some (exitCode result)) ++ lit ": "
  ++ (if truthy (stderr result) then stderr result else lit "No error message").

Section Discovery.
Variable env : Env.

  (** [this.getBatchProcessInfo], the resolution of process metadata
      through [wmic]; [detectPorts] is modelled for any such method. *)
Variable getBatchProcessInfo : list num -> M AdapterState (gmap (option Z) ProcessInfo).

  (** [detectPorts()]; [Array.from(new Set(ports.map((p) => p.pid)))] is
      the list of distinct pids in the order of their first occurrence. *)
Definition detectPorts : M AdapterState (list PortInfo) :=
    try_catch
      (result ← spawnProcess env netstat_listing;
       if negb (exitCode result =? 0) then throw (netstat_failed result)
       else
         let ports := Windows.parseNetstatOutput (stdout result) in
         let uniquePids := Unix.uniquePids ports in
         batchProcessInfo ← getBatchProcessInfo uniquePids;
         mret (List.map (Unix.mergeProcessInfo batchProcessInfo) ports))
      (fun error => throw error).
End Discovery.

End WindowsDiscovery.

(** ** The clipboard ([copyCommandToClipboard] of [src/tui/port-actions.ts]) *)

Module Clipboard.

Section Copy.
  (** [spawnWithStdin(argv, input)] of [runtime-utils.ts]: the exit code
      it resolves with ([code || 0]), or the rejection of the spawn. *)
Variable stdin_result : list Event -> list str -> str -> Outcome Z.
  (** [process.platform] *)
Variable platform : str.

Definition spawnWithStdin (argv : list str) (input : str) : M World Z :=
    fun w => (stdin_result (trace w) argv input,
              mkWorld (trace w ++ [Spawn argv]) (errors w)).

Definition pbcopy : list str := [lit "pbcopy"].
Definition xclip : list str := [lit "xclip"; lit "-selection"; lit "clipboard"].
Definition xsel : list str := [lit "xsel"; lit "--clipboard"; lit "--input"].

  (** The result of the inner [try] of the Linux branch: [Some b] when it
      returns [b], [None] when control falls out of it. *)
Definition linux_branch (command : str) : M World (option bool) :=
    try_catch
      (exitCode ← spawnWithStdin xclip command;
       if exitCode =? 0 then mret (Some true) else mret None)
      (fun _ =>
         try_catch
           (exitCode ← spawnWithStdin xsel command;
            mret (Some (exitCode =? 0)))
           (fun _ => mret (Some false))).

Definition copyCommandToClipboard (command : str) : M World bool :=
    try_catch
      (if str_eqb platform (lit "darwin") then
         exitCode ← spawnWithStdin pbcopy command;
         mret (exitCode =? 0)
       else if str_eqb platform (lit "linux") then
         r ← linux_branch command;
         match r with
         | Some b => mret b
         | None => mret false
         end
       else mret false)
      (fun _ => mret false).
End Copy.
End Clipboard.

(** ** Statements about termination *)

(** What the claim "the entry is deleted on every outcome" says of a
    [killProcess] implementation. *)
Definition invalidates_on_every_outcome
    (killProcess : Env -> option Z -> bool -> M AdapterState bool) : Prop :=
  forall env p force a now,
    CacheManager.get now p
      (processInfoCache (snd (killProcess env p force a))) = None.

(** The outcome of the [try] block decides both the result and the cache:
    [true] and a caught error delete the entry, [false] leaves the cache
    as it was. *)
Definition cache_rule (p : option Z) (a : AdapterState)
    (body whole : M AdapterState bool) : Prop :=
  match body a with
  | (Ok true, _) =>
      fst (whole a) = Ok true
      /\ forall now, CacheManager.get now p (processInfoCache (snd (whole a))) = None
  | (Ok false, _) =>
      fst (whole a) = Ok false
      /\ processInfoCache (snd (whole a)) = processInfoCache a
  | (Throw _, _) =>
      fst (whole a) = Ok false
      /\ forall now, CacheManager.get now p (processInfoCache (snd (whole a))) = None
  end.






(** An environment given by its commands and its detector; every other
    collaborator answers with a fixed value. *)
Definition env_with (spawn : list Event -> list str -> Outcome ProcResult)
    (detect : list Event -> Outcome (list PortInfo)) : Env :=
  {| spawn_result := spawn;
     detect_result := detect;
     clear_cache_result := fun _ => Ok tt;
     process_ports_result := fun _ ports => Ok (mkProcessed ports [] 0);
     date_now := fun _ => 0;
     load_stats_result := fun _ => mkStats 0 [] None None None 0 0;
     record_kill_result := fun _ _ _ => Ok (mkStats 1 [] None None None 0 0);
     kill_message_result := fun _ _ _ _ => Ok (mkKillMessage (lit "done") None None);
     current_rank := fun _ => Ok (mkRank (lit "Novice") None);
     rank_up := fun _ _ => Ok None;
     format_rank := fun r => Ok (rank_name r);
     stats_summary := fun _ => Ok [];
     process_command_result := fun _ _ => Ok (lit "node");
     clipboard_result := fun _ _ => Ok true;
     confirm_action_result := fun _ => Ok tt;
     locale_compare := fun _ _ => 0;
     minimatch := fun _ _ => true;
     categorize_port := fun _ => lit "other" |}.

(** A host on which every command exits with status 1. *)
Definition env_refusing : Env :=
  env_with (fun _ _ => Ok (mkProc 1 [] (lit "Operation not permitted")))
           (fun _ => Ok []).


Definition info_node : ProcessInfo := mkProcessInfo (lit "node server.js") None (Some 12).

Definition adapter_caching_4242 : AdapterState :=
  mkAdapter (CacheManager.mk 30000 1000
               {[ Some 4242 := CacheManager.mkEntry info_node 0 ]})
            (mkWorld [] []).

(** The first command a kill attempt issues. *)
Definition first_command (platform : Platform) (p : option Z) (force : bool) : list str :=
  match platform with
  | Win32 => if force then Windows.taskkill_f p else Windows.taskkill p
  | OtherPlatform => if force then Unix.kill_9 p else Unix.kill_term p
  end.

(** The results of the kill attempts made one after the other on [ports],
    starting in world [w]. *)
Fixpoint attempt_results (env : Env) (platform : Platform) (force : bool)
    (ports : list PortInfo) (w : World) : list bool :=
  match ports with
  | [] => []
  | q :: rest =>
      let '(r, w') := ProcessUtils.killProcess env platform (pid q) force w in
      match r with Ok b => b | Throw _ => false end
      :: attempt_results env platform force rest w'
  end.

(** The ports whose attempt had the given result. *)
Fixpoint select (b : bool) (ports : list PortInfo) (results : list bool) : list PortInfo :=
  match ports, results with
  | q :: ports', r :: results' =>
      if Bool.eqb r b then q :: select b ports' results' else select b ports' results'
  | _, _ => []
  end.

Definition after_detect (w : World) : World :=
  mkWorld (trace w ++ [Call (lit "detectPorts")]) (errors w).

(** The world after the kill attempts made one after the other on
    [ports], starting in world [w]. *)
Fixpoint after_attempts (env : Env) (platform : Platform) (force : bool)
    (ports : list PortInfo) (w : World) : World :=
  match ports with
  | [] => w
  | q :: rest =>
      after_attempts env platform force rest
        (snd (ProcessUtils.killProcess env platform (pid q) force w))
  end.

(** An entry of the detector is bound to port [p]: its port number is
    the number [p] ([NaN] is the number of no port). *)
Definition bound_to (p : option Z) (q : PortInfo) : Prop :=
  exists n, p = Some n /\ port q = Some n.

(** The entries of [ports] bound to port [p], in the order of the
    detector and as often as the detector lists them. *)
Fixpoint processes_on (p : option Z) (ports : list PortInfo) : list PortInfo :=
  match ports with
  | [] => []
  | q :: rest =>
      match p, port q with
      | Some n, Some m =>
          if Z.eq_dec m n then q :: processes_on p rest else processes_on p rest
      | _, _ => processes_on p rest
      end
  end.

(** What [killPortByNumber] does and reports, given the [ports] the
    detector found: the kill attempts are those on the entries bound to
    port [p], one after the other and nothing else; [rep] and the final
    world [w'] follow from their results. *)
Definition kill_report_rule (env : Env) (platform : Platform) (p : option Z)
    (force : bool) (w : World) (ports : list PortInfo)
    (rep : PortActions.KillReport) (w' : World) : Prop :=
  let bound := processes_on p ports in
  let results := attempt_results env platform force bound (after_detect w) in
  let killedL := select true bound results in
  let failedL := select false bound results in
  length results = length bound
  /\ w' = after_attempts env platform force bound (after_detect w)
  /\ (exists evs,
        trace w' = trace w ++ Call (lit "detectPorts") :: evs
        /\ forall q, In q ports -> bound_to p q ->
                     In (Spawn (first_command platform (pid q) force)) evs)
  /\ (forall q, In q (PortActions.killed rep) -> In q ports /\ bound_to p q)
  /\ ((forall q, In q ports -> ~ bound_to p q) ->
        PortActions.success rep = false /\ PortActions.killed rep = []
        /\ PortActions.message rep = PortActions.msg_not_found p
        /\ w' = after_detect w)
  /\ ((exists q, In q ports /\ bound_to p q) -> killedL = [] ->
        PortActions.success rep = false /\ PortActions.killed rep = []
        /\ PortActions.message rep = PortActions.msg_all_failed p)
  /\ (killedL <> [] -> failedL <> [] ->
        PortActions.success rep = true /\ PortActions.killed rep = killedL
        /\ PortActions.message rep = PortActions.msg_partial p killedL failedL)
  /\ (killedL <> [] -> failedL = [] ->
        PortActions.success rep = true /\ PortActions.killed rep = killedL
        /\ PortActions.message rep = PortActions.msg_all_killed p killedL).

(** The message of a partial failure is none of the other messages. *)
Definition partial_message_distinct (p : option Z) : Prop :=
  forall k f k' e,
    PortActions.msg_partial p k f <> PortActions.msg_not_found p
    /\ PortActions.msg_partial p k f <> PortActions.msg_all_failed p
    /\ PortActions.msg_partial p k f <> PortActions.msg_all_killed p k'
    /\ PortActions.msg_partial p k f <> PortActions.msg_error p e.

Definition port80 (p : Z) : PortInfo :=
  mkPortInfo (Some 80) TCP (Some p) (lit "node") [] None (lit "dev") None None.

(** A host with two processes on port 80, on which [kill] works for pid 7
    only. *)
Definition env_two_on_80 : Env :=
  env_with (fun _ argv =>
           match argv with
           | [_; _; p] => if str_eqb p (lit "7") then Ok (mkProc 0 [] [])
                          else Ok (mkProc 1 [] [])
           | _ => Ok (mkProc 1 [] [])
           end)
        (fun _ => Ok [port80 7; port80 8]).

(** A process on another port. *)
Definition port3000 (p : Z) : PortInfo :=
  mkPortInfo (Some 3000) TCP (Some p) (lit "vite") [] None (lit "dev") None None.

(** A host with two processes on port 80 and one on port 3000 between
    them, on which [kill] works for pid 7 only. *)
Definition env_three_listeners : Env :=
  env_with (fun _ argv =>
           match argv with
           | [_; _; p] => if str_eqb p (lit "7") then Ok (mkProc 0 [] [])
                          else Ok (mkProc 1 [] [])
           | _ => Ok (mkProc 1 [] [])
           end)
        (fun _ => Ok [port80 7; port3000 9; port80 8]).

(** ** Statements about the dashboard *)

Import Dashboard.

(** The filtered, flattened list as [getFilteredPorts] returns it. *)
Definition current_rows (d : Dash) : list FlatEntry :=
  match fst (getFilteredPorts d) with
  | Ok rows => rows
  | Throw _ => []
  end.

(** A computation that never throws and relates the state before to the
    state after by [R]. *)
Definition within {A} (R : Dash -> Dash -> Prop) (m : M Dash A) : Prop :=
  forall d, exists a d', m d = (Ok a, d') /\ R d d'.

(** What painting may change: the toast (it expires during a render), the
    memo of the flattened list, the previous frame, the renderer and the
    record of calls.  The rest of the dashboard stays as it is. *)
Definition only_paint (d d' : Dash) : Prop :=
  (exists km kme,
     state d' = set_killMessageExpiresAt kme (set_killMessage km (state d)))
  /\ searchBuffer d' = searchBuffer d
  /\ isRunning d' = isRunning d
  /\ exited d' = exited d
  /\ filterOptions d' = filterOptions d
  /\ screenWidth d' = screenWidth d
  /\ screenHeight d' = screenHeight d.

(** A cache entry of the flattened list that answers the next call. *)
Definition cache_valid (d : Dash) (rows : list FlatEntry) : Prop :=
  exists c,
    filteredPortsCache d = Some c
    /\ fc_result c = rows
    /\ str_eqb (fc_filter c) (filter (state d)) = true
    /\ str_eqb (fc_groupsHash c) (groupsHash (groups (state d))) = true
    /\ sortkey_eqb (fc_sortBy c) (sortBy (state d)) = true.

(** A host with three listening processes, all in one group; every
    command succeeds. *)
Definition demo_port (pt p : Z) : PortInfo :=
  mkPortInfo (Some pt) TCP (Some p) (lit "node") (lit "node server.js") None
             (lit "dev") (Some 90) None.

Definition demo_ports : list PortInfo :=
  [demo_port 3000 411; demo_port 5173 412; demo_port 8080 413].

Definition env_demo : Env :=
  {| spawn_result := fun _ _ => Ok (mkProc 0 [] []);
     detect_result := fun _ => Ok demo_ports;
     clear_cache_result := fun _ => Ok tt;
     process_ports_result := fun _ found =>
       Ok (mkProcessed found [mkGroup (lit "dev-server") (lit "dev-server") found false] 0);
     date_now := fun _ => 0;
     load_stats_result := fun _ => mkStats 0 [] None None None 0 0;
     record_kill_result := fun _ _ _ => Ok (mkStats 1 [] None None None 0 0);
     kill_message_result := fun _ _ _ _ => Ok (mkKillMessage (lit "done") None None);
     current_rank := fun _ => Ok (mkRank (lit "Novice") None);
     rank_up := fun _ _ => Ok None;
     format_rank := fun r => Ok (rank_name r);
     stats_summary := fun _ => Ok [];
     process_command_result := fun _ _ => Ok (lit "node server.js");
     clipboard_result := fun _ _ => Ok true;
     confirm_action_result := fun _ => Ok tt;
     locale_compare := fun _ _ => 0;
     minimatch := fun _ _ => true;
     categorize_port := fun _ => lit "dev-server" |}.

(** The same host, on which the detector can no longer be reached once
    the dashboard runs: clearing its cache throws. *)
Definition env_detector_down : Env :=
  {| spawn_result := spawn_result env_demo;
     detect_result := detect_result env_demo;
     clear_cache_result := fun _ => Throw (lit "detector is gone");
     process_ports_result := process_ports_result env_demo;
     date_now := date_now env_demo;
     load_stats_result := load_stats_result env_demo;
     record_kill_result := fun _ _ _ => Throw (lit "EACCES");
     kill_message_result := kill_message_result env_demo;
     current_rank := current_rank env_demo;
     rank_up := rank_up env_demo;
     format_rank := format_rank env_demo;
     stats_summary := stats_summary env_demo;
     process_command_result := process_command_result env_demo;
     clipboard_result := clipboard_result env_demo;
     confirm_action_result := confirm_action_result env_demo;
     locale_compare := locale_compare env_demo;
     minimatch := minimatch env_demo;
     categorize_port := categorize_port env_demo |}.

(** The dashboard of an 80 x 24 terminal after [start()] and its first
    timer tick, which paints the first frame. *)
Definition demo_dashboard : Dash :=
  Keyboard.run env_demo OtherPlatform [Keyboard.Tick]
    (snd (Keyboard.start env_demo (new_dashboard no_options 80 24))).

(** At most one of the five modal flags and the search flag is set. *)
Definition flags (st : DashboardState) : list bool :=
  [showHelp st; showConfirm st; showLogs st; showCommand st; showStats st;
   searching st].

Definition at_most_one_open (st : DashboardState) : Prop :=
  (length (List.filter (fun b : bool => b) (flags st)) <= 1)%nat.

(** *** Frames *)

(** The terminal lines a drawing operation writes to. *)
Definition lines_of (op : DrawOp) : list Z :=
  match op with
  | OpHeader => [0]
  | OpPortLine _ y => [y]
  | OpDetails height => [height - 4; height - 3]
  | OpFooter height => [height - 2; height - 1]
  | OpToast height => [height - 3]
  | OpClear | OpHideCursor | OpShowCursor | OpModal _ => []
  end.

Definition touched (ops : list DrawOp) : list Z := flat_map lines_of ops.

(** A full repaint: the clear sequence is written, then one write that
    hides the cursor and redraws from the header on. *)
Definition full_repaint (d d' : Dash) : Prop :=
  exists frame,
    written d' = written d ++ [[OpClear]; OpHideCursor :: OpHeader :: frame].

(** A delta repaint: one write, without a clear, of the given operations. *)
Definition delta_repaint (d d' : Dash) (ops : list DrawOp) : Prop :=
  written d' = written d ++ [ops] /\ ~ In OpClear ops.

(** The frame about to be painted differs from the previous one, [prev],
    in the selected row only: no modal, same rows (none differs in the
    fields the renderer compares), same filter, sort key and details
    flag, no toast, another selected index. *)
Definition selection_only_change (d : Dash) (prev : RenderState) : Prop :=
  modal_of (state d) = None
  /\ previousRenderState d = Some prev
  /\ buffer d = []
  /\ Forall2 (fun p c => row_differs p c = false)
             (rs_filteredPorts prev) (current_rows d)
  /\ rs_filter prev = filter (state d)
  /\ rs_sortBy prev = sortBy (state d)
  /\ rs_showDetails prev = showDetails (state d)
  /\ killMessage (state d) = None
  /\ rs_selectedIndex prev <> selectedIndex (state d).

(** The claim as stated: such a frame is painted by a delta repaint
    that touches the header and the two selection lines and no other. *)
Definition selection_delta_claim (env : Env) : Prop :=
  forall d prev,
    selection_only_change d prev ->
    exists ops,
      delta_repaint d (snd (render env d)) ops
      /\ forall y, In y (touched ops)
                   <-> In y [0; rs_selectedIndex prev + 2; selectedIndex (state d) + 2].

(** What a delta pass draws for a changed line. *)
Definition line_op (rows : list FlatEntry) (maxHeight lineNum : Z) : list DrawOp :=
  if (lineNum >=? 2) && (lineNum <? maxHeight) && (lineNum - 2 <? of_length rows)
  then [OpPortLine (lineNum - 2) lineNum]
  else [].

(** The details footer, drawn when details are on and a row is selected. *)
Definition details_op (d : Dash) : list DrawOp :=
  if showDetails (state d) && (0 <? of_length (current_rows d))
     && (0 <=? selectedIndex (state d))
  then [OpDetails (screenHeight d)]
  else [].

(** The dashboard after one [down] key handled up to, but not including,
    its repaint. *)
Definition demo_moved : Dash := snd (moveSelection 1 demo_dashboard).

Definition demo_previous : RenderState :=
  match previousRenderState demo_dashboard with
  | Some prev => prev
  | None => mkRender [] 0 [] ByPort true
  end.

(** The entry [getSelectedPort] returns, from the rows and the index. *)
Definition selected_of (rows : list FlatEntry) (i : Z) : option FlatEntry :=
  if (length rows =? 0)%nat then None
  else at_index rows (Z.min i (of_length rows - 1)).

(** Drawing only: nothing is written yet, the buffer gets longer. *)
Definition grows (d d' : Dash) : Prop :=
  written d' = written d /\ exists ops, buffer d' = buffer d ++ ops.

(** The same dashboard after a change of the sort key, and on a terminal
    of nine lines. *)
Definition demo_resorted : Dash :=
  set_state (set_sortBy ByPid (state demo_moved)) demo_moved.

Definition demo_small : Dash := set_screenHeight 9 demo_moved.

Definition demo_current : RenderState :=
  mkRender (current_rows demo_moved) 1 [] ByPort true.

(** ** Statements about the parsers *)

(** What [lsof -i -P -n] prints for one process listening on port 3000 on
    both IPv4 and IPv6. *)
Definition lsof_dual_stack : str :=
  lit "COMMAND   PID USER   FD   TYPE DEVICE SIZE/OFF NODE NAME" ++ [newline]
  ++ lit "node     4242 dev    23u  IPv4 0x1f      0t0  TCP *:3000 (LISTEN)" ++ [newline]
  ++ lit "node     4242 dev    24u  IPv6 0x2a      0t0  TCP *:3000 (LISTEN)" ++ [newline].

(** What [netstat -ano] prints for one process listening on port 3000 on
    both IPv4 and IPv6. *)
Definition netstat_dual_stack : str :=
  lit "Active Connections" ++ [newline; newline]
  ++ lit "  Proto  Local Address          Foreign Address        State           PID"
  ++ [newline]
  ++ lit "  TCP    0.0.0.0:3000           0.0.0.0:0              LISTENING       4242"
  ++ [newline]
  ++ lit "  TCP    [::]:3000              [::]:0                 LISTENING       4242"
  ++ [newline].

(** At most one entry per (port, pid) pair. *)
Definition same_socket (p q : PortInfo) : Prop := port p = port q /\ pid p = pid q.

Definition one_entry_per_socket (ports : list PortInfo) : Prop :=
  forall i j p q,
    nth_error ports i = Some p -> nth_error ports j = Some q ->
    same_socket p q -> i = j.

(** *** Elapsed time, as the specification words it

    The patterns [dd-hh:mm:ss], [hh:mm:ss] and [mm:ss] are tried in this
    order, each on the end of the line; the fields of the first that fits
    give [days*86400 + hours*3600 + minutes*60 + seconds]; there is no
    lifetime when no pattern fits or the total is zero. *)
Module EtimeSpec.

(** One or two digits, two when there are two. *)
Definition one_or_two_digits (s : str) : option (Z * str) :=
  match s with
  | a :: r =>
      if is_digit a then
        match r with
        | b :: r' => if is_digit b then Some (10 * digit_val a + digit_val b, r')
                     else Some (digit_val a, r)
        | [] => Some (digit_val a, [])
        end
      else None
  | [] => None
  end.

Definition two_digits (s : str) : option (Z * str) :=
  match s with
  | a :: b :: r =>
      if is_digit a && is_digit b then Some (10 * digit_val a + digit_val b, r)
      else None
  | _ => None
  end.

Definition expect (c : ascii) (s : str) : option str :=
  match s with
  | x :: r => if Ascii.eqb x c then Some r else None
  | [] => None
  end.

Definition at_end (s : str) : option unit :=
  match s with [] => Some tt | _ :: _ => None end.

Definition read_dd_hh_mm_ss (s : str) : option Z :=
  '(days, s) ← one_or_two_digits s;
  s ← expect "-" s;
  '(hours, s) ← one_or_two_digits s;
  s ← expect ":" s;
  '(minutes, s) ← two_digits s;
  s ← expect ":" s;
  '(seconds, s) ← two_digits s;
  at_end s;;
  Some (days * 86400 + hours * 3600 + minutes * 60 + seconds).

Definition read_hh_mm_ss (s : str) : option Z :=
  '(hours, s) ← one_or_two_digits s;
  s ← expect ":" s;
  '(minutes, s) ← two_digits s;
  s ← expect ":" s;
  '(seconds, s) ← two_digits s;
  at_end s;;
  Some (hours * 3600 + minutes * 60 + seconds).

Definition read_mm_ss (s : str) : option Z :=
  '(minutes, s) ← one_or_two_digits s;
  s ← expect ":" s;
  '(seconds, s) ← two_digits s;
  at_end s;;
  Some (minutes * 60 + seconds).

(** Anchored to the end of the line: the longest end of the line that has
    the form. *)
Fixpoint at_line_end (read : str -> option Z) (line : str) : option Z :=
  match read line with
  | Some total => Some total
  | None => match line with
            | [] => None
            | _ :: r => at_line_end read r
            end
  end.

Definition total_seconds (line : str) : option Z :=
  match at_line_end read_dd_hh_mm_ss line with
  | Some total => Some total
  | None =>
      match at_line_end read_hh_mm_ss line with
      | Some total => Some total
      | None => at_line_end read_mm_ss line
      end
  end.

Definition lifetime (line : str) : option Z :=
  match total_seconds line with
  | Some total => if total >? 0 then Some total else None
  | None => None
  end.

End EtimeSpec.

(** A total of zero seconds is no lifetime. *)
Definition positive (total : Z) : option Z :=
  if total >? 0 then Some total else None.

(** The strings of the three forms, from their fields. *)
Definition dhms_string (D H M S : str) : str :=
  D ++ "-"%char :: H ++ ":"%char :: M ++ ":"%char :: S.
Definition hms_string (H M S : str) : str :=
  H ++ ":"%char :: M ++ ":"%char :: S.
Definition ms_string (M S : str) : str :=
  M ++ ":"%char :: S.

(** One or two digits; exactly two digits. *)
Definition short (ds : str) : Prop :=
  (length ds = 1 \/ length ds = 2)%nat /\ forallb is_digit ds = true.
Definition wide (ds : str) : Prop :=
  length ds = 2%nat /\ forallb is_digit ds = true.

(** A reading of the end of the line and the match of a pattern agree on
    [s]: both fail, or both succeed and [parseEtime] of [s] is the total
    that was read, if positive. *)
Definition agree (pattern : list Unix.Atom) (read : str -> option Z) (s : str) : Prop :=
  if Unix.full_match pattern s
  then exists total, read s = Some total /\ Unix.parseEtime s = positive total
  else read s = None.

(** The characters a string of one of the three forms is made of. *)
Definition etime_char (c : ascii) : bool := is_digit c || Unix.is_etime_separator c.

(** The four examples of the specification. *)
Definition etime_examples : Prop :=
  Unix.parseEtime (lit "01:02:03") = Some 3723
  /\ Unix.parseEtime (lit "2-03:04:05") = Some 183845
  /\ Unix.parseEtime (lit "05:06") = Some 306
  /\ Unix.parseEtime (lit "00:00") = None.

Definition ps_line_demo : str :=
  lit "  4242 node server.js --started 10:20:30   1-02:03:04".

(** ** Statements about the kill statistics *)

(** The counter stored for [key]: 0 when the object has none. *)
Definition counter (key : str) (stats : KillStats) : Z :=
  default 0 (Stats.own key (killsByType stats)).

(** The counter of the most killed port is an upper bound of every
    per-port counter, and, once positive, it is the counter of the port
    recorded as most killed. *)
Definition most_killed_ok (stats : KillStats) : Prop :=
  (forall key, startsWith (lit "port:") key = true ->
               counter key stats <= mostKilledPortCount stats)
  /\ (mostKilledPortCount stats = 0
      \/ counter (Stats.port_key (mostKilledPort stats)) stats
         = mostKilledPortCount stats).

(** The category of a port is neither the name of a per-port counter
    nor the name of a member of [Object.prototype]. *)
Definition plain_type (portInfo : PortInfo) : Prop :=
  startsWith (lit "port:") (Stats.type_key portInfo) = false
  /\ Stats.inherited (Stats.type_key portInfo) = false.

(** The update [record] makes, for a category that is a plain name. *)
Definition updated (stats : KillStats) (portInfo : PortInfo) (force : bool) (now : Z)
  : KillStats :=
  let tk := Stats.type_key portInfo in
  let pk := Stats.port_key (port portInfo) in
  let byType := Stats.obj_set tk (counter tk stats + 1) (killsByType stats) in
  let portCount := counter pk stats + 1 in
  let more := portCount >? mostKilledPortCount stats in
  mkStats (totalKills stats + 1)
          (Stats.obj_set pk portCount byType)
          (if Stats.no_timestamp (firstKillTimestamp stats) then Some now
           else firstKillTimestamp stats)
          (Some now)
          (if more then port portInfo else mostKilledPort stats)
          (if more then portCount else mostKilledPortCount stats)
          (if force then forceKills stats + 1 else forceKills stats).

Definition kill_of (pt : Z) (category : string) : PortInfo * bool * Z :=
  (mkPortInfo (Some pt) TCP (Some 1) (lit "node") [] None (lit "dev") None
              (Some (lit category)), false, 1700000000000).

(** A stats file as [saveStats] left it after two kills. *)
Definition stats_after_two : KillStats :=
  mkStats 2 [(lit "api", 2); (lit "port:3000", 2)] (Some 1600000000000)
          (Some 1650000000000) (Some 3000) 2 0.

(** ** Statements about the categories *)

(** A preset that takes part in the matching by port number and lists
    the port, or has a range that contains it. *)
Definition covers (preset : TypeDetector.TypePreset) (portNum : num) : bool :=
  negb (str_eqb (TypeDetector.name preset) (lit "other"))
  && (match TypeDetector.ports preset with
      | Some ps => TypeDetector.includes_port ps portNum
      | None => false
      end
      || match TypeDetector.portRanges preset with
         | Some ranges => existsb (TypeDetector.in_range portNum) ranges
         | None => false
         end).

(** ** Statements about the command line *)

(** [l] without the first element equal to [x], if there is one. *)
Fixpoint remove_first (x : str) (l : list str) : list str :=
  match l with
  | [] => []
  | y :: r => if str_eqb y x then r else y :: remove_first x r
  end.

(** A port argument that [handleKillCommand] refuses. *)
Definition refused (portArg : option str) : bool :=
  Cli.missing portArg || Cli.invalid_port (parseInt (default [] portArg)).




Definition fresh_terminal : Cli.Terminal := Cli.mkTerminal [] [] None (mkWorld [] []).

(** ** Statements about the discovery on Unix *)

(** The pids of [pids] that the cache does not answer at time [now]. *)
Definition is_miss (now : Z) (c : CacheManager.t ProcessInfo) (p : num) : bool :=
  match CacheManager.get now p c with
  | Some _ => false
  | None => true
  end.

Definition misses (now : Z) (c : CacheManager.t ProcessInfo) (pids : list num) : list num :=
  List.filter (is_miss now c) pids.

(** The commands a batch resolution runs for the pids it has to look up:
    none, or one [ps] and one [lsof] for all of them. *)
Definition batch_commands (uncachedPids : list num) : list Event :=
  match uncachedPids with
  | [] => []
  | _ :: _ => [Spawn (UnixDiscovery.ps_batch uncachedPids);
               Spawn (UnixDiscovery.lsof_cwd uncachedPids)]
  end.

(** The output of [lsof -p ... -a -d cwd -Fn] for a list of processes,
    each given by the digits of its pid and its working directory: a
    [p] line, the [f] line of the descriptor, and an [n] line. *)
Definition cwd_report (entries : list (str * str)) : str :=
  flat_map (fun e => lit "p" ++ fst e ++ [newline]
                     ++ lit "fcwd" ++ [newline]
                     ++ lit "n" ++ snd e ++ [newline])
           entries.

Definition no_newline (s : str) : Prop := forallb (fun c => negb (Ascii.eqb newline c)) s = true.

(** A host where [lsof] lists two listeners of one process and [ps]
    knows it. *)
Definition lsof_two_listeners : str :=
  lit "COMMAND PID USER FD TYPE DEVICE SIZE/OFF NODE NAME" ++ [newline]
  ++ lit "node 4242 dev 23u IPv4 0x1f 0t0 TCP *:3000 (LISTEN)" ++ [newline]
  ++ lit "node 4242 dev 24u IPv4 0x2a 0t0 TCP 127.0.0.1:9229 (LISTEN)" ++ [newline].

Definition env_unix_host : Env :=
  env_with (fun _ argv =>
              match argv with
              | cmd :: flag :: _ =>
                  if str_eqb cmd (lit "lsof") && str_eqb flag (lit "-i")
                  then Ok (mkProc 0 lsof_two_listeners [])
                  else if str_eqb cmd (lit "ps")
                  then Ok (mkProc 0 (lit "4242 node server.js 01:02") [])
                  else Ok (mkProc 0 (lit "p4242" ++ [newline] ++ lit "fcwd" ++ [newline]
                                     ++ lit "n/srv/app" ++ [newline]) [])
              | _ => Ok (mkProc 1 [] [])
              end)
           (fun _ => Ok []).

Definition fresh_adapter : AdapterState := new_adapter (mkWorld [] []).

(** ** Statements about the discovery on Windows *)

(** A Windows host where [netstat -ano] lists a process listening on
    port 3000. *)
Definition env_windows_host : Env :=
  env_with (fun _ _ => Ok (mkProc 0 netstat_dual_stack [])) (fun _ => Ok []).

(** ** Statements about sorting and filtering *)

(** Nondecreasing order of a numeric key. *)
Definition key_le {A} (key : A -> Z) (a b : A) : Prop := key a <= key b.

(** A port of group [g] passes the filters given on the command line:
    its group or its own category matches the type pattern, its user
    matches the user pattern, its process name or command matches the
    process pattern; an option that is absent or empty filters nothing. *)
Definition passes (env : Env) (o : FilterOptions) (g : PortGroup) (p : PortInfo) : bool :=
  match given (fo_type o) with
  | Some t => minimatch env (g_type g) t || minimatch env (categorize_port env p) t
  | None => true
  end
  && match given (fo_user o) with
     | Some u => minimatch env (user p) u
     | None => true
     end
  && match given (fo_process o) with
     | Some pr => minimatch env (processName p) pr || minimatch env (command p) pr
     | None => true
     end.

(** The ports of group [g] that pass, in their order and as often as
    the group has them. *)
Definition passing (env : Env) (o : FilterOptions) (g : PortGroup) : list PortInfo :=
  List.filter (passes env o g) (g_ports g).

(** [g'] is group [g] reduced to its ports that pass: the same ports as
    often; in the order of the group when there is no sort option, as
    [sortPorts] leaves them otherwise, which for the options [port] and
    [pid] is the nondecreasing order of that number when none is
    [NaN]. *)
Definition reduced (env : Env) (o : FilterOptions) (g g' : PortGroup) : Prop :=
  g_id g' = g_id g /\ g_type g' = g_type g /\ collapsed g' = collapsed g
  /\ g_ports g' <> []
  /\ Permutation (g_ports g') (passing env o g)
  /\ match fo_sort o with
     | None => g_ports g' = passing env o g
     | Some so =>
         g_ports g' = sortPorts env (passing env o g) so
         /\ (so = SortPort -> Forall (fun p => port p <> None) (g_ports g) ->
             StronglySorted (key_le (fun p => or_zero (port p))) (g_ports g'))
         /\ (so = SortPid -> Forall (fun p => pid p <> None) (g_ports g) ->
             StronglySorted (key_le (fun p => or_zero (pid p))) (g_ports g'))
     end.

(** ** Statements about the event loop *)

(** A computation that returns from every state. *)
Definition never_throws {A} (m : M Dash A) : Prop :=
  forall d, exists a d', m d = (Ok a, d').

(** A Hoare triple with an exceptional postcondition: from a state
    satisfying [P], [m] returns [a] in a state satisfying [Q a], or
    throws in a state satisfying [E]. *)
Definition triple {A} (P : Dash -> Prop) (m : M Dash A)
    (Q : A -> Dash -> Prop) (E : Dash -> Prop) : Prop :=
  forall d, P d ->
    match m d with
    | (Ok a, d') => Q a d'
    | (Throw _, d') => E d'
    end.

(** [m] keeps the invariant [I], however it ends. *)
Definition keeps {A} (I : Dash -> Prop) (m : M Dash A) : Prop :=
  triple I m (fun _ => I) I.

(** The selected index is not negative. *)
Definition selection_ok (d : Dash) : Prop := 0 <= selectedIndex (state d).

(** The memo of the flattened list, if there is one, holds the
    flattening of the current groups under the filter it was computed
    for. *)
Definition memo_ok (d : Dash) : Prop :=
  forall c, filteredPortsCache d = Some c ->
            fc_result c = flatten (fc_filter c) (groups (state d)).

Definition sound (d : Dash) : Prop := selection_ok d /\ memo_ok d.


Definition exclusive (d : Dash) : Prop := at_most_one_open (state d).




(** What a render may do to the memo: the groups stay, and a sound memo
    stays sound. *)
Definition memo_kept (d d' : Dash) : Prop :=
  groups (state d') = groups (state d) /\ (memo_ok d -> memo_ok d').



(** ** Statements about the search *)

(** The search is on and no modal is open. *)
Definition only_searching (d : Dash) : Prop :=
  exited d = false
  /\ flags (state d) = [false; false; false; false; false; true].

(** Nothing is open. *)
Definition nothing_open (d : Dash) : Prop :=
  exited d = false
  /\ flags (state d) = [false; false; false; false; false; false].

(** The demo dashboard after [/] and [8]: a search for port 8. *)
Definition demo_searching : Dash :=
  Keyboard.run env_demo OtherPlatform
    [Keyboard.Data (lit "/"); Keyboard.Data (lit "8")] demo_dashboard.

(** ** Statements about the clipboard and the forced kill *)

(** The commands spawned between two worlds. *)
Definition spawned_since (w w' : World) (cmds : list (list str)) : Prop :=
  trace w' = trace w ++ List.map Spawn cmds /\ errors w' = errors w.

(** A forced kill: one command, whose exit code decides the result. *)
Definition forced_once (env : Env) (cmd : list str) (a : AdapterState)
    (out : Outcome bool * AdapterState) : Prop :=
  trace (world (snd out)) = trace (world a) ++ [Spawn cmd]
  /\ fst out = Ok match spawn_result env (trace (world a)) cmd with
                  | Ok proc => exitCode proc =? 0
                  | Throw _ => false
                  end.

(** * Properties *)

(** ** Cache invalidation by [killProcess] *)

Lemma cache_get_delete {V} now k (c : CacheManager.t V) :
  CacheManager.get now k (CacheManager.delete k c) = None.
Proof.
  unfold CacheManager.get, CacheManager.delete; simpl.
  now rewrite lookup_delete_eq.
Qed.

(** Unfolds the monadic plumbing of an adapter method. *)
Ltac run_adapter :=
  unfold Unix.killProcess, Unix.killProcess_try, Unix.finish,
         Windows.killProcess, Windows.killProcess_try, Windows.finish,
         try_catch, when, skip, invalidateProcessCache, logger_error, sleep,
         modify, spawnProcess, mbind, M_bind, mret, M_ret;
  simpl.

(** Case analysis on the answer of the environment to the next command. *)
Ltac next_spawn r :=
  match goal with
  | |- context [spawn_result ?e ?t ?c] =>
      let E := fresh "Hspawn" in
      destruct (spawn_result e t c) as [r|] eqn:E; simpl
  end.

Ltac next_exit r :=
  let E := fresh "Hexit" in
  destruct (exitCode r =? 0) eqn:E; simpl.

Lemma unix_kill_refused_keeps_entry :
  fst (Unix.killProcess env_refusing (Some 4242) true adapter_caching_4242) = Ok false
  /\ CacheManager.get 5 (Some 4242)
       (processInfoCache
          (snd (Unix.killProcess env_refusing (Some 4242) true adapter_caching_4242)))
     = Some info_node.
Proof. split; vm_compute; reflexivity. Qed.

(** The entry is not deleted on every outcome: a forced kill whose command exits
    with status 1 returns [false] and the cached entry of the pid is still
    served afterwards. *)
Lemma killProcess_keeps_entry_on_failure :
  ~ invalidates_on_every_outcome Unix.killProcess
  /\ ~ invalidates_on_every_outcome Windows.killProcess.
Proof.
  split; intros H;
    specialize (H env_refusing (Some 4242) true adapter_caching_4242 5);
    vm_compute in H; discriminate H.
Qed.

Lemma unix_cache_rule env p force a :
  cache_rule p a (Unix.killProcess_try env p force) (Unix.killProcess env p force).
Proof.
  unfold cache_rule. run_adapter.
  destruct force; simpl.
  - next_spawn r; [next_exit r; [| destruct (truthy (stderr r)); simpl] |];
      split; auto; intros; apply cache_get_delete.
  - next_spawn r.
    2:{ split; auto. intros; apply cache_get_delete. }
    next_exit r.
    2:{ destruct (truthy (stderr r)); simpl; split; auto. }
    next_spawn r2.
    2:{ split; auto. intros; apply cache_get_delete. }
    next_exit r2.
    2:{ split; auto. intros; apply cache_get_delete. }
    next_spawn r3.
    2:{ split; auto. intros; apply cache_get_delete. }
    next_exit r3; [| destruct (truthy (stderr r3)); simpl ]; split; auto;
      intros; apply cache_get_delete.
Qed.

Lemma windows_cache_rule env p force a :
  cache_rule p a (Windows.killProcess_try env p force) (Windows.killProcess env p force).
Proof.
  unfold cache_rule. run_adapter.
  destruct force; simpl.
  - next_spawn r; [next_exit r; [| destruct (truthy (stderr r)); simpl] |];
      split; auto; intros; apply cache_get_delete.
  - next_spawn r.
    2:{ split; auto. intros; apply cache_get_delete. }
    next_exit r.
    2:{ destruct (truthy (stderr r)); simpl; split; auto. }
    next_spawn r2.
    2:{ split; auto. intros; apply cache_get_delete. }
    destruct ((exitCode r2 =? 0) && truthy (trim (stdout r2))); simpl.
    2:{ split; auto. intros; apply cache_get_delete. }
    next_spawn r3.
    2:{ split; auto. intros; apply cache_get_delete. }
    next_exit r3; [| destruct (truthy (stderr r3)); simpl ]; split; auto;
      intros; apply cache_get_delete.
Qed.

(** C1 (amended): on both adapters, when the [try] block of [killProcess]
    ends with [true], or throws and the error is caught, the cache entry of
    the pid is deleted and every later lookup of it is a miss; when it ends
    with [false], [killProcess] returns [false] and the cache is unchanged. *)
Theorem killProcess_cache_invalidation env p force a :
  cache_rule p a (Unix.killProcess_try env p force) (Unix.killProcess env p force)
  /\ cache_rule p a (Windows.killProcess_try env p force)
                    (Windows.killProcess env p force).
Proof. split; [apply unix_cache_rule | apply windows_cache_rule]. Qed.

(** ** Sequencing of a non-forced kill *)

Lemma app_cons_snoc {A} (l : list A) x y : (l ++ [x]) ++ y = l ++ x :: y.
Proof. now rewrite <- app_assoc. Qed.






(** ** Port actions *)

(** C10: [killPort] with its defaults [force = false], [confirm = true]
    returns [false] and leaves the world as it was: no adapter is built,
    no command is spawned, nothing is logged. *)
Theorem killPort_defaults_only_ask env platform portInfo w :
  PortActions.killPort env platform portInfo false true w = (Ok false, w).
Proof. reflexivity. Qed.

(** Case analysis on every command result and every test on the way. *)
Ltac crunch :=
  repeat (simpl;
          match goal with
          | |- context [spawn_result ?e ?t ?c] =>
              destruct (spawn_result e t c) eqn:?
          | |- context [if ?c then _ else _] => destruct c eqn:?
          end).

(** A kill attempt never throws, and the first thing it does is to spawn
    the first command of the platform. *)
Lemma adapter_killProcess_attempt env platform p force a :
  exists b a' evs,
    adapter_killProcess (getPlatformAdapter env platform) p force a = (Ok b, a')
    /\ trace (world a') = trace (world a) ++ Spawn (first_command platform p force) :: evs.
Proof.
  destruct platform, force; simpl; run_adapter; crunch;
    rewrite ?app_cons_snoc;
    do 3 eexists; (split; [reflexivity | simpl; rewrite ?app_cons_snoc; reflexivity]).
Qed.

Lemma utils_killProcess_attempt env platform p force w :
  exists b w' evs,
    ProcessUtils.killProcess env platform p force w = (Ok b, w')
    /\ trace w' = trace w ++ Spawn (first_command platform p force) :: evs.
Proof.
  destruct (adapter_killProcess_attempt env platform p force (new_adapter w))
    as (b & a' & evs & Hk & Ht).
  exists b, (world a'), evs.
  unfold ProcessUtils.killProcess, try_catch, on_new_adapter.
  rewrite Hk. split; [reflexivity | exact Ht].
Qed.

Lemma kill_each_spec env platform force ports :
  forall kA fA w,
    let results := attempt_results env platform force ports w in
    exists w' evs,
      PortActions.kill_each env platform force ports kA fA w
      = (Ok (kA ++ select true ports results, fA ++ select false ports results), w')
      /\ trace w' = trace w ++ evs
      /\ length results = length ports
      /\ forall q, In q ports -> In (Spawn (first_command platform (pid q) force)) evs.
Proof.
  induction ports as [|q rest IH]; intros kA fA w; simpl.
  - exists w, []. rewrite !app_nil_r. repeat split; auto; contradiction.
  - destruct (utils_killProcess_attempt env platform (pid q) force w)
      as (b & w1 & evs1 & Hk & Ht).
    unfold mbind, M_bind. rewrite Hk.
    destruct b; simpl.
    + destruct (IH (kA ++ [q]) fA w1) as (w' & evs & Hr & Ht' & Hl & Hin).
      exists w', (Spawn (first_command platform (pid q) force) :: evs1 ++ evs).
      rewrite Hr, <- !app_assoc. simpl.
      repeat split; auto.
      * rewrite Ht', Ht, <- app_assoc. reflexivity.
      * intros q' [->|Hq]; [now left |].
        right. apply in_or_app. right. now apply Hin.
    + destruct (IH kA (fA ++ [q]) w1) as (w' & evs & Hr & Ht' & Hl & Hin).
      exists w', (Spawn (first_command platform (pid q) force) :: evs1 ++ evs).
      rewrite Hr, <- !app_assoc. simpl.
      repeat split; auto.
      * rewrite Ht', Ht, <- app_assoc. reflexivity.
      * intros q' [->|Hq]; [now left |].
        right. apply in_or_app. right. now apply Hin.
Qed.

Lemma length_zero_nil {A} (l : list A) : (length l =? 0)%nat = true <-> l = [].
Proof. destruct l; simpl; split; intros H; congruence. Qed.

Lemma partial_message_is_distinct p : partial_message_distinct p.
Proof.
  intros k f k' e.
  unfold PortActions.msg_partial, PortActions.msg_not_found,
    PortActions.msg_all_failed, PortActions.msg_all_killed, PortActions.msg_error.
  repeat split; simpl; intros H; discriminate H.
Qed.

Lemma processes_on_matching p ports :
  PortActions.matchingPorts p ports = processes_on p ports.
Proof.
  unfold PortActions.matchingPorts.
  induction ports as [| q rest IH]; [reflexivity |].
  cbn [List.filter processes_on]. rewrite IH. unfold strict_eq.
  destruct (port q) as [m |], p as [n |]; try reflexivity.
  destruct (Z.eq_dec m n) as [-> | Hne].
  - now rewrite Z.eqb_refl.
  - apply Z.eqb_neq in Hne. now rewrite Hne.
Qed.

Lemma processes_on_In p ports q :
  In q (processes_on p ports) <-> In q ports /\ bound_to p q.
Proof.
  unfold bound_to.
  induction ports as [| r rest IH]; cbn [processes_on In].
  - tauto.
  - destruct p as [n |].
    + destruct (port r) as [m |] eqn:Hr.
      * destruct (Z.eq_dec m n) as [-> | Hne]; cbn [In]; rewrite IH.
        -- split.
           ++ intros [<- | [Hin Hb]]; [split; [now left | eauto] | tauto].
           ++ intros [[<- | Hin] Hb]; [now left | tauto].
        -- split; [tauto |].
           intros [[<- | Hin] Hb]; [| tauto].
           destruct Hb as (k & [= <-] & Hk). congruence.
      * rewrite IH. split; [tauto |].
        intros [[<- | Hin] Hb]; [| tauto].
        destruct Hb as (k & _ & Hk). congruence.
    + rewrite IH. split; [tauto |].
      intros [_ (k & Hk & _)]. discriminate.
Qed.

Lemma select_In b ports results q : In q (select b ports results) -> In q ports.
Proof.
  revert results. induction ports as [| r rest IH]; intros [| x results]; cbn; try tauto.
  destruct (Bool.eqb x b); cbn; intros H; [destruct H as [-> | H]; eauto | eauto].
Qed.

(** The loop of [killPortByNumber] makes the attempts one after the
    other and nothing else. *)
Lemma kill_each_world env platform force ports :
  forall kA fA w,
    snd (PortActions.kill_each env platform force ports kA fA w)
    = after_attempts env platform force ports w.
Proof.
  induction ports as [| q rest IH]; intros kA fA w; [reflexivity |].
  cbn [PortActions.kill_each after_attempts].
  destruct (utils_killProcess_attempt env platform (pid q) force w)
    as (b & w1 & evs1 & Hk & _).
  unfold mbind, M_bind. rewrite Hk. cbn [snd].
  destruct b; apply IH.
Qed.

(** C6: [killPortByNumber] never throws.  When the detector answers, the
    kill attempts are exactly those on the entries whose port number is
    the given one, one after the other: every process on the port gets an
    attempt, a process on another port gets none, and only processes on
    the port are reported as killed.  No process on the port gives
    [success = false], an empty [killed] list and no attempt at all; no
    successful attempt gives [success = false] and an empty [killed]
    list; a mix of successes and failures gives [success = true], the
    list of the processes killed and a message that counts both and is
    none of the other messages. *)
Theorem killPortByNumber_reports env platform p force w :
  exists rep w',
    PortActions.killPortByNumber env platform p force w = (Ok rep, w')
    /\ (forall ports, detect_result env (trace w) = Ok ports ->
          kill_report_rule env platform p force w ports rep w')
    /\ partial_message_distinct p.
Proof.
  unfold PortActions.killPortByNumber, try_catch, PortActions.detectPorts.
  unfold mbind at 1, M_bind at 1.
  destruct (detect_result env (trace w)) as [ports|e] eqn:Hd.
  2:{ do 2 eexists. split; [reflexivity|]. split; [discriminate|].
      apply partial_message_is_distinct. }
  fold (after_detect w).
  rewrite processes_on_matching.
  set (bound := processes_on p ports).
  assert (Hnone : (forall q, In q ports -> ~ bound_to p q) -> bound = []).
  { intros Hno. destruct bound as [| q rest] eqn:Hb; [reflexivity |].
    assert (Hq : In q (processes_on p ports)) by (fold bound; rewrite Hb; now left).
    apply processes_on_In in Hq. destruct Hq as [Hin Hq]. now destruct (Hno q Hin). }
  assert (Hsome : (exists q, In q ports /\ bound_to p q) -> bound <> []).
  { intros (q & Hq). apply processes_on_In in Hq. fold bound in Hq.
    intros E. rewrite E in Hq. exact Hq. }
  destruct (length bound =? 0)%nat eqn:Hlen.
  - apply length_zero_nil in Hlen.
    do 2 eexists. split; [reflexivity|]. split; [| apply partial_message_is_distinct].
    intros ports' Hp. injection Hp as <-.
    unfold kill_report_rule. fold bound. rewrite Hlen.
    cbn [attempt_results select after_attempts length PortActions.success
         PortActions.killed PortActions.message].
    split; [reflexivity |]. split; [reflexivity |].
    split.
    { exists []. split; [reflexivity |].
      intros q Hin Hq.
      assert (Hb : In q (processes_on p ports)) by (apply processes_on_In; auto).
      fold bound in Hb. rewrite Hlen in Hb. exact Hb. }
    split; [intros q [] |].
    split; [auto |].
    split; [intros Hq; now destruct (Hsome Hq) |].
    split; intros Hk; now destruct Hk.
  - destruct (kill_each_spec env platform force bound [] [] (after_detect w))
      as (w' & evs & Hr & Ht & Hl & Hin).
    pose proof (kill_each_world env platform force bound [] [] (after_detect w)) as Hw.
    rewrite Hr in Hw. cbn [snd] in Hw.
    unfold mbind, M_bind. rewrite Hr. simpl in *.
    set (results := attempt_results env platform force bound (after_detect w)) in *.
    set (killedL := select true bound results).
    set (failedL := select false bound results).
    assert (Hm : bound <> []).
    { intros E. rewrite E in Hlen. discriminate. }
    assert (Hrule : forall rep,
      PortActions.killed rep = [] \/ PortActions.killed rep = killedL ->
      (killedL = [] -> rep = PortActions.mkReport false [] (PortActions.msg_all_failed p)) ->
      (killedL <> [] -> failedL <> [] ->
         rep = PortActions.mkReport true killedL (PortActions.msg_partial p killedL failedL)) ->
      (killedL <> [] -> failedL = [] ->
         rep = PortActions.mkReport true killedL (PortActions.msg_all_killed p killedL)) ->
      forall ports', Ok ports = Ok ports' ->
        kill_report_rule env platform p force w ports' rep w').
    { intros rep Hk0 H1 H2 H3 ports' Hp. injection Hp as <-.
      unfold kill_report_rule. fold bound results killedL failedL.
      split; [exact Hl |]. split; [exact Hw |].
      split.
      { exists evs. split; [rewrite Ht, <- app_assoc; reflexivity |].
        intros q Hq Hb. apply Hin. apply processes_on_In. auto. }
      split.
      { intros q Hq. apply processes_on_In. fold bound.
        destruct Hk0 as [E | E]; rewrite E in Hq; [contradiction |].
        eapply select_In, Hq. }
      split.
      { intros Hno. now destruct Hm; apply Hnone. }
      split.
      { intros _ Hk. rewrite (H1 Hk). auto. }
      split.
      { intros Hk Hf. rewrite (H2 Hk Hf). auto. }
      intros Hk Hf. rewrite (H3 Hk Hf). auto. }
    destruct (length killedL =? 0)%nat eqn:Hk.
    + apply length_zero_nil in Hk.
      do 2 eexists. split; [reflexivity|]. split; [| apply partial_message_is_distinct].
      apply Hrule; auto; congruence.
    + assert (Hkne : killedL <> []).
      { intros E. rewrite E in Hk. discriminate. }
      destruct (0 <? length failedL)%nat eqn:Hf.
      * assert (Hfne : failedL <> []).
        { intros E. rewrite E in Hf. discriminate. }
        do 2 eexists. split; [reflexivity|]. split; [| apply partial_message_is_distinct].
        apply Hrule; auto; congruence.
      * assert (Hfe : failedL = []).
        { destruct failedL; [reflexivity | discriminate]. }
        do 2 eexists. split; [reflexivity|]. split; [| apply partial_message_is_distinct].
        apply Hrule; auto; congruence.
Qed.

Lemma killPortByNumber_reports_witness :
  let run := PortActions.killPortByNumber env_three_listeners OtherPlatform (Some 80) false
               (mkWorld [] []) in
  fst run = Ok (PortActions.mkReport true [port80 7]
                  (lit "Killed 1 process(es) on port 80, but 1 failed"))
  /\ trace (snd run)
     = [Call (lit "detectPorts");
        Spawn (Unix.kill_term (Some 7)); Sleep 1000; Spawn (Unix.ps_check (Some 7));
        Spawn (Unix.kill_9 (Some 7));
        Spawn (Unix.kill_term (Some 8))]
  /\ exists rep w',
       run = (Ok rep, w')
       /\ kill_report_rule env_three_listeners OtherPlatform (Some 80) false (mkWorld [] [])
            [port80 7; port3000 9; port80 8] rep w'.
Proof.
  split; [vm_compute; reflexivity |]. split; [vm_compute; reflexivity |].
  destruct (killPortByNumber_reports env_three_listeners OtherPlatform (Some 80) false
              (mkWorld [] [])) as (rep & w' & Hrun & Hrule & _).
  exists rep, w'. split; [exact Hrun |].
  apply Hrule. reflexivity.
Defined.

(** ** The dashboard *)

Lemma str_eqb_refl s : str_eqb s s = true.
Proof.
  induction s as [|c s IH]; simpl; [reflexivity|].
  now rewrite Ascii.eqb_refl, IH.
Qed.

Lemma str_eqb_eq a b : str_eqb a b = true <-> a = b.
Proof.
  split; [| intros ->; apply str_eqb_refl].
  revert b; induction a as [|x a IH]; intros [|y b]; simpl; try congruence.
  intros H. apply andb_true_iff in H as [H1 H2].
  apply Ascii.eqb_eq in H1. apply IH in H2. congruence.
Qed.

Lemma sortkey_eqb_refl k : sortkey_eqb k k = true.
Proof. now destruct k. Qed.

Lemma sortkey_eqb_eq a b : sortkey_eqb a b = true <-> a = b.
Proof. destruct a, b; simpl; split; congruence. Qed.

Lemma getFilteredPorts_rows d :
  exists d', getFilteredPorts d = (Ok (current_rows d), d')
             /\ d' = set_filteredPortsCache (filteredPortsCache d') d
             /\ cache_valid d' (current_rows d).
Proof.
  unfold current_rows, getFilteredPorts.
  destruct (filteredPortsCache d) as [c|] eqn:Hc.
  - destruct (str_eqb (fc_filter c) (filter (state d))
              && str_eqb (fc_groupsHash c) (groupsHash (groups (state d)))
              && sortkey_eqb (fc_sortBy c) (sortBy (state d))) eqn:Hhit; simpl.
    + exists d. repeat split.
      * destruct d; simpl in *. now rewrite Hc.
      * apply andb_true_iff in Hhit as [Hhit H3].
        apply andb_true_iff in Hhit as [H1 H2].
        exists c. auto.
    + eexists. repeat split.
      eexists. simpl. repeat split; auto using str_eqb_refl, sortkey_eqb_refl.
  - simpl. eexists. repeat split.
    eexists. simpl. repeat split; auto using str_eqb_refl, sortkey_eqb_refl.
Qed.

Lemma getFilteredPorts_hit d rows :
  cache_valid d rows -> getFilteredPorts d = (Ok rows, d).
Proof.
  intros (c & Hc & Hr & H1 & H2 & H3).
  unfold getFilteredPorts. rewrite Hc, H1, H2, H3. simpl. now rewrite Hr.
Qed.

Lemma current_rows_hit d rows : cache_valid d rows -> current_rows d = rows.
Proof.
  intros H. unfold current_rows. now rewrite (getFilteredPorts_hit d rows H).
Qed.

(** *** Selection *)

(** C9: with N >= 1 rows in the filtered, flattened list,
    [moveSelection(-1)] at index 0 selects N - 1 and [moveSelection(+1)]
    at index N - 1 selects 0; with N = 0 the selection stays as it is. *)
Theorem moveSelection_wraps (d : Dash) :
  let N := of_length (current_rows d) in
  (1 <= N -> selectedIndex (state d) = 0 ->
     selectedIndex (state (snd (moveSelection (-1) d))) = N - 1)
  /\ (1 <= N -> selectedIndex (state d) = N - 1 ->
        selectedIndex (state (snd (moveSelection 1 d))) = 0)
  /\ (N = 0 -> forall direction,
        selectedIndex (state (snd (moveSelection direction d)))
        = selectedIndex (state d)).
Proof.
  intros N.
  destruct (getFilteredPorts_rows d) as (d' & Hg & Hd' & _).
  assert (Hst : state d' = state d) by (rewrite Hd'; reflexivity).
  unfold moveSelection, mbind, M_bind. rewrite Hg.
  subst N.
  destruct (current_rows d) as [|r rows].
  - repeat split; try (unfold of_length; simpl; lia).
    intros _ direction. simpl. now rewrite Hst.
  - set (L := of_length (r :: rows)).
    assert (HL : 1 <= L) by (unfold L, of_length; simpl; lia).
    clearbody L.
    repeat split; try lia.
    + intros _ H0. cbn. rewrite Hst, H0. cbn. reflexivity.
    + intros _ Hlast. cbn -[Z.ltb Z.geb]. rewrite Hst, Hlast.
      destruct (L - 1 + 1 <? 0) eqn:E1; [apply Z.ltb_lt in E1; lia|].
      destruct (L - 1 + 1 >=? L) eqn:E2;
        [reflexivity | rewrite Z.geb_leb in E2; apply Z.leb_gt in E2; lia].
Qed.

(** *** What a render may change *)

Section Within.
Variable R : Dash -> Dash -> Prop.
Hypothesis R_refl : forall d, R d d.
Hypothesis R_trans : forall a b c, R a b -> R b c -> R a c.

Lemma within_ret {A} (a : A) : within R (mret a).
  Proof. intros d. exists a, d. split; [reflexivity | apply R_refl]. Qed.

Lemma within_skip : within R skip.
  Proof. apply within_ret. Qed.

Lemma within_bind {A B} (m : M Dash A) (k : A -> M Dash B) :
    within R m -> (forall a, within R (k a)) -> within R (m ≫= k).
  Proof.
    intros Hm Hk d.
    destruct (Hm d) as (a & d1 & E1 & R1).
    destruct (Hk a d1) as (b & d2 & E2 & R2).
    exists b, d2. unfold mbind, M_bind. rewrite E1, E2.
    split; [reflexivity | eapply R_trans; eauto].
  Qed.

Lemma within_modify (g : Dash -> Dash) :
    (forall d, R d (g d)) -> within R (modify g).
  Proof. intros Hg d. exists tt, (g d). split; [reflexivity | apply Hg]. Qed.

Lemma within_get : within R get_state.
  Proof. intros d. exists d, d. split; [reflexivity | apply R_refl]. Qed.

Lemma within_when (c : bool) (m : M Dash unit) :
    within R m -> within R (when c m).
  Proof. intros Hm. destruct c; [exact Hm | apply within_skip]. Qed.
End Within.

Lemma only_paint_refl d : only_paint d d.
Proof.
  unfold only_paint. repeat split; auto.
  exists (killMessage (state d)), (killMessageExpiresAt (state d)).
  now destruct (state d).
Qed.

Lemma only_paint_trans a b c : only_paint a b -> only_paint b c -> only_paint a c.
Proof.
  unfold only_paint.
  intros ((km1 & ke1 & S1) & ? & ? & ? & ? & ? & ?)
         ((km2 & ke2 & S2) & ? & ? & ? & ? & ? & ?).
  repeat split; try congruence.
  exists km2, ke2. rewrite S2, S1. reflexivity.
Qed.

(** Closes a goal [only_paint d (f d)] for an update [f] of the fields
    that painting may change. *)
Ltac paint_goal :=
  match goal with
  | |- only_paint ?d _ =>
      unfold only_paint; simpl; repeat split; auto;
      try (exists (killMessage (state d)), (killMessageExpiresAt (state d));
           now destruct (state d))
  end.

Ltac paint_fields := intros; paint_goal.

Lemma ok_bind {A B} (m : M Dash A) (k : A -> M Dash B) :
  within only_paint m -> (forall a, within only_paint (k a)) ->
  within only_paint (m ≫= k).
Proof. apply within_bind, only_paint_trans. Qed.

Lemma ok_ret {A} (a : A) : within only_paint (mret a).
Proof. apply within_ret, only_paint_refl. Qed.

Lemma ok_skip : within only_paint skip.
Proof. apply within_skip, only_paint_refl. Qed.

Lemma ok_when (c : bool) (m : M Dash unit) :
  within only_paint m -> within only_paint (when c m).
Proof. apply within_when, only_paint_refl. Qed.

Lemma ok_get : within only_paint get_state.
Proof. apply within_get, only_paint_refl. Qed.

Section RenderFootprint.
Variable env : Env.

Lemma paint_getFilteredPorts : within only_paint getFilteredPorts.
  Proof.
    intros d. destruct (getFilteredPorts_rows d) as (d' & Hg & Hd' & _).
    exists (current_rows d), d'. split; [exact Hg|].
    rewrite Hd'. paint_goal.
  Qed.

Lemma paint_draw op : within only_paint (draw op).
  Proof. apply within_modify. paint_fields. Qed.

Lemma paint_clear : within only_paint renderer_clear.
  Proof. apply within_modify. paint_fields. Qed.

Lemma paint_flush : within only_paint renderer_render.
  Proof.
    apply within_modify. intros d.
    destruct (buffer d); [apply only_paint_refl|]. paint_goal.
  Qed.

Lemma paint_now : within only_paint (now env).
  Proof.
    intros d. do 2 eexists. split; [reflexivity|]. paint_goal.
  Qed.

Lemma paint_getSelectedPort : within only_paint getSelectedPort.
  Proof.
    apply ok_bind; [apply paint_getFilteredPorts|]. intros rows.
    destruct (length rows =? 0)%nat; [apply ok_ret|].
    apply ok_bind; [apply ok_get|]. intros. apply ok_ret.
  Qed.

Lemma paint_renderHeader : within only_paint renderHeader.
  Proof.
    apply ok_bind; [apply paint_getFilteredPorts|]. intros. apply paint_draw.
  Qed.

Lemma paint_renderKillMessage : within only_paint renderKillMessage.
  Proof.
    apply ok_bind; [apply ok_get|]. intros d.
    match goal with
    | |- within _ (if ?c then _ else _) => destruct c
    end; [apply paint_draw | apply ok_skip].
  Qed.

Lemma paint_render_rows rows : forall i maxHeight,
    within only_paint (render_rows rows i maxHeight).
  Proof.
    induction rows as [|r rows IH]; intros i maxHeight; simpl; [apply ok_skip|].
    destruct (i + 2 <? maxHeight); [| apply ok_skip].
    apply ok_bind; [apply paint_draw | intros; apply IH].
  Qed.

Lemma paint_renderMain : within only_paint renderMain.
  Proof.
    apply ok_bind; [apply ok_get|]. intros d.
    apply ok_bind; [apply paint_getFilteredPorts|]. intros rows.
    apply ok_bind; [apply paint_renderHeader|]. intros _.
    apply ok_bind; [apply paint_render_rows|]. intros _.
    apply ok_bind; [apply paint_getSelectedPort|]. intros sel.
    apply ok_bind.
    { destruct sel; [apply ok_when, paint_draw | apply ok_skip]. }
    intros _.
    apply ok_bind; [apply paint_draw|]. intros _.
    apply ok_when, paint_renderKillMessage.
  Qed.

Lemma paint_fullRender : within only_paint fullRender.
  Proof.
    unfold fullRender.
    apply ok_bind; [apply paint_clear|]. intros _.
    apply ok_bind; [apply paint_draw|]. intros _.
    apply ok_bind; [apply paint_renderMain|]. intros _.
    apply paint_flush.
  Qed.

Lemma paint_render_changed lineNums current maxHeight :
    within only_paint (render_changed lineNums current maxHeight).
  Proof.
    induction lineNums as [|n rest IH]; simpl; [apply ok_skip|].
    apply ok_bind; [| intros; apply IH].
    repeat match goal with
           | |- within _ (if ?c then _ else _) => destruct c
           | |- within _ (match ?o with Some _ => _ | None => _ end) => destruct o
           end; apply paint_draw || apply ok_skip.
  Qed.

Lemma paint_renderDelta previous current :
    within only_paint (renderDelta previous current).
  Proof.
    apply ok_bind; [apply ok_get|]. intros d. cbv zeta.
    match goal with
    | |- within _ (if ?c then _ else _) => destruct c
    end; [apply paint_fullRender|].
    apply ok_bind; [apply paint_draw|]. intros _.
    apply ok_bind; [apply paint_renderHeader|]. intros _.
    apply ok_bind; [apply paint_render_changed|]. intros _.
    apply ok_bind.
    { destruct (showDetails (state d)); [| apply ok_skip].
      apply ok_bind; [apply paint_getSelectedPort|]. intros sel.
      destruct sel; [apply paint_draw | apply ok_skip]. }
    intros _.
    apply ok_bind; [apply ok_when, paint_renderKillMessage|]. intros _.
    apply paint_flush.
  Qed.

  (** [render] never throws and changes nothing but what painting may
      change. *)
Lemma paint_render : within only_paint (render env).
  Proof.
    apply ok_bind; [apply ok_get|]. intros d.
    destruct (modal_of (state d)).
    - apply ok_bind; [apply paint_clear|]. intros _.
      apply ok_bind; [apply paint_draw|]. intros _.
      apply ok_bind; [apply paint_draw|]. intros _.
      apply ok_bind; [apply paint_flush|]. intros _.
      apply within_modify. paint_fields.
    - apply ok_bind; [apply paint_getFilteredPorts|]. intros rows. cbv zeta.
      apply ok_bind.
      { unfold clear_expired_message.
        destruct (killMessage (state d)); [| apply ok_skip].
        destruct (killMessageExpiresAt (state d)); [| apply ok_skip].
        match goal with
        | |- within _ (if ?c then _ else _) => destruct c
        end; [| apply ok_skip].
        apply ok_bind; [apply paint_now|]. intros t.
        apply ok_when. apply within_modify.
        intros d0. unfold only_paint; simpl. repeat split; auto.
        exists None, None. now destruct (state d0). }
      intros _.
      apply ok_bind; [apply ok_get|]. intros d1. cbv zeta.
      apply ok_bind.
      { destruct (previousRenderState d1); [| apply paint_fullRender].
        match goal with
        | |- within _ (if ?c then _ else _) => destruct c
        end; [apply paint_renderDelta | apply paint_fullRender]. }
      intros _. apply within_modify. paint_fields.
  Qed.
End RenderFootprint.

(** *** The kill action *)

Lemma try_finally_state {A} (body : M Dash A) (fin : M Dash unit) d :
  snd (try_finally body fin d) = snd (fin (snd (body d))).
Proof.
  unfold try_finally. destruct (body d) as [r d1]. simpl.
  now destruct (fin d1) as [[|] d2].
Qed.

Lemma only_paint_killing d d' :
  only_paint d d' ->
  isKilling (state d') = isKilling (state d)
  /\ killingPort (state d') = killingPort (state d).
Proof. intros ((km & ke & ->) & _). now destruct (state d). Qed.

Lemma handleKill_finally_clears env d :
  let d' := snd (DashboardHandlers.handleKill_finally (getHandlers env) d) in
  isKilling (state d') = false /\ killingPort (state d') = None.
Proof.
  unfold DashboardHandlers.handleKill_finally, mbind, M_bind, setState, modify.
  cbn [h_render getHandlers].
  match goal with
  | |- context [render env ?x] =>
      destruct (paint_render env x) as (a & d1 & E & P); rewrite E
  end.
  apply only_paint_killing in P. simpl in *. exact P.
Qed.

Lemma handleKill_ends_in_finally env platform d sel :
  fst (getSelectedPort d) = Ok (Some sel) ->
  exists d2,
    snd (DashboardHandlers.handleKill env platform (getHandlers env) d)
    = snd (DashboardHandlers.handleKill_finally (getHandlers env) d2).
Proof.
  intros Hsel.
  unfold DashboardHandlers.handleKill. cbn [h_getSelectedPort h_render getHandlers].
  unfold mbind at 1, M_bind at 1.
  destruct (getSelectedPort d) as [r d0]. simpl in Hsel. subst r.
  unfold mbind at 1, M_bind at 1, setState at 1, modify at 1.
  unfold mbind at 1, M_bind at 1.
  match goal with
  | |- context [render env ?x] =>
      destruct (paint_render env x) as (a & d1 & E & _); rewrite E
  end.
  rewrite try_finally_state. eexists. reflexivity.
Qed.

(** C8: whenever a port is selected, whatever the kill, the statistics, the
    cache clearing or the refresh do or throw, [handleKill] ends with
    [isKilling = false] and [killingPort = null]. *)
Theorem handleKill_clears_killing env platform d sel :
  fst (getSelectedPort d) = Ok (Some sel) ->
  let d' := snd (DashboardHandlers.handleKill env platform (getHandlers env) d) in
  isKilling (state d') = false /\ killingPort (state d') = None.
Proof.
  intros Hsel d'.
  destruct (handleKill_ends_in_finally env platform d sel Hsel) as (d2 & E).
  subst d'. rewrite E. apply handleKill_finally_clears.
Qed.

Lemma handleKill_clears_killing_witness :
  let d' := snd (DashboardHandlers.handleKill env_detector_down OtherPlatform
                   (getHandlers env_detector_down) demo_dashboard) in
  isKilling (state d') = false /\ killingPort (state d') = None.
Proof.
  apply (handleKill_clears_killing env_detector_down OtherPlatform demo_dashboard
           (mkFlat (demo_port 3000 411)
                   (mkGroup (lit "dev-server") (lit "dev-server") demo_ports false))).
  vm_compute. reflexivity.
Defined.

(** *** Selection, on a running dashboard *)

Lemma moveSelection_wraps_witness :
  selectedIndex (state (snd (moveSelection (-1) demo_dashboard))) = 2
  /\ selectedIndex
       (state (snd (moveSelection 1 (snd (moveSelection (-1) demo_dashboard))))) = 0.
Proof.
  split.
  - apply (proj1 (moveSelection_wraps demo_dashboard)); vm_compute; congruence.
  - apply (proj1 (proj2 (moveSelection_wraps (snd (moveSelection (-1) demo_dashboard)))));
      vm_compute; congruence.
Defined.

(** *** Modal flags *)

(** C2 fails on the help key: its handler has no [isModalOpen] guard, so
    [?] typed in search mode opens the help modal while the search flag
    stays set; two of the six flags are then true. *)
Theorem help_key_opens_over_search :
  let d := Keyboard.run env_demo OtherPlatform
             [Keyboard.Data (lit "/"); Keyboard.Data (lit "?")] demo_dashboard in
  at_most_one_open (state demo_dashboard)
  /\ searching (state d) = true
  /\ showHelp (state d) = true
  /\ ~ at_most_one_open (state d).
Proof.
  vm_compute. repeat split; auto. intros H.
  repeat match goal with H : le _ _ |- _ => inversion H; clear H; subst end.
Qed.

(** *** Delta and full repaint *)

Lemma cache_valid_set_buffer b d rows :
  cache_valid (set_buffer b d) rows <-> cache_valid d rows.
Proof. reflexivity. Qed.

Lemma run_renderHeader d rows :
  cache_valid d rows ->
  renderHeader d = (Ok tt, set_buffer (buffer d ++ [OpHeader]) d).
Proof.
  intros H. unfold renderHeader, mbind, M_bind.
  now rewrite (getFilteredPorts_hit d rows H).
Qed.

Lemma run_getSelectedPort d rows :
  cache_valid d rows ->
  getSelectedPort d = (Ok (selected_of rows (selectedIndex (state d))), d).
Proof.
  intros H. unfold getSelectedPort, selected_of, mbind, M_bind.
  rewrite (getFilteredPorts_hit d rows H).
  now destruct (length rows =? 0)%nat.
Qed.

Lemma selected_of_some rows i :
  is_some (selected_of rows i) = (0 <? of_length rows) && (0 <=? i).
Proof.
  unfold selected_of, at_index, of_length.
  destruct (length rows =? 0)%nat eqn:E0.
  - apply Nat.eqb_eq in E0. rewrite E0. reflexivity.
  - apply Nat.eqb_neq in E0.
    replace (0 <? Z.of_nat (length rows)) with true by (symmetry; apply Z.ltb_lt; lia).
    simpl andb.
    destruct (Z.min i (Z.of_nat (length rows) - 1) <? 0) eqn:E.
    + apply Z.ltb_lt in E. symmetry. apply Z.leb_gt. lia.
    + apply Z.ltb_ge in E.
      replace (0 <=? i) with true by (symmetry; apply Z.leb_le; lia).
      destruct (nth_error rows (Z.to_nat (Z.min i (Z.of_nat (length rows) - 1)))) eqn:En;
        [reflexivity|].
      apply nth_error_None in En. lia.
Qed.

Lemma set_buffer_id d : set_buffer (buffer d) d = d.
Proof. now destruct d. Qed.

Lemma at_index_in_range {A} (l : list A) i :
  0 <= i < of_length l -> exists x, at_index l i = Some x.
Proof.
  unfold at_index, of_length. intros [H0 H1].
  replace (i <? 0) with false by (symmetry; apply Z.ltb_ge; lia).
  destruct (nth_error l (Z.to_nat i)) eqn:E; [eauto|].
  apply nth_error_None in E. lia.
Qed.

Lemma run_render_changed lineNums current maxHeight : forall d,
  render_changed lineNums current maxHeight d
  = (Ok tt,
     set_buffer (buffer d ++ flat_map (line_op (rs_filteredPorts current) maxHeight)
                                      lineNums) d).
Proof.
  induction lineNums as [|n rest IH]; intros d.
  - simpl. now rewrite app_nil_r, set_buffer_id.
  - cbn [render_changed flat_map]. unfold mbind, M_bind.
    unfold line_op at 1.
    destruct (n >=? 2) eqn:E1; cbn [andb];
      [| unfold skip, mret, M_ret; rewrite IH; reflexivity].
    destruct (n <? maxHeight) eqn:E2; cbn [andb];
      [| unfold skip, mret, M_ret; rewrite IH; reflexivity].
    destruct (n - 2 <? of_length (rs_filteredPorts current)) eqn:E3;
      [| unfold skip, mret, M_ret; rewrite IH; reflexivity].
    destruct (at_index_in_range (rs_filteredPorts current) (n - 2)) as [e He].
    { apply Z.ltb_lt in E3. rewrite Z.geb_leb in E1. apply Z.leb_le in E1. lia. }
    rewrite He. unfold renderPortLine, draw, modify. rewrite IH.
    cbn [buffer set_buffer]. rewrite <- app_assoc. reflexivity.
Qed.

Lemma run_flush d :
  buffer d <> [] ->
  renderer_render d
  = (Ok tt, set_buffer [] (set_written (written d ++ [buffer d]) d)).
Proof.
  intros H. unfold renderer_render, modify.
  destruct (buffer d); [contradiction | reflexivity].
Qed.

Lemma diff_rows_same prev curr : forall i maxHeight changed,
  Forall2 (fun p c => row_differs p c = false) prev curr ->
  diff_rows prev curr i maxHeight changed = changed.
Proof.
  intros i maxHeight changed H. revert i changed.
  induction H as [|p c prev curr Hpc _ IH]; intros i changed; simpl; [reflexivity|].
  destruct (i + 2 <? maxHeight); [| reflexivity].
  rewrite Hpc. apply IH.
Qed.

Lemma grows_refl d : grows d d.
Proof. split; [reflexivity|]. exists []. now rewrite app_nil_r. Qed.

Lemma grows_trans a b c : grows a b -> grows b c -> grows a c.
Proof.
  intros [W1 [o1 B1]] [W2 [o2 B2]]. split; [congruence|].
  exists (o1 ++ o2). rewrite B2, B1. now rewrite app_assoc.
Qed.

Lemma g_bind {A B} (m : M Dash A) (k : A -> M Dash B) :
  within grows m -> (forall a, within grows (k a)) -> within grows (m ≫= k).
Proof. apply within_bind, grows_trans. Qed.

Lemma g_ret {A} (a : A) : within grows (mret a).
Proof. apply within_ret, grows_refl. Qed.

Lemma g_skip : within grows skip.
Proof. apply within_skip, grows_refl. Qed.

Lemma g_when (c : bool) (m : M Dash unit) :
  within grows m -> within grows (when c m).
Proof. apply within_when, grows_refl. Qed.

Lemma g_get : within grows get_state.
Proof. apply within_get, grows_refl. Qed.

Section Drawing.
Lemma grows_getFilteredPorts : within grows getFilteredPorts.
  Proof.
    intros d. destruct (getFilteredPorts_rows d) as (d' & Hg & Hd' & _).
    exists (current_rows d), d'. split; [exact Hg|].
    rewrite Hd'. split; [reflexivity|]. exists []. simpl. now rewrite app_nil_r.
  Qed.

Lemma grows_draw op : within grows (draw op).
  Proof.
    apply within_modify. intros d. split; [reflexivity|]. now exists [op].
  Qed.

Lemma grows_getSelectedPort : within grows getSelectedPort.
  Proof.
    apply g_bind; [apply grows_getFilteredPorts|]. intros rows.
    destruct (length rows =? 0)%nat; [apply g_ret|].
    apply g_bind; [apply g_get|]. intros. apply g_ret.
  Qed.

Lemma grows_renderKillMessage : within grows renderKillMessage.
  Proof.
    apply g_bind; [apply g_get|]. intros d.
    match goal with
    | |- within _ (if ?c then _ else _) => destruct c
    end; [apply grows_draw | apply g_skip].
  Qed.

Lemma grows_render_rows rows : forall i maxHeight,
    within grows (render_rows rows i maxHeight).
  Proof.
    induction rows as [|r rows IH]; intros i maxHeight; simpl; [apply g_skip|].
    destruct (i + 2 <? maxHeight); [| apply g_skip].
    apply g_bind; [apply grows_draw | intros; apply IH].
  Qed.

  (** [renderMain] draws the header, then whatever else. *)
Lemma run_renderMain d :
    exists frame d',
      renderMain d = (Ok tt, d')
      /\ written d' = written d
      /\ buffer d' = buffer d ++ OpHeader :: frame.
  Proof.
    unfold renderMain.
    unfold mbind at 1, M_bind at 1, get_state at 1.
    unfold mbind at 1, M_bind at 1.
    destruct (getFilteredPorts_rows d) as (d1 & Hg & Hd1 & Hvalid). rewrite Hg.
    unfold mbind at 1, M_bind at 1.
    rewrite (run_renderHeader d1 _ Hvalid).
    match goal with
    | |- context [?rest (set_buffer ?b d1)] =>
        assert (Hrest : within grows rest)
    end.
    { apply g_bind; [apply grows_render_rows|]. intros _.
      apply g_bind; [apply grows_getSelectedPort|]. intros sel.
      apply g_bind.
      { destruct sel; [apply g_when, grows_draw | apply g_skip]. }
      intros _.
      apply g_bind; [apply grows_draw|]. intros _.
      apply g_when, grows_renderKillMessage. }
    destruct (Hrest (set_buffer (buffer d1 ++ [OpHeader]) d1))
      as ([] & d2 & E & W & ops & B).
    rewrite E. exists ops, d2. split; [reflexivity|].
    rewrite W, B. simpl. rewrite Hd1. simpl.
    split; [reflexivity|]. now rewrite <- app_assoc.
  Qed.

  (** [fullRender] is a full repaint, whatever was in the buffer. *)
Lemma run_fullRender d :
    exists d', fullRender d = (Ok tt, d') /\ full_repaint d d'.
  Proof.
    unfold fullRender, mbind, M_bind, renderer_clear, draw, modify.
    match goal with
    | |- context [renderMain ?x] =>
        destruct (run_renderMain x) as (frame & d1 & E & W & B); rewrite E
    end.
    simpl in W, B.
    rewrite run_flush by (rewrite B; discriminate).
    eexists. split; [reflexivity|].
    exists frame. simpl. rewrite W, B. now rewrite <- app_assoc.
  Qed.
End Drawing.

Lemma run_clear_expired env st d :
  exists d',
    clear_expired_message env st d = (Ok tt, d')
    /\ written d' = written d
    /\ buffer d' = buffer d
    /\ previousRenderState d' = previousRenderState d
    /\ (killMessage st = None -> d' = d).
Proof.
  unfold clear_expired_message.
  destruct (killMessage st); [| exists d; repeat split; auto].
  destruct (killMessageExpiresAt st); [| exists d; repeat split; auto; discriminate].
  destruct (nonzero z); [| exists d; repeat split; auto; discriminate].
  unfold mbind, M_bind, now, call, when.
  destruct (date_now env (trace (os d)) >? z); simpl;
    eexists; repeat split; auto; discriminate.
Qed.

(** A delta pass with more changed lines than half the row
    budget repaints in full. *)
Lemma renderDelta_falls_back previous current d :
  2 * of_length (changedLines previous current (maxHeight_of d)) > maxHeight_of d ->
  full_repaint d (snd (renderDelta previous current d)).
Proof.
  intros H. unfold renderDelta, mbind at 1, M_bind at 1, get_state at 1.
  cbv zeta. apply Z.gtb_gt in H. rewrite H.
  destruct (run_fullRender d) as (d' & E & F). now rewrite E.
Qed.

(** After a change of the sort key or of the filter text
    the main view is repainted in full. *)
Lemma render_full_after_sort_or_filter env d prev :
  modal_of (state d) = None ->
  previousRenderState d = Some prev ->
  rs_sortBy prev <> sortBy (state d) \/ rs_filter prev <> filter (state d) ->
  full_repaint d (snd (render env d)).
Proof.
  intros Hmodal Hprev Hdiff.
  unfold render, mbind at 1, M_bind at 1, get_state at 1. rewrite Hmodal.
  unfold mbind at 1, M_bind at 1.
  destruct (getFilteredPorts_rows d) as (d1 & Hg & Hd1 & _). rewrite Hg.
  cbv zeta. unfold mbind at 1, M_bind at 1.
  destruct (run_clear_expired env (state d) d1) as (d2 & E2 & W2 & _ & P2 & _).
  rewrite E2.
  unfold mbind at 1, M_bind at 1, get_state at 1.
  assert (Hp2 : previousRenderState d2 = Some prev).
  { rewrite P2, Hd1. exact Hprev. }
  rewrite Hp2. cbn [rs_filter rs_sortBy].
  assert (Hno : str_eqb (rs_filter prev) (filter (state d))
                && sortkey_eqb (rs_sortBy prev) (sortBy (state d)) = false).
  { destruct Hdiff as [Hs|Hf].
    - destruct (sortkey_eqb _ _) eqn:E; [| apply andb_false_r].
      apply sortkey_eqb_eq in E. contradiction.
    - destruct (str_eqb _ _) eqn:E; [| reflexivity].
      apply str_eqb_eq in E. contradiction. }
  match goal with
  | |- context [if ?c then _ else _] =>
      replace c with false
  end.
  2:{ symmetry. rewrite <- !andb_assoc.
      rewrite (andb_assoc (str_eqb _ _)), Hno.
      cbn [andb]. now rewrite !andb_false_r. }
  unfold mbind, M_bind.
  destruct (run_fullRender d2) as (d3 & E3 & frame & F3). rewrite E3.
  exists frame. unfold modify. cbn [snd written set_previousRenderState].
  rewrite F3, W2, Hd1. reflexivity.
Qed.

Lemma same_rows_length prev curr :
  Forall2 (fun p c => row_differs p c = false) prev curr -> length prev = length curr.
Proof. induction 1; simpl; congruence. Qed.

Lemma changedLines_selection previous current maxHeight :
  Forall2 (fun p c => row_differs p c = false)
          (rs_filteredPorts previous) (rs_filteredPorts current) ->
  rs_selectedIndex previous <> rs_selectedIndex current ->
  changedLines previous current maxHeight
  = [rs_selectedIndex previous + 2; rs_selectedIndex current + 2].
Proof.
  intros Hsame Hsel. unfold changedLines.
  rewrite (diff_rows_same _ _ _ _ _ Hsame).
  replace (rs_selectedIndex previous =? rs_selectedIndex current) with false
    by (symmetry; apply Z.eqb_neq; exact Hsel).
  unfold set_add. cbn [existsb app orb].
  replace (rs_selectedIndex current + 2 =? rs_selectedIndex previous + 2) with false
    by (symmetry; apply Z.eqb_neq; lia).
  reflexivity.
Qed.

Lemma buffer_set_buffer b d : buffer (set_buffer b d) = b.
Proof. reflexivity. Qed.

Lemma set_buffer_twice b a d : set_buffer b (set_buffer a d) = set_buffer b d.
Proof. reflexivity. Qed.

(** A delta pass that stays within the budget: the header, the changed
    lines that are visible rows, the details footer, in one write. *)
Lemma run_renderDelta previous current d rows :
  cache_valid d rows ->
  killMessage (state d) = None ->
  2 * of_length (changedLines previous current (maxHeight_of d)) <= maxHeight_of d ->
  renderDelta previous current d
  = (Ok tt,
     set_buffer []
       (set_written
          (written d
           ++ [buffer d ++ [OpHideCursor; OpHeader]
               ++ flat_map (line_op (rs_filteredPorts current) (maxHeight_of d))
                           (changedLines previous current (maxHeight_of d))
               ++ (if showDetails (state d)
                      && is_some (selected_of rows (selectedIndex (state d)))
                   then [OpDetails (screenHeight d)] else [])])
          d)).
Proof.
  intros Hvalid Hkm Hfit.
  unfold renderDelta, mbind at 1, M_bind at 1, get_state at 1. cbv zeta.
  replace (2 * of_length (changedLines previous current (maxHeight_of d))
           >? maxHeight_of d) with false
    by (symmetry; rewrite Z.gtb_ltb; apply Z.ltb_ge; lia).
  unfold mbind at 1, M_bind at 1, draw at 1, modify at 1.
  unfold mbind at 1, M_bind at 1.
  rewrite (run_renderHeader _ rows) by exact Hvalid.
  unfold mbind at 1, M_bind at 1. rewrite run_render_changed.
  rewrite Hkm. cbn [is_some when].
  rewrite !buffer_set_buffer, !set_buffer_twice.
  rewrite <- !app_assoc. cbn [app].
  set (B := buffer d ++ OpHideCursor :: OpHeader :: _).
  assert (HB : forall more, B ++ more <> []).
  { intros more. unfold B. destruct (buffer d); discriminate. }
  destruct (showDetails (state d)); cbn [andb].
  - unfold mbind at 1, M_bind at 1. unfold mbind at 1, M_bind at 1.
    rewrite (run_getSelectedPort _ rows) by exact Hvalid.
    cbn [state set_buffer].
    destruct (selected_of rows (selectedIndex (state d))); cbn [is_some].
    + unfold renderDetails, draw, modify, skip, mbind, M_bind, mret, M_ret.
      rewrite run_flush by (cbn [buffer]; apply HB).
      cbn. unfold B. rewrite <- ?app_assoc, ?app_nil_r. reflexivity.
    + unfold skip, mbind, M_bind, mret, M_ret.
      rewrite run_flush by (cbn [buffer]; rewrite <- (app_nil_r B); apply HB).
      cbn. unfold B. rewrite <- ?app_assoc, ?app_nil_r. reflexivity.
  - unfold skip, mbind, M_bind, mret, M_ret.
    rewrite run_flush by (cbn [buffer]; rewrite <- (app_nil_r B); apply HB).
    cbn. unfold B. rewrite <- ?app_assoc, ?app_nil_r. reflexivity.
Qed.

(** A frame that differs from the previous one in
    the selected row only, on a terminal with at least four rows of budget,
    is painted by one write without a clear: the header, the old and the
    new selection line where they are visible rows, and the details footer
    when details are shown and a row is selected. *)
Lemma render_delta_on_selection_change env d prev :
  selection_only_change d prev ->
  4 <= maxHeight_of d ->
  delta_repaint d (snd (render env d))
    ([OpHideCursor; OpHeader]
     ++ line_op (current_rows d) (maxHeight_of d) (rs_selectedIndex prev + 2)
     ++ line_op (current_rows d) (maxHeight_of d) (selectedIndex (state d) + 2)
     ++ details_op d).
Proof.
  intros (Hmodal & Hprev & Hbuf & Hsame & Hf & Hs & Hdet & Hkm & Hsel) Hbudget.
  split.
  2:{ unfold line_op, details_op.
      repeat match goal with
             | |- context [if ?c then _ else _] => destruct c
             end; simpl; intuition discriminate. }
  unfold render, mbind at 1, M_bind at 1, get_state at 1. rewrite Hmodal.
  unfold mbind at 1, M_bind at 1.
  destruct (getFilteredPorts_rows d) as (d1 & Hg & Hd1 & Hvalid). rewrite Hg.
  set (rows := current_rows d) in *.
  cbv zeta. unfold mbind at 1, M_bind at 1.
  destruct (run_clear_expired env (state d) d1) as (d2 & E2 & _ & _ & _ & Hsame2).
  rewrite E2. rewrite (Hsame2 Hkm). clear d2 E2 Hsame2.
  unfold mbind at 1, M_bind at 1, get_state at 1.
  assert (Hst : state d1 = state d) by (rewrite Hd1; reflexivity).
  assert (Hp1 : previousRenderState d1 = Some prev) by (rewrite Hd1; exact Hprev).
  rewrite Hp1, Hst, Hkm.
  cbn [is_some negb andb rs_filteredPorts rs_filter rs_sortBy rs_showDetails].
  rewrite (same_rows_length _ _ Hsame), Nat.eqb_refl, Hf, str_eqb_refl, Hs,
    sortkey_eqb_refl, Hdet.
  rewrite eqb_reflx. cbn [andb].
  set (cur := mkRender rows _ _ _ _).
  assert (Hmax : maxHeight_of d1 = maxHeight_of d).
  { unfold maxHeight_of. rewrite Hst, Hd1. reflexivity. }
  assert (Hch : changedLines prev cur (maxHeight_of d1)
                = [rs_selectedIndex prev + 2; selectedIndex (state d) + 2]).
  { apply changedLines_selection; [exact Hsame | exact Hsel]. }
  unfold mbind, M_bind.
  rewrite (run_renderDelta prev cur d1 rows Hvalid).
  2:{ rewrite Hst. exact Hkm. }
  2:{ rewrite Hch, Hmax. unfold of_length. simpl. lia. }
  unfold modify. cbn [snd written set_previousRenderState set_buffer set_written].
  rewrite Hch, Hmax, Hst. cbn [flat_map rs_filteredPorts cur].
  rewrite selected_of_some.
  replace (written d1) with (written d) by (rewrite Hd1; reflexivity).
  replace (buffer d1) with (@nil DrawOp) by (rewrite Hd1; simpl; now rewrite Hbuf).
  replace (screenHeight d1) with (screenHeight d) by (rewrite Hd1; reflexivity).
  unfold details_op. fold rows.
  rewrite app_nil_r, andb_assoc. cbn [app]. rewrite <- app_assoc. reflexivity.
Qed.

(** C5 (amended): with no modal active, (1) a frame that differs from the
    previous one in the selected row only, on a terminal whose row budget
    is at least four, is painted by a delta repaint, one write without a
    clear, of the header, the old and the new selection line where they
    are visible rows, and the details footer when details are shown and a
    row is selected; (2) a frame whose sort key or filter text differs from
    the previous frame's is painted by a full repaint; (3) a delta pass
    whose number of changed lines exceeds half of the row budget falls back
    to a full repaint. *)
Theorem render_strategy env d prev :
  (selection_only_change d prev ->
   4 <= maxHeight_of d ->
   delta_repaint d (snd (render env d))
     ([OpHideCursor; OpHeader]
      ++ line_op (current_rows d) (maxHeight_of d) (rs_selectedIndex prev + 2)
      ++ line_op (current_rows d) (maxHeight_of d) (selectedIndex (state d) + 2)
      ++ details_op d))
  /\ (modal_of (state d) = None ->
      previousRenderState d = Some prev ->
      rs_sortBy prev <> sortBy (state d) \/ rs_filter prev <> filter (state d) ->
      full_repaint d (snd (render env d)))
  /\ (forall current,
        2 * of_length (changedLines prev current (maxHeight_of d)) > maxHeight_of d ->
        full_repaint d (snd (renderDelta prev current d))).
Proof.
  split; [apply render_delta_on_selection_change|].
  split; [apply render_full_after_sort_or_filter|].
  intros current. apply renderDelta_falls_back.
Qed.

Lemma demo_selection_only_change : selection_only_change demo_moved demo_previous.
Proof.
  unfold selection_only_change.
  split; [vm_compute; reflexivity|].
  split; [vm_compute; reflexivity|].
  split; [vm_compute; reflexivity|].
  split; [vm_compute; repeat constructor|].
  split; [vm_compute; reflexivity|].
  split; [vm_compute; reflexivity|].
  split; [vm_compute; reflexivity|].
  split; [vm_compute; reflexivity|].
  vm_compute. discriminate.
Qed.

Lemma render_strategy_witness :
  delta_repaint demo_moved (snd (render env_demo demo_moved))
    ([OpHideCursor; OpHeader]
     ++ line_op (current_rows demo_moved) (maxHeight_of demo_moved)
                (rs_selectedIndex demo_previous + 2)
     ++ line_op (current_rows demo_moved) (maxHeight_of demo_moved)
                (selectedIndex (state demo_moved) + 2)
     ++ details_op demo_moved)
  /\ full_repaint demo_resorted (snd (render env_demo demo_resorted))
  /\ full_repaint demo_small (snd (renderDelta demo_previous demo_current demo_small)).
Proof.
  split; [| split].
  - apply (proj1 (render_strategy env_demo demo_moved demo_previous)).
    + exact demo_selection_only_change.
    + vm_compute. discriminate.
  - apply (proj1 (proj2 (render_strategy env_demo demo_resorted demo_previous))).
    + vm_compute. reflexivity.
    + vm_compute. reflexivity.
    + left. vm_compute. discriminate.
  - apply (proj2 (proj2 (render_strategy env_demo demo_small demo_previous))).
    vm_compute. reflexivity.
Defined.

(** The first part as stated fails: with details shown, the delta repaint
    after a move of the selection also rewrites the two lines of the
    details footer, lines 20 and 21 of a terminal of 24 lines. *)
Lemma selection_delta_touches_details : ~ selection_delta_claim env_demo.
Proof.
  intros H.
  destruct (H demo_moved demo_previous demo_selection_only_change)
    as (ops & [Hw _] & Hl).
  vm_compute in Hw. injection Hw as <-.
  destruct (Hl 20) as [Hin _].
  assert (H20 : In 20 [0; rs_selectedIndex demo_previous + 2;
                       selectedIndex (state demo_moved) + 2]).
  { apply Hin. vm_compute. auto 10. }
  vm_compute in H20. intuition discriminate.
Qed.

(** ** The parsers *)

(** C4 fails on the Unix parser: it has no deduplication step, so the two
    lines [lsof] prints for a process listening on one port over IPv4 and
    IPv6 give two entries with the same port and pid, whatever metadata
    the batch resolves. *)
Theorem parseLsofOutput_keeps_duplicates (batch : gmap (option Z) ProcessInfo) :
  exists p q,
    Unix.parseLsofOutput lsof_dual_stack batch = [p; q]
    /\ port p = Some 3000 /\ pid p = Some 4242
    /\ same_socket p q
    /\ ~ one_entry_per_socket (Unix.parseLsofOutput lsof_dual_stack batch).
Proof.
  assert (Hparse : exists a b,
             Unix.parseLsofLines lsof_dual_stack = [a; b]
             /\ port a = Some 3000 /\ pid a = Some 4242
             /\ port b = Some 3000 /\ pid b = Some 4242).
  { do 2 eexists. split; [vm_compute; reflexivity|]. repeat split. }
  destruct Hparse as (a & b & Hl & Ha1 & Ha2 & Hb1 & Hb2).
  assert (Hm : forall x, port (Unix.mergeProcessInfo batch x) = port x
                         /\ pid (Unix.mergeProcessInfo batch x) = pid x).
  { intros x. unfold Unix.mergeProcessInfo. now destruct (batch !! pid x). }
  exists (Unix.mergeProcessInfo batch a), (Unix.mergeProcessInfo batch b).
  unfold Unix.parseLsofOutput. rewrite Hl. cbn [List.map].
  destruct (Hm a) as [Hpa Hqa]. destruct (Hm b) as [Hpb Hqb].
  assert (Hsame : same_socket (Unix.mergeProcessInfo batch a)
                              (Unix.mergeProcessInfo batch b)).
  { unfold same_socket. rewrite Hpa, Hqa, Hpb, Hqb. split; congruence. }
  repeat split; try congruence; try apply Hsame.
  intros H. specialize (H 0%nat 1%nat _ _ eq_refl eq_refl Hsame). discriminate H.
Qed.

(** The Windows parser does deduplicate: the keys kept are distinct. *)
Lemma dedupe_keys_distinct ports : forall seen,
  NoDup (List.map fst seen) ->
  NoDup (List.map fst (Windows.dedupe ports seen)).
Proof.
  induction ports as [|p rest IH]; intros seen Hseen; simpl; [exact Hseen|].
  destruct (existsb _ seen) eqn:E; [now apply IH|].
  apply IH. rewrite map_app. simpl.
  apply NoDup_app. split; [exact Hseen|]. split.
  - intros k Hk Hin. apply list_elem_of_In in Hin. destruct Hin as [<-|[]].
    apply list_elem_of_In in Hk.
    apply in_map_iff in Hk as ((k' & q) & Hkq & Hq). simpl in Hkq. subst k'.
    assert (existsb (fun kv => str_eqb (fst kv) (Windows.dedupe_key p)) seen = true);
      [| congruence].
    apply existsb_exists. exists (Windows.dedupe_key p, q). split; [exact Hq|].
    apply str_eqb_refl.
  - apply NoDup_singleton.
Qed.

(** A line that passes the test on its last column has ["LISTENING"] there,
    and the pid read from that same column is [NaN]: no line is ever
    pushed. *)
Lemma parseNetstatLine_none line : Windows.parseNetstatLine line = None.
Proof.
  unfold Windows.parseNetstatLine.
  destruct (_ || _ || _); [reflexivity|]. cbv zeta.
  destruct (length _ <? 5)%nat; [reflexivity|].
  destruct (negb _ && negb _); [reflexivity|].
  destruct (str_eqb (Windows.last_part (split_ws (trim line))) (lit "LISTENING")) eqn:E;
    [| reflexivity].
  apply str_eqb_eq in E. rewrite E. cbn [negb].
  destruct (Windows.match_port _); [| reflexivity].
  replace (parseInt (lit "LISTENING")) with (@None Z) by reflexivity.
  cbn [isNaN]. now rewrite orb_true_r.
Qed.

Lemma parseNetstatOutput_empty output : Windows.parseNetstatOutput output = [].
Proof.
  unfold Windows.parseNetstatOutput.
  assert (H : omap Windows.parseNetstatLine (Windows.nonblank_lines output) = []).
  { induction (Windows.nonblank_lines output) as [|l ls IH]; [reflexivity|].
    simpl. now rewrite parseNetstatLine_none. }
  now rewrite H.
Qed.

(** *** Elapsed time *)

Lemma digit_facts c :
  is_digit c = true ->
  Ascii.eqb c ":" = false /\ Ascii.eqb c "-" = false /\ Ascii.eqb c "+" = false
  /\ is_space c = false.
Proof.
  destruct c as [[] [] [] [] [] [] [] []]; vm_compute; intros H;
    repeat split; congruence.
Qed.

Lemma full_match_nil s : Unix.full_match [] s = true -> s = [].
Proof. destruct s; simpl; congruence. Qed.

Lemma full_match_lit c rest s :
  Unix.full_match (Unix.Lit c :: rest) s = true ->
  exists s', s = c :: s' /\ Unix.full_match rest s' = true.
Proof.
  destruct s as [|x s']; simpl; [discriminate|].
  intros H. apply andb_true_iff in H as [H1 H2].
  apply Ascii.eqb_eq in H1. subst x. eauto.
Qed.

Lemma full_match_digits lo hi rest s :
  Unix.full_match (Unix.Digits lo hi :: rest) s = true ->
  exists ds s',
    s = ds ++ s' /\ (lo <= length ds < lo + (hi - lo + 1))%nat
    /\ forallb is_digit ds = true /\ Unix.full_match rest s' = true.
Proof.
  cbn [Unix.full_match]. intros H.
  apply existsb_exists in H as (k & Hk & H).
  apply andb_true_iff in H as [H H3]. apply andb_true_iff in H as [H1 H2].
  apply Nat.eqb_eq in H1.
  exists (firstn k s), (skipn k s).
  rewrite firstn_skipn, H1. repeat split; auto.
  - apply in_rev, in_seq in Hk. lia.
  - apply in_rev, in_seq in Hk. lia.
Qed.

Lemma short_cases ds :
  short ds ->
  (exists a, ds = [a] /\ is_digit a = true)
  \/ (exists a b, ds = [a; b] /\ is_digit a = true /\ is_digit b = true).
Proof.
  intros [[H|H] Hd]; destruct ds as [|a [|b [|c r]]]; try discriminate H.
  - left. exists a. simpl in Hd. rewrite andb_true_r in Hd. auto.
  - right. exists a, b. simpl in Hd. rewrite andb_true_r in Hd.
    apply andb_true_iff in Hd. tauto.
Qed.

Lemma wide_cases ds :
  wide ds -> exists a b, ds = [a; b] /\ is_digit a = true /\ is_digit b = true.
Proof.
  intros [H Hd]; destruct ds as [|a [|b [|c r]]]; try discriminate H.
  exists a, b. simpl in Hd. rewrite andb_true_r in Hd.
  apply andb_true_iff in Hd. tauto.
Qed.

Lemma short_nonempty ds : short ds -> exists a r, ds = a :: r /\ is_digit a = true.
Proof.
  intros H. destruct (short_cases ds H) as [(a & -> & Ha)|(a & b & -> & Ha & Hb)];
    eauto.
Qed.

Lemma wide_short ds : wide ds -> short ds.
Proof. intros [H Hd]. split; auto. Qed.

Lemma digits_no_separator ds :
  forallb is_digit ds = true ->
  forallb (fun c => negb (Unix.is_etime_separator c)) ds = true.
Proof.
  induction ds as [|c ds IH]; simpl; [reflexivity|].
  intros H. apply andb_true_iff in H as [Hc Hds].
  destruct (digit_facts c Hc) as (E1 & E2 & _).
  unfold Unix.is_etime_separator. rewrite E1, E2. simpl. auto.
Qed.

Lemma split_by_field p ds c rest :
  forallb (fun x => negb (p x)) ds = true -> p c = true ->
  split_by p (ds ++ c :: rest) = ds :: split_by p rest.
Proof.
  induction ds as [|x ds IH]; simpl; intros Hds Hc.
  - now rewrite Hc.
  - apply andb_true_iff in Hds as [Hx Hds].
    apply negb_true_iff in Hx. rewrite Hx, (IH Hds Hc). reflexivity.
Qed.

Lemma split_by_last p ds :
  forallb (fun x => negb (p x)) ds = true -> split_by p ds = [ds].
Proof.
  induction ds as [|x ds IH]; simpl; intros Hds; [reflexivity|].
  apply andb_true_iff in Hds as [Hx Hds].
  apply negb_true_iff in Hx. rewrite Hx, (IH Hds). reflexivity.
Qed.

Lemma span_digits ds : forallb is_digit ds = true -> span is_digit ds = (ds, []).
Proof.
  induction ds as [|x ds IH]; simpl; intros H; [reflexivity|].
  apply andb_true_iff in H as [Hx Hds]. now rewrite Hx, (IH Hds).
Qed.

Lemma parseInt_digits ds :
  short ds -> parseInt ds = Some (digits_val ds).
Proof.
  intros H. destruct (short_nonempty ds H) as (a & r & -> & Ha).
  destruct H as [_ Hd].
  destruct (digit_facts a Ha) as (_ & E2 & E3 & E4).
  unfold parseInt. cbn [trimStart]. rewrite E4, E2, E3.
  rewrite (span_digits _ Hd). reflexivity.
Qed.

Lemma digits_val_one a : digits_val [a] = digit_val a.
Proof. unfold digits_val. cbn [fold_left]. lia. Qed.

Lemma digits_val_two a b : digits_val [a; b] = 10 * digit_val a + digit_val b.
Proof. unfold digits_val. cbn [fold_left]. lia. Qed.

Lemma separator_colon : Unix.is_etime_separator ":" = true.
Proof. reflexivity. Qed.

Lemma separator_dash : Unix.is_etime_separator "-" = true.
Proof. reflexivity. Qed.

(** **** What the code does on a string of each form *)

Lemma parseEtime_dhms D H M S :
  short D -> short H -> wide M -> wide S ->
  Unix.parseEtime (dhms_string D H M S)
  = positive (digits_val D * 86400 + digits_val H * 3600
              + digits_val M * 60 + digits_val S).
Proof.
  intros HD HH HM HS.
  unfold Unix.parseEtime, dhms_string.
  destruct (short_nonempty D HD) as (a & r & ED & _).
  replace (truthy (D ++ _)) with true by (rewrite ED; reflexivity).
  cbn [negb]. cbv zeta.
  rewrite (split_by_field _ D) by (apply digits_no_separator, HD || reflexivity).
  rewrite (split_by_field _ H) by (apply digits_no_separator, HH || reflexivity).
  rewrite (split_by_field _ M) by (apply digits_no_separator, HM || reflexivity).
  rewrite (split_by_last _ S) by (apply digits_no_separator, HS).
  cbn [length Nat.eqb Unix.part nth].
  rewrite !parseInt_digits by auto using wide_short.
  reflexivity.
Qed.

Lemma parseEtime_hms H M S :
  short H -> wide M -> wide S ->
  Unix.parseEtime (hms_string H M S)
  = positive (digits_val H * 3600 + digits_val M * 60 + digits_val S).
Proof.
  intros HH HM HS.
  unfold Unix.parseEtime, hms_string.
  destruct (short_nonempty H HH) as (a & r & EH & _).
  replace (truthy (H ++ _)) with true by (rewrite EH; reflexivity).
  cbn [negb]. cbv zeta.
  rewrite (split_by_field _ H) by (apply digits_no_separator, HH || reflexivity).
  rewrite (split_by_field _ M) by (apply digits_no_separator, HM || reflexivity).
  rewrite (split_by_last _ S) by (apply digits_no_separator, HS).
  cbn [length Nat.eqb Unix.part nth].
  rewrite !parseInt_digits by auto using wide_short.
  reflexivity.
Qed.

Lemma parseEtime_ms M S :
  short M -> wide S ->
  Unix.parseEtime (ms_string M S) = positive (digits_val M * 60 + digits_val S).
Proof.
  intros HM HS.
  unfold Unix.parseEtime, ms_string.
  destruct (short_nonempty M HM) as (a & r & EM & _).
  replace (truthy (M ++ _)) with true by (rewrite EM; reflexivity).
  cbn [negb]. cbv zeta.
  rewrite (split_by_field _ M) by (apply digits_no_separator, HM || reflexivity).
  rewrite (split_by_last _ S) by (apply digits_no_separator, HS).
  cbn [length Nat.eqb Unix.part nth].
  rewrite !parseInt_digits by auto using wide_short.
  reflexivity.
Qed.

Lemma full_match_digits_intro lo hi rest ds s :
  (lo <= length ds < lo + (hi - lo + 1))%nat ->
  forallb is_digit ds = true ->
  Unix.full_match rest s = true ->
  Unix.full_match (Unix.Digits lo hi :: rest) (ds ++ s) = true.
Proof.
  intros Hlen Hd Hrest. cbn [Unix.full_match].
  apply existsb_exists. exists (length ds). split.
  - apply in_rev. rewrite rev_involutive. apply in_seq. lia.
  - rewrite firstn_app, Nat.sub_diag, firstn_all. cbn [firstn]. rewrite app_nil_r.
    rewrite Nat.eqb_refl, Hd. cbn [andb].
    rewrite skipn_app, Nat.sub_diag, skipn_all. exact Hrest.
Qed.

Lemma full_match_lit_intro c rest s :
  Unix.full_match rest s = true ->
  Unix.full_match (Unix.Lit c :: rest) (c :: s) = true.
Proof. intros H. cbn [Unix.full_match]. now rewrite Ascii.eqb_refl, H. Qed.

Lemma short_range ds : short ds -> (1 <= length ds < 1 + (2 - 1 + 1))%nat.
Proof. intros [[H|H] _]; rewrite H; simpl; lia. Qed.

Lemma wide_range ds : wide ds -> (2 <= length ds < 2 + (2 - 2 + 1))%nat.
Proof. intros [H _]; rewrite H; simpl; lia. Qed.

Lemma wide_end S : wide S -> Unix.full_match [Unix.Digits 2 2] S = true.
Proof.
  intros HS. rewrite <- (app_nil_r S).
  apply full_match_digits_intro; [apply wide_range, HS | apply HS | reflexivity].
Qed.

Lemma full_match_dhms D H M S :
  short D -> short H -> wide M -> wide S ->
  Unix.full_match Unix.dd_hh_mm_ss (dhms_string D H M S) = true.
Proof.
  intros HD HH HM HS. unfold Unix.dd_hh_mm_ss, dhms_string.
  apply full_match_digits_intro; [apply short_range, HD | apply HD |].
  apply full_match_lit_intro.
  apply full_match_digits_intro; [apply short_range, HH | apply HH |].
  apply full_match_lit_intro.
  apply full_match_digits_intro; [apply wide_range, HM | apply HM |].
  apply full_match_lit_intro. apply wide_end, HS.
Qed.

Lemma full_match_hms H M S :
  short H -> wide M -> wide S ->
  Unix.full_match Unix.hh_mm_ss (hms_string H M S) = true.
Proof.
  intros HH HM HS. unfold Unix.hh_mm_ss, hms_string.
  apply full_match_digits_intro; [apply short_range, HH | apply HH |].
  apply full_match_lit_intro.
  apply full_match_digits_intro; [apply wide_range, HM | apply HM |].
  apply full_match_lit_intro. apply wide_end, HS.
Qed.

Lemma full_match_ms M S :
  short M -> wide S ->
  Unix.full_match Unix.mm_ss (ms_string M S) = true.
Proof.
  intros HM HS. unfold Unix.mm_ss, ms_string.
  apply full_match_digits_intro; [apply short_range, HM | apply HM |].
  apply full_match_lit_intro. apply wide_end, HS.
Qed.

(** **** The forms a match has *)

Lemma digits_short ds :
  (1 <= length ds < 1 + (2 - 1 + 1))%nat -> forallb is_digit ds = true -> short ds.
Proof. intros H Hd. split; [simpl in H; lia | exact Hd]. Qed.

Lemma digits_wide ds :
  (2 <= length ds < 2 + (2 - 2 + 1))%nat -> forallb is_digit ds = true -> wide ds.
Proof. intros H Hd. split; [simpl in H; lia | exact Hd]. Qed.

Lemma match_dhms_form s :
  Unix.full_match Unix.dd_hh_mm_ss s = true ->
  exists D H M S, s = dhms_string D H M S /\ short D /\ short H /\ wide M /\ wide S.
Proof.
  unfold Unix.dd_hh_mm_ss. intros H0.
  apply full_match_digits in H0 as (D & s1 & -> & LD & DD & H0).
  apply full_match_lit in H0 as (s2 & -> & H0).
  apply full_match_digits in H0 as (H & s3 & -> & LH & DH & H0).
  apply full_match_lit in H0 as (s4 & -> & H0).
  apply full_match_digits in H0 as (M & s5 & -> & LM & DM & H0).
  apply full_match_lit in H0 as (s6 & -> & H0).
  apply full_match_digits in H0 as (S & s7 & -> & LS & DS & H0).
  apply full_match_nil in H0 as ->. rewrite app_nil_r.
  exists D, H, M, S. unfold dhms_string.
  split; [reflexivity|].
  split; [now apply digits_short|]. split; [now apply digits_short|].
  split; now apply digits_wide.
Qed.

Lemma match_hms_form s :
  Unix.full_match Unix.hh_mm_ss s = true ->
  exists H M S, s = hms_string H M S /\ short H /\ wide M /\ wide S.
Proof.
  unfold Unix.hh_mm_ss. intros H0.
  apply full_match_digits in H0 as (H & s3 & -> & LH & DH & H0).
  apply full_match_lit in H0 as (s4 & -> & H0).
  apply full_match_digits in H0 as (M & s5 & -> & LM & DM & H0).
  apply full_match_lit in H0 as (s6 & -> & H0).
  apply full_match_digits in H0 as (S & s7 & -> & LS & DS & H0).
  apply full_match_nil in H0 as ->. rewrite app_nil_r.
  exists H, M, S. unfold hms_string.
  split; [reflexivity|].
  split; [now apply digits_short|]. split; now apply digits_wide.
Qed.

Lemma match_ms_form s :
  Unix.full_match Unix.mm_ss s = true ->
  exists M S, s = ms_string M S /\ short M /\ wide S.
Proof.
  unfold Unix.mm_ss. intros H0.
  apply full_match_digits in H0 as (M & s5 & -> & LM & DM & H0).
  apply full_match_lit in H0 as (s6 & -> & H0).
  apply full_match_digits in H0 as (S & s7 & -> & LS & DS & H0).
  apply full_match_nil in H0 as ->. rewrite app_nil_r.
  exists M, S. unfold ms_string.
  split; [reflexivity|].
  split; [now apply digits_short | now apply digits_wide].
Qed.

(** **** What the reading of the specification does on each form *)

Lemma one_or_two_field ds c rest :
  short ds -> is_digit c = false ->
  EtimeSpec.one_or_two_digits (ds ++ c :: rest) = Some (digits_val ds, c :: rest).
Proof.
  intros H Hc.
  destruct (short_cases ds H) as [(a & -> & Ha)|(a & b & -> & Ha & Hb)];
    cbn [app EtimeSpec.one_or_two_digits].
  - now rewrite Ha, Hc, digits_val_one.
  - now rewrite Ha, Hb, digits_val_two.
Qed.

Lemma two_field ds rest :
  wide ds -> EtimeSpec.two_digits (ds ++ rest) = Some (digits_val ds, rest).
Proof.
  intros H. destruct (wide_cases ds H) as (a & b & -> & Ha & Hb).
  cbn [app EtimeSpec.two_digits]. now rewrite Ha, Hb, digits_val_two.
Qed.

Lemma two_field_end ds :
  wide ds -> EtimeSpec.two_digits ds = Some (digits_val ds, []).
Proof. intros H. rewrite <- (app_nil_r ds) at 1. now apply two_field. Qed.

Lemma read_dhms D H M S :
  short D -> short H -> wide M -> wide S ->
  EtimeSpec.read_dd_hh_mm_ss (dhms_string D H M S)
  = Some (digits_val D * 86400 + digits_val H * 3600 + digits_val M * 60 + digits_val S).
Proof.
  intros HD HH HM HS. unfold EtimeSpec.read_dd_hh_mm_ss, dhms_string.
  rewrite (one_or_two_field D) by (auto; reflexivity). cbn.
  rewrite (one_or_two_field H) by (auto; reflexivity). cbn.
  rewrite (two_field M) by auto. cbn.
  rewrite (two_field_end S) by auto. reflexivity.
Qed.

Lemma read_hms H M S :
  short H -> wide M -> wide S ->
  EtimeSpec.read_hh_mm_ss (hms_string H M S)
  = Some (digits_val H * 3600 + digits_val M * 60 + digits_val S).
Proof.
  intros HH HM HS. unfold EtimeSpec.read_hh_mm_ss, hms_string.
  rewrite (one_or_two_field H) by (auto; reflexivity). cbn.
  rewrite (two_field M) by auto. cbn.
  rewrite (two_field_end S) by auto. reflexivity.
Qed.

Lemma read_ms M S :
  short M -> wide S ->
  EtimeSpec.read_mm_ss (ms_string M S) = Some (digits_val M * 60 + digits_val S).
Proof.
  intros HM HS. unfold EtimeSpec.read_mm_ss, ms_string.
  rewrite (one_or_two_field M) by (auto; reflexivity). cbn.
  rewrite (two_field_end S) by auto. reflexivity.
Qed.

(** **** The forms a reading accepts *)

Lemma one_or_two_inv s v s' :
  EtimeSpec.one_or_two_digits s = Some (v, s') ->
  exists ds, s = ds ++ s' /\ short ds.
Proof.
  unfold EtimeSpec.one_or_two_digits.
  destruct s as [|a r]; [discriminate|].
  destruct (is_digit a) eqn:Ha; [|discriminate].
  destruct r as [|b r'].
  - intros [= <- <-]. exists [a]. split; [reflexivity|].
    split; [now left | simpl; now rewrite Ha].
  - destruct (is_digit b) eqn:Hb; intros [= <- <-].
    + exists [a; b]. split; [reflexivity|].
      split; [now right | simpl; now rewrite Ha, Hb].
    + exists [a]. split; [reflexivity|].
      split; [now left | simpl; now rewrite Ha].
Qed.

Lemma two_inv s v s' :
  EtimeSpec.two_digits s = Some (v, s') -> exists ds, s = ds ++ s' /\ wide ds.
Proof.
  unfold EtimeSpec.two_digits.
  destruct s as [|a [|b r]]; try discriminate.
  destruct (is_digit a) eqn:Ha; [|discriminate].
  destruct (is_digit b) eqn:Hb; [|discriminate].
  intros [= <- <-]. exists [a; b]. split; [reflexivity|].
  split; [reflexivity | simpl; now rewrite Ha, Hb].
Qed.

Lemma expect_inv c s s' : EtimeSpec.expect c s = Some s' -> s = c :: s'.
Proof.
  destruct s as [|x r]; simpl; [discriminate|].
  destruct (Ascii.eqb x c) eqn:E; [|discriminate].
  apply Ascii.eqb_eq in E. now intros [= <-]; subst.
Qed.

Lemma at_end_inv s u : EtimeSpec.at_end s = Some u -> s = [].
Proof. destruct s; simpl; congruence. Qed.

(** One step of the inversion of a reading. *)
Ltac read_step H :=
  match type of H with
  | context [EtimeSpec.one_or_two_digits ?s] =>
      let E := fresh "E" in
      destruct (EtimeSpec.one_or_two_digits s) as [[? ?]|] eqn:E;
      cbn in H; [apply one_or_two_inv in E as (? & -> & ?) | discriminate H]
  | context [EtimeSpec.two_digits ?s] =>
      let E := fresh "E" in
      destruct (EtimeSpec.two_digits s) as [[? ?]|] eqn:E;
      cbn in H; [apply two_inv in E as (? & -> & ?) | discriminate H]
  | context [EtimeSpec.expect ?c ?s] =>
      let E := fresh "E" in
      destruct (EtimeSpec.expect c s) as [?|] eqn:E;
      cbn in H; [apply expect_inv in E as -> | discriminate H]
  | context [EtimeSpec.at_end ?s] =>
      let E := fresh "E" in
      destruct (EtimeSpec.at_end s) as [?|] eqn:E;
      cbn in H; [apply at_end_inv in E as -> | discriminate H]
  end.

Lemma read_dhms_form s total :
  EtimeSpec.read_dd_hh_mm_ss s = Some total ->
  exists D H M S, s = dhms_string D H M S /\ short D /\ short H /\ wide M /\ wide S.
Proof.
  unfold EtimeSpec.read_dd_hh_mm_ss. intros H0.
  do 8 read_step H0.
  do 4 eexists. unfold dhms_string. rewrite app_nil_r.
  split; [reflexivity|]. auto.
Qed.

Lemma read_hms_form s total :
  EtimeSpec.read_hh_mm_ss s = Some total ->
  exists H M S, s = hms_string H M S /\ short H /\ wide M /\ wide S.
Proof.
  unfold EtimeSpec.read_hh_mm_ss. intros H0.
  do 6 read_step H0.
  do 3 eexists. unfold hms_string. rewrite app_nil_r.
  split; [reflexivity|]. auto.
Qed.

Lemma read_ms_form s total :
  EtimeSpec.read_mm_ss s = Some total ->
  exists M S, s = ms_string M S /\ short M /\ wide S.
Proof.
  unfold EtimeSpec.read_mm_ss. intros H0.
  do 4 read_step H0.
  do 2 eexists. unfold ms_string. rewrite app_nil_r.
  split; [reflexivity|]. auto.
Qed.

(** **** Pattern and reading agree on every string *)

Lemma agree_dhms s : agree Unix.dd_hh_mm_ss EtimeSpec.read_dd_hh_mm_ss s.
Proof.
  unfold agree. destruct (Unix.full_match Unix.dd_hh_mm_ss s) eqn:E.
  - apply match_dhms_form in E as (D & H & M & S & -> & HD & HH & HM & HS).
    eexists. split; [now apply read_dhms | now apply parseEtime_dhms].
  - destruct (EtimeSpec.read_dd_hh_mm_ss s) eqn:R; [| reflexivity].
    apply read_dhms_form in R as (D & H & M & S & -> & HD & HH & HM & HS).
    rewrite full_match_dhms in E by assumption. discriminate E.
Qed.

Lemma agree_hms s : agree Unix.hh_mm_ss EtimeSpec.read_hh_mm_ss s.
Proof.
  unfold agree. destruct (Unix.full_match Unix.hh_mm_ss s) eqn:E.
  - apply match_hms_form in E as (H & M & S & -> & HH & HM & HS).
    eexists. split; [now apply read_hms | now apply parseEtime_hms].
  - destruct (EtimeSpec.read_hh_mm_ss s) eqn:R; [| reflexivity].
    apply read_hms_form in R as (H & M & S & -> & HH & HM & HS).
    rewrite full_match_hms in E by assumption. discriminate E.
Qed.

Lemma agree_ms s : agree Unix.mm_ss EtimeSpec.read_mm_ss s.
Proof.
  unfold agree. destruct (Unix.full_match Unix.mm_ss s) eqn:E.
  - apply match_ms_form in E as (M & S & -> & HM & HS).
    eexists. split; [now apply read_ms | now apply parseEtime_ms].
  - destruct (EtimeSpec.read_mm_ss s) eqn:R; [| reflexivity].
    apply read_ms_form in R as (M & S & -> & HM & HS).
    rewrite full_match_ms in E by assumption. discriminate E.
Qed.

(** The same on the end of a line: the leftmost match of the pattern and
    the longest end that the specification reads are the same string. *)
Lemma agree_at_end pattern read :
  (forall s, agree pattern read s) ->
  forall line,
    match Unix.match_at_end pattern line with
    | Some m => exists total,
        EtimeSpec.at_line_end read line = Some total
        /\ Unix.parseEtime m = positive total
    | None => EtimeSpec.at_line_end read line = None
    end.
Proof.
  intros Hagree line. induction line as [|c line IH].
  - specialize (Hagree []). unfold agree in Hagree.
    cbn [Unix.match_at_end EtimeSpec.at_line_end].
    destruct (Unix.full_match pattern []).
    + destruct Hagree as (t & -> & Hp). eauto.
    + now rewrite Hagree.
  - specialize (Hagree (c :: line)). unfold agree in Hagree.
    cbn [Unix.match_at_end EtimeSpec.at_line_end].
    destruct (Unix.full_match pattern (c :: line)).
    + destruct Hagree as (t & -> & Hp). eauto.
    + rewrite Hagree. exact IH.
Qed.

Lemma lifetime_refines line : Unix.lifetime_of_line line = EtimeSpec.lifetime line.
Proof.
  unfold Unix.lifetime_of_line, EtimeSpec.lifetime, EtimeSpec.total_seconds,
    Unix.etimePatterns.
  cbn [Unix.first_match].
  pose proof (agree_at_end _ _ agree_dhms line) as H1.
  pose proof (agree_at_end _ _ agree_hms line) as H2.
  pose proof (agree_at_end _ _ agree_ms line) as H3.
  destruct (Unix.match_at_end Unix.dd_hh_mm_ss line).
  { destruct H1 as (t & -> & ->). reflexivity. }
  rewrite H1.
  destruct (Unix.match_at_end Unix.hh_mm_ss line).
  { destruct H2 as (t & -> & ->). reflexivity. }
  rewrite H2.
  destruct (Unix.match_at_end Unix.mm_ss line).
  { destruct H3 as (t & -> & ->). reflexivity. }
  now rewrite H3.
Qed.

(** **** Anchoring at the end of the line *)

Lemma digits_etime_chars ds :
  forallb is_digit ds = true -> forallb etime_char ds = true.
Proof.
  induction ds as [|c ds IH]; simpl; [reflexivity|].
  intros H. apply andb_true_iff in H as [Hc Hds].
  unfold etime_char at 1. rewrite Hc. simpl. auto.
Qed.

Lemma match_etime_chars pattern s :
  In pattern Unix.etimePatterns ->
  Unix.full_match pattern s = true -> forallb etime_char s = true.
Proof.
  intros [<-|[<-|[<-|[]]]] H.
  - apply match_dhms_form in H as (D & H & M & S & -> & HD & HH & HM & HS).
    unfold dhms_string.
    rewrite !forallb_app; cbn [forallb]; rewrite !forallb_app; cbn [forallb].
    rewrite !forallb_app; cbn [forallb].
    rewrite !digits_etime_chars by (apply HD || apply HH || apply HM || apply HS).
    reflexivity.
  - apply match_hms_form in H as (H & M & S & -> & HH & HM & HS).
    unfold hms_string.
    rewrite !forallb_app; cbn [forallb]; rewrite !forallb_app; cbn [forallb].
    rewrite !digits_etime_chars by (apply HH || apply HM || apply HS).
    reflexivity.
  - apply match_ms_form in H as (M & S & -> & HM & HS).
    unfold ms_string.
    rewrite !forallb_app; cbn [forallb].
    rewrite !digits_etime_chars by (apply HM || apply HS).
    reflexivity.
Qed.

Lemma no_match_across_blank pattern before after :
  In pattern Unix.etimePatterns ->
  Unix.full_match pattern (before ++ " "%char :: after) = false.
Proof.
  intros Hin. destruct (Unix.full_match pattern _) eqn:E; [| reflexivity].
  apply (match_etime_chars _ _ Hin) in E.
  rewrite forallb_app in E. cbn [forallb] in E.
  apply andb_true_iff in E as [_ E]. discriminate E.
Qed.

Lemma match_at_end_skip pattern c s :
  Unix.full_match pattern (c :: s) = false ->
  Unix.match_at_end pattern (c :: s) = Unix.match_at_end pattern s.
Proof. intros H. cbn [Unix.match_at_end]. now rewrite H. Qed.

Lemma match_at_end_after_blank pattern before after :
  In pattern Unix.etimePatterns ->
  Unix.match_at_end pattern (before ++ " "%char :: after)
  = Unix.match_at_end pattern after.
Proof.
  intros Hin. induction before as [|c before IH].
  - apply match_at_end_skip. exact (no_match_across_blank pattern [] after Hin).
  - cbn [app]. rewrite match_at_end_skip; [exact IH|].
    exact (no_match_across_blank pattern (c :: before) after Hin).
Qed.

Lemma lifetime_after_blank before after :
  Unix.lifetime_of_line (before ++ " "%char :: after) = Unix.lifetime_of_line after.
Proof.
  unfold Unix.lifetime_of_line, Unix.etimePatterns. cbn [Unix.first_match].
  rewrite !match_at_end_after_blank by (simpl; auto).
  reflexivity.
Qed.

Lemma parsePsLine_lifetime line p cmd life :
  Unix.parsePsLine line = Some (p, (cmd, life)) ->
  life = Unix.lifetime_of_line (trim line).
Proof.
  unfold Unix.parsePsLine, Unix.lifetime_of_line. cbv zeta.
  destruct (negb (truthy (trim line))); [discriminate|].
  destruct (Unix.indexOf_space (trim line)); [|discriminate].
  destruct (isNaN _); [discriminate|].
  destruct (Unix.first_match Unix.etimePatterns (trim line)); now intros [= _ _ <-].
Qed.

(** C7: [parseEtime] maps "01:02:03" to 3723, "2-03:04:05" to 183845,
    "05:06" to 306 and "00:00" to no lifetime; for every line, the
    lifetime computed from the three end-anchored patterns and
    [parseEtime] is the one the specification describes: the first of
    dd-hh:mm:ss, hh:mm:ss, mm:ss that the end of the line has, converted
    as days*86400 + hours*3600 + minutes*60 + seconds, and none when no
    pattern fits or the total is zero; the text before the last blank of
    the line plays no part; and the lifetime stored for a line of [ps] is
    the one of the trimmed line. *)
Theorem etime_parsing :
  etime_examples
  /\ (forall line, Unix.lifetime_of_line line = EtimeSpec.lifetime line)
  /\ (forall before after,
        Unix.lifetime_of_line (before ++ " "%char :: after)
        = Unix.lifetime_of_line after)
  /\ (forall line p cmd life,
        Unix.parsePsLine line = Some (p, (cmd, life)) ->
        life = EtimeSpec.lifetime (trim line)).
Proof.
  split; [repeat split; vm_compute; reflexivity|].
  split; [exact lifetime_refines|].
  split; [exact lifetime_after_blank|].
  intros line p cmd life H. rewrite <- lifetime_refines.
  eapply parsePsLine_lifetime, H.
Qed.

Lemma etime_parsing_witness :
  Unix.parsePsLine ps_line_demo
  = Some (Some 4242, (lit "node server.js --started 10:20:30", Some 93784))
  /\ EtimeSpec.lifetime (trim ps_line_demo) = Some 93784.
Proof.
  assert (H : Unix.parsePsLine ps_line_demo
              = Some (Some 4242, (lit "node server.js --started 10:20:30", Some 93784)))
    by (vm_compute; reflexivity).
  split; [exact H|].
  symmetry. exact (proj2 (proj2 (proj2 etime_parsing)) _ _ _ _ H).
Defined.

(** ** Terminal text helpers *)

Lemma slice_to_length e s :
  Z.of_nat (length (Ansi.slice_to e s))
  = if e <? 0 then Z.max (Z.of_nat (length s) + e) 0
    else Z.min e (Z.of_nat (length s)).
Proof.
  unfold Ansi.slice_to.
  destruct (e <? 0) eqn:He; rewrite length_firstn; lia.
Qed.

Lemma spaces_length n : Z.of_nat (length (Ansi.spaces n)) = Z.max n 0.
Proof. unfold Ansi.spaces. rewrite repeat_length. lia. Qed.

Lemma truncate_length (s suffix : str) (width : Z) :
  Z.of_nat (length suffix) <= width ->
  Z.of_nat (length (Ansi.truncate s width suffix)) = Z.min (Z.of_nat (length s)) width.
Proof.
  intros Hfit. unfold Ansi.truncate.
  destruct (Z.of_nat (length s) <=? width) eqn:Hs.
  - apply Z.leb_le in Hs. lia.
  - apply Z.leb_gt in Hs.
    rewrite length_app, Nat2Z.inj_add, slice_to_length.
    destruct (width - Z.of_nat (length suffix) <? 0) eqn:E; lia.
Qed.

(** X1: when the suffix fits in the width, [truncate] returns a string
    of at most [width] characters: the string itself when it is short
    enough, otherwise its first [width - |suffix|] characters followed
    by the suffix, exactly [width] characters in all. *)
Theorem truncate_fits (s suffix : str) (width : Z) :
  Z.of_nat (length suffix) <= width ->
  Z.of_nat (length (Ansi.truncate s width suffix)) <= width
  /\ (Z.of_nat (length s) <= width -> Ansi.truncate s width suffix = s)
  /\ (width < Z.of_nat (length s) ->
        Ansi.truncate s width suffix
        = firstn (Z.to_nat (width - Z.of_nat (length suffix))) s ++ suffix
        /\ Z.of_nat (length (Ansi.truncate s width suffix)) = width).
Proof.
  intros Hfit. unfold Ansi.truncate.
  destruct (Z.of_nat (length s) <=? width) eqn:Hs.
  - apply Z.leb_le in Hs. repeat split; lia.
  - apply Z.leb_gt in Hs.
    assert (Hlen : Z.of_nat (length (Ansi.slice_to (width - Z.of_nat (length suffix)) s
                                      ++ suffix)) = width).
    { rewrite length_app, Nat2Z.inj_add, slice_to_length.
      destruct (width - Z.of_nat (length suffix) <? 0) eqn:E; lia. }
    repeat split; try lia.
    unfold Ansi.slice_to.
    destruct (width - Z.of_nat (length suffix) <? 0) eqn:E; [lia | reflexivity].
Qed.

Lemma truncate_fits_witness :
  Z.of_nat (length (Ansi.truncate (lit "node server.js") 10 Ansi.ellipsis)) <= 10
  /\ Ansi.truncate (lit "node server.js") 10 Ansi.ellipsis = lit "node se...".
Proof.
  destruct (truncate_fits (lit "node server.js") Ansi.ellipsis 10) as (H1 & _ & H3).
  - vm_compute. discriminate.
  - split; [exact H1 |].
    destruct H3 as [H3 _]; [vm_compute; reflexivity |].
    rewrite H3. vm_compute. reflexivity.
Defined.

(** X2: when the suffix is longer than the width, [truncate] of a
    string that does not fit returns more than [width] characters: the
    negative end index makes [slice] count from the end of the string,
    and the whole suffix is appended. *)
Theorem truncate_overflows (s suffix : str) (width : Z) :
  width < Z.of_nat (length suffix) ->
  width < Z.of_nat (length s) ->
  width < Z.of_nat (length (Ansi.truncate s width suffix))
  /\ Z.of_nat (length (Ansi.truncate s width suffix))
     = Z.max (Z.of_nat (length s) - (Z.of_nat (length suffix) - width)) 0
       + Z.of_nat (length suffix).
Proof.
  intros Hsuf Hs. unfold Ansi.truncate.
  destruct (Z.of_nat (length s) <=? width) eqn:E; [apply Z.leb_le in E; lia |].
  rewrite length_app, Nat2Z.inj_add, slice_to_length.
  destruct (width - Z.of_nat (length suffix) <? 0) eqn:E2; lia.
Qed.

Lemma truncate_overflows_witness :
  2 < Z.of_nat (length (Ansi.truncate (lit "abcd") 2 Ansi.ellipsis))
  /\ Ansi.truncate (lit "abcd") 2 Ansi.ellipsis = lit "abc...".
Proof.
  split.
  - apply (truncate_overflows (lit "abcd") Ansi.ellipsis 2); vm_compute; reflexivity.
  - vm_compute. reflexivity.
Defined.

Lemma pad_length (s : str) (width : Z) (align : Ansi.Align) :
  Z.of_nat (length (Ansi.pad s width align)) = Z.max (Z.of_nat (length s)) width.
Proof.
  unfold Ansi.pad.
  destruct (Z.of_nat (length s) >=? width) eqn:E; [lia |].
  set (p := width - Z.of_nat (length s)).
  assert (Hp : 0 < p) by (unfold p; lia).
  assert (H2 : 0 <= p / 2) by (apply Z.div_pos; lia).
  assert (H3 : 2 * (p / 2) <= p) by (apply Z.mul_div_le; lia).
  destruct align; rewrite !length_app, !Nat2Z.inj_add, !spaces_length; lia.
Qed.

(** X3: [pad] never removes a character: its result is the string
    between two runs of spaces, [max(|s|, width)] characters long; the
    spaces are all on the right for ["left"], all on the left for
    ["right"], and for ["center"] the right run has as many spaces as
    the left one, or one more. *)
Theorem pad_shape (s : str) (width : Z) (align : Ansi.Align) :
  exists l r,
    Ansi.pad s width align = Ansi.spaces l ++ s ++ Ansi.spaces r
    /\ 0 <= l /\ 0 <= r
    /\ l + r = Z.max (width - Z.of_nat (length s)) 0
    /\ Z.of_nat (length (Ansi.pad s width align)) = Z.max (Z.of_nat (length s)) width
    /\ match align with
       | Ansi.AlignLeft => l = 0
       | Ansi.AlignRight => r = 0
       | Ansi.AlignCenter => r = l \/ r = l + 1
       end.
Proof.
  unfold Ansi.pad.
  destruct (Z.of_nat (length s) >=? width) eqn:E.
  - exists 0, 0. cbn. rewrite app_nil_r.
    assert (width <= Z.of_nat (length s)) by lia.
    repeat split; try lia. destruct align; lia.
  - assert (Hlt : Z.of_nat (length s) < width) by lia.
    set (p := width - Z.of_nat (length s)).
    assert (Hp : 0 < p) by (unfold p; lia).
    destruct align.
    + exists 0, p. cbn. repeat split; try lia.
      rewrite length_app, Nat2Z.inj_add, spaces_length. lia.
    + exists p, 0. rewrite app_nil_r. repeat split; try lia.
      rewrite length_app, Nat2Z.inj_add, spaces_length. lia.
    + exists (p / 2), (p - p / 2).
      assert (H2 : 0 <= p / 2) by (apply Z.div_pos; lia).
      assert (H3 : 2 * (p / 2) <= p) by (apply Z.mul_div_le; lia).
      assert (H4 : p < 2 * (p / 2) + 2).
      { pose proof (Z.mod_pos_bound p 2 ltac:(lia)).
        pose proof (Z.div_mod p 2 ltac:(lia)). lia. }
      repeat split; try lia.
      rewrite !length_app, !Nat2Z.inj_add, !spaces_length. lia.
Qed.

(** X4: a cell of a port row, [pad(truncate(text, width), width)], is
    exactly [width] characters long as soon as the width leaves room for
    the ellipsis, whatever the text: the process, type and user columns
    of a row have a fixed width. *)
Theorem cell_width (text : str) (width : Z) (align : Ansi.Align) :
  3 <= width ->
  Z.of_nat (length (Ansi.cell text width align)) = width.
Proof.
  intros Hw. unfold Ansi.cell.
  rewrite pad_length, truncate_length by (cbn; lia). lia.
Qed.

Lemma cell_width_witness :
  Z.of_nat (length (Ansi.cell (lit "a-very-long-process-name") 19 Ansi.AlignLeft)) = 19.
Proof. apply cell_width. lia. Defined.

(** ** Kill statistics *)

Lemma own_set_same key v o : Stats.own key (Stats.obj_set key v o) = Some v.
Proof.
  induction o as [| [k x] r IH]; cbn.
  - now rewrite str_eqb_refl.
  - destruct (str_eqb k key) eqn:E; cbn; rewrite E; auto.
Qed.

Lemma own_set_other key key' v o :
  str_eqb key key' = false ->
  Stats.own key' (Stats.obj_set key v o) = Stats.own key' o.
Proof.
  intros Hne. induction o as [| [k x] r IH]; cbn.
  - now rewrite Hne.
  - destruct (str_eqb k key) eqn:E; cbn.
    + apply str_eqb_eq in E. subst k. now rewrite Hne.
    + destruct (str_eqb k key'); auto.
Qed.

Lemma str_eqb_false a b : str_eqb a b = false <-> a <> b.
Proof.
  split.
  - intros H E. apply str_eqb_eq in E. congruence.
  - intros H. destruct (str_eqb a b) eqn:E; [apply str_eqb_eq in E; contradiction | easy].
Qed.

Lemma str_eqb_sym a b : str_eqb a b = str_eqb b a.
Proof.
  destruct (str_eqb a b) eqn:E.
  - apply str_eqb_eq in E. subst. now rewrite str_eqb_refl.
  - symmetry. apply str_eqb_false. apply str_eqb_false in E. congruence.
Qed.

Lemma port_key_prefix p : startsWith (lit "port:") (Stats.port_key p) = true.
Proof. reflexivity. Qed.

(** No member of [Object.prototype] has a name that starts with
    [port:]. *)
Lemma port_key_not_inherited key :
  startsWith (lit "port:") key = true -> Stats.inherited key = false.
Proof.
  intros H. unfold Stats.inherited, Stats.object_prototype_keys.
  cbn [existsb].
  repeat match goal with
         | |- context [str_eqb key (lit ?n)] =>
             let E := fresh "E" in
             destruct (str_eqb key (lit n)) eqn:E;
             [apply str_eqb_eq in E; subst key; discriminate H |]
         end.
  reflexivity.
Qed.

(** Where the key is no inherited name, [obj[key] || 0] is the counter
    stored, or 0. *)
Lemma count_of_counter key o :
  Stats.inherited key = false ->
  Stats.count_of key o = Stats.Known (default 0 (Stats.own key o)).
Proof.
  intros H. unfold Stats.count_of. rewrite H. now destruct (Stats.own key o).
Qed.

Lemma type_is_no_port portInfo :
  plain_type portInfo ->
  str_eqb (Stats.type_key portInfo) (Stats.port_key (port portInfo)) = false.
Proof.
  intros [Hplain _]. apply str_eqb_false. intros E.
  rewrite E in Hplain. now rewrite port_key_prefix in Hplain.
Qed.

Lemma record_updated stats portInfo force now :
  plain_type portInfo ->
  Stats.record stats portInfo force now = Stats.Known (updated stats portInfo force now).
Proof.
  intros Hplain. pose proof (type_is_no_port portInfo Hplain) as Hne.
  destruct Hplain as [_ Hown].
  unfold Stats.record, updated, counter.
  rewrite (count_of_counter _ _ Hown).
  rewrite count_of_counter by (apply port_key_not_inherited, port_key_prefix).
  rewrite own_set_other by exact Hne. reflexivity.
Qed.

Lemma updated_counts (stats : KillStats) (portInfo : PortInfo) (force : bool) (now : Z) :
  plain_type portInfo ->
  let stats' := updated stats portInfo force now in
  totalKills stats' = totalKills stats + 1
  /\ counter (Stats.type_key portInfo) stats'
     = counter (Stats.type_key portInfo) stats + 1
  /\ counter (Stats.port_key (port portInfo)) stats'
     = counter (Stats.port_key (port portInfo)) stats + 1
  /\ (forall key, key <> Stats.type_key portInfo ->
                  key <> Stats.port_key (port portInfo) ->
                  counter key stats' = counter key stats)
  /\ lastKillTimestamp stats' = Some now
  /\ (forall t, firstKillTimestamp stats = Some t -> t <> 0 ->
                firstKillTimestamp stats' = Some t)
  /\ forceKills stats' = forceKills stats + (if force then 1 else 0).
Proof.
  intros Hplain stats'. subst stats'.
  pose proof (type_is_no_port portInfo Hplain) as Hne.
  unfold updated, counter. cbn [totalKills killsByType lastKillTimestamp
                                 firstKillTimestamp forceKills].
  split; [reflexivity |].
  split.
  { rewrite own_set_other by (now rewrite str_eqb_sym).
    now rewrite own_set_same. }
  split.
  { now rewrite own_set_same. }
  split.
  { intros key H1 H2.
    rewrite !own_set_other by (apply str_eqb_false; congruence).
    reflexivity. }
  split; [reflexivity |].
  split.
  { intros t Ht Hnz. rewrite Ht. cbn.
    destruct (t =? 0) eqn:E; [lia | reflexivity]. }
  destruct force; lia.
Qed.

(** X5: when the statistics file is absent, unreadable, or holds
    statistics as [saveStats] writes them, and the category of the port
    is a plain name (it does not start with [port:] and is no member of
    [Object.prototype]), [recordKill] returns: on top of the statistics
    it loads, the kill adds one to the total, one to the counter of the
    category and one to the counter of the port, leaves every other
    counter alone, stamps the kill as the last one, keeps a first time
    stamp that is set, and counts a forced kill as such. *)
Theorem recordKill_counts (env : Env) (stats_file : list Event -> Stats.Typed KillStats)
    (portInfo : PortInfo) (force : bool) (w : World) (stats : KillStats) :
  stats_file (trace w) = Stats.Known stats ->
  plain_type portInfo ->
  exists stats' now,
    fst (Stats.recordKill env stats_file portInfo force w) = Ok (Stats.Known stats')
    /\ totalKills stats' = totalKills stats + 1
    /\ counter (Stats.type_key portInfo) stats'
       = counter (Stats.type_key portInfo) stats + 1
    /\ counter (Stats.port_key (port portInfo)) stats'
       = counter (Stats.port_key (port portInfo)) stats + 1
    /\ (forall key, key <> Stats.type_key portInfo ->
                    key <> Stats.port_key (port portInfo) ->
                    counter key stats' = counter key stats)
    /\ lastKillTimestamp stats' = Some now
    /\ (forall t, firstKillTimestamp stats = Some t -> t <> 0 ->
                  firstKillTimestamp stats' = Some t)
    /\ forceKills stats' = forceKills stats + (if force then 1 else 0).
Proof.
  intros Hfile Hplain.
  unfold Stats.recordKill, Stats.loadStats.
  unfold mbind at 1, M_bind at 1. rewrite Hfile.
  unfold mbind at 1, M_bind at 1, get_state at 1. cbn [trace].
  rewrite record_updated by exact Hplain.
  eexists. eexists. split; [reflexivity |].
  apply updated_counts. exact Hplain.
Qed.

Lemma recordKill_counts_witness :
  exists stats',
    fst (Stats.recordKill env_demo (fun _ => Stats.Known stats_after_two)
           (fst (fst (kill_of 3000 "api"))) true (mkWorld [] []))
    = Ok (Stats.Known stats')
    /\ totalKills stats' = 3
    /\ counter (lit "port:3000") stats' = 3.
Proof.
  destruct (recordKill_counts env_demo (fun _ => Stats.Known stats_after_two)
              (fst (fst (kill_of 3000 "api"))) true (mkWorld [] []) stats_after_two)
    as (stats' & now & Hrun & Htotal & _ & Hport & _).
  - reflexivity.
  - split; vm_compute; reflexivity.
  - exists stats'. split; [exact Hrun |]. split; [exact Htotal | exact Hport].
Defined.

Lemma updated_keeps_most_killed stats portInfo force now :
  plain_type portInfo -> most_killed_ok stats ->
  most_killed_ok (updated stats portInfo force now).
Proof.
  intros Hplain [Hbound Hmost].
  pose proof (type_is_no_port portInfo Hplain) as Hne.
  destruct Hplain as [Hplain _].
  unfold most_killed_ok, updated, counter in *.
  cbn [killsByType mostKilledPortCount mostKilledPort].
  pose proof (port_key_prefix (port portInfo)) as Hpk.
  set (tk := Stats.type_key portInfo) in *.
  set (pk := Stats.port_key (port portInfo)) in *.
  clearbody tk.
  set (byType := Stats.obj_set tk _ (killsByType stats)).
  assert (Hold : forall key, startsWith (lit "port:") key = true ->
                 Stats.own key byType = Stats.own key (killsByType stats)).
  { intros key Hk. apply own_set_other. apply str_eqb_false. intros E.
    rewrite E in Hplain. congruence. }
  set (c := default 0 (Stats.own pk (killsByType stats))) in *.
  assert (Hc : c <= mostKilledPortCount stats) by (apply Hbound, Hpk).
  destruct (c + 1 >? mostKilledPortCount stats) eqn:Hmore.
  - split.
    + intros key Hk. destruct (str_eqb pk key) eqn:E.
      * apply str_eqb_eq in E. subst key. rewrite own_set_same. cbn. lia.
      * rewrite own_set_other, Hold by assumption.
        specialize (Hbound key Hk). lia.
    + right. now rewrite own_set_same.
  - split.
    + intros key Hk. destruct (str_eqb pk key) eqn:E.
      * apply str_eqb_eq in E. subst key. rewrite own_set_same. cbn. lia.
      * rewrite own_set_other, Hold by assumption. auto.
    + destruct Hmost as [Hz | Hm]; [left; exact Hz | right].
      destruct (str_eqb pk (Stats.port_key (mostKilledPort stats))) eqn:E.
      * apply str_eqb_eq in E. rewrite <- E in Hm. fold c in Hm. lia.
      * rewrite own_set_other, Hold by (assumption || apply port_key_prefix).
        exact Hm.
Qed.

(** X6: take any series of kills of ports whose category is a plain
    name (it does not start with [port:] and is no member of
    [Object.prototype]), each recorded on top of the statistics the
    previous one left, from the default statistics on.  The result is
    again statistics; its total is the number of kills; no per-port
    counter exceeds [mostKilledPortCount]; and once that count is
    positive it is the counter of [mostKilledPort]: the port shown as
    most killed is one that was killed most often. *)
Theorem record_all_most_killed (kills : list (PortInfo * bool * Z)) :
  Forall (fun k => plain_type (fst (fst k))) kills ->
  exists stats,
    Stats.record_all kills Stats.getDefaultStats = Stats.Known stats
    /\ totalKills stats = Z.of_nat (length kills)
    /\ most_killed_ok stats.
Proof.
  intros Hall. unfold Stats.record_all.
  assert (Hgen : forall s,
            most_killed_ok s ->
            exists stats,
              fold_left (fun s k =>
                           match s with
                           | Stats.Known s =>
                               Stats.record s (fst (fst k)) (snd (fst k)) (snd k)
                           | Stats.Untyped => Stats.Untyped
                           end) kills (Stats.Known s) = Stats.Known stats
              /\ totalKills stats = totalKills s + Z.of_nat (length kills)
              /\ most_killed_ok stats).
  { induction Hall as [| k kills Hk Hks IH]; intros s Hs.
    - exists s. cbn. split; [reflexivity |]. split; [lia | exact Hs].
    - cbn [fold_left]. rewrite record_updated by exact Hk.
      destruct (IH (updated s (fst (fst k)) (snd (fst k)) (snd k)))
        as (stats & Hrun & Ht & Hm).
      + now apply updated_keeps_most_killed.
      + exists stats. split; [exact Hrun |]. split; [| exact Hm].
        rewrite Ht. cbn [length updated totalKills]. lia. }
  destruct (Hgen Stats.getDefaultStats) as (stats & Hrun & Ht & Hm).
  - split; [intros key _; cbn; lia | left; reflexivity].
  - exists stats. split; [exact Hrun |]. split; [rewrite Ht; cbn; lia | exact Hm].
Qed.

Lemma record_all_most_killed_witness :
  exists stats,
    Stats.record_all [kill_of 3000 "api"; kill_of 8080 "api"; kill_of 3000 "api"]
                     Stats.getDefaultStats = Stats.Known stats
    /\ totalKills stats = 3 /\ most_killed_ok stats.
Proof.
  apply (record_all_most_killed [kill_of 3000 "api"; kill_of 8080 "api"; kill_of 3000 "api"]).
  repeat constructor.
Defined.

(** ** [Array.prototype.sort] with a comparator that is an order *)

Lemma insert_sorted_perm {A} (cmp : A -> A -> Z) x l :
  Permutation (insert_sorted cmp x l) (x :: l).
Proof.
  induction l as [| y r IH]; cbn; [reflexivity |].
  destruct (cmp x y <=? 0); [reflexivity |].
  rewrite IH. apply perm_swap.
Qed.

Lemma sort_perm {A} (cmp : A -> A -> Z) l : Permutation (sort cmp l) l.
Proof.
  induction l as [| x r IH]; cbn; [reflexivity |].
  unfold sort in IH. rewrite insert_sorted_perm. now constructor.
Qed.

Section KeyOrder.
  Context {A : Type} (cmp : A -> A -> Z) (key : A -> Z) (P : A -> Prop).
Hypothesis cmp_key : forall a b, P a -> P b -> (cmp a b <= 0 <-> key a <= key b).

Lemma insert_sorted_sorted x l :
    P x -> Forall P l ->
    StronglySorted (key_le key) l -> StronglySorted (key_le key) (insert_sorted cmp x l).
  Proof.
    intros Hx Hl. induction 1 as [| y r Hr IH Hy]; cbn.
    - repeat constructor.
    - apply List.Forall_cons_iff in Hl. destruct Hl as [Hpy Hpr].
      destruct (cmp x y <=? 0) eqn:E.
      + apply Z.leb_le, cmp_key in E; [| assumption | assumption].
        constructor; [now constructor |].
        constructor; [exact E |].
        eapply List.Forall_impl; [| exact Hy]. unfold key_le in *. intros; lia.
      + apply Z.leb_gt in E.
        assert (Hyx : key y <= key x).
        { destruct (Z.le_gt_cases (key x) (key y)) as [H | H]; [| lia].
          apply cmp_key in H; [lia | assumption | assumption]. }
        constructor; [now apply IH |].
        eapply Permutation_Forall; [symmetry; apply insert_sorted_perm |].
        constructor; [exact Hyx | exact Hy].
  Qed.

Lemma sort_sorted l : Forall P l -> StronglySorted (key_le key) (sort cmp l).
  Proof.
    induction 1 as [| x r Hx Hr IH]; cbn; [constructor |].
    apply insert_sorted_sorted; auto.
    eapply Permutation_Forall; [symmetry; apply sort_perm | exact Hr].
  Qed.
End KeyOrder.

(** ** Port categories *)

Lemma detectByPort_cons t rest p :
  TypeDetector.detectByPort (t :: rest) p
  = if covers t p then Some (TypeDetector.name t) else TypeDetector.detectByPort rest p.
Proof.
  unfold covers. cbn [TypeDetector.detectByPort].
  destruct (str_eqb (TypeDetector.name t) (lit "other")); [reflexivity |].
  destruct (match TypeDetector.ports t with
            | Some ps => TypeDetector.includes_port ps p | None => false end);
    [reflexivity |].
  destruct (match TypeDetector.portRanges t with
            | Some ranges => existsb (TypeDetector.in_range p) ranges
            | None => false end); reflexivity.
Qed.

Lemma detectByPort_none types p :
  TypeDetector.detectByPort types p = None
  <-> forall preset, In preset types -> covers preset p = false.
Proof.
  induction types as [| t rest IH].
  - split; [intros _ q [] | reflexivity].
  - rewrite detectByPort_cons. destruct (covers t p) eqn:Ec.
    + split; [discriminate |]. intros H.
      specialize (H t (or_introl eq_refl)). congruence.
    + rewrite IH. split.
      * intros H q [<- | Hq]; auto.
      * intros H q Hq. apply H. now right.
Qed.

Lemma detectByPort_first types p n :
  TypeDetector.detectByPort types p = Some n ->
  exists before preset after,
    types = before ++ preset :: after
    /\ TypeDetector.name preset = n
    /\ covers preset p = true
    /\ forall q, In q before -> covers q p = false.
Proof.
  induction types as [| t rest IH]; [discriminate |].
  rewrite detectByPort_cons. destruct (covers t p) eqn:Ec.
  - intros [= <-]. exists [], t, rest. repeat split; auto. intros q [].
  - intros Hr. destruct (IH Hr) as (b & x & a & -> & Hn & Hx & Hb).
    exists (t :: b), x, a. repeat split; auto.
    intros q [<- | Hq]; auto.
Qed.

(** X7: a detector built from any list of presets classifies a port
    number by a preset that covers it (lists it, or has a range that
    contains it, and is not the preset [other]) and that has the highest
    priority among the presets that cover it, in whatever order the
    configuration gives them; it answers [null] exactly when no preset
    covers the port number. *)
Theorem detectByPort_highest_priority (types : list TypeDetector.TypePreset) (p : num) :
  let detector := TypeDetector.new_detector types in
  (TypeDetector.detectByPort detector p = None
   <-> forall preset, In preset types -> covers preset p = false)
  /\ forall n,
       TypeDetector.detectByPort detector p = Some n ->
       exists preset,
         In preset types
         /\ TypeDetector.name preset = n
         /\ covers preset p = true
         /\ forall q, In q types -> covers q p = true ->
                      TypeDetector.priority_of q <= TypeDetector.priority_of preset.
Proof.
  intros detector.
  assert (Hperm : Permutation detector types) by apply sort_perm.
  assert (Hsorted : StronglySorted (key_le (fun t => - TypeDetector.priority_of t)) detector).
  { apply (sort_sorted _ _ (fun _ => True)); [intros a b _ _; lia |].
    apply List.Forall_forall. auto. }
  split.
  - rewrite detectByPort_none. split; intros H q Hq; apply H.
    + now rewrite Hperm.
    + now rewrite <- Hperm.
  - intros n Hn.
    destruct (detectByPort_first _ _ _ Hn) as (before & preset & after & Hsplit & Hname & Hc & Hb).
    exists preset. repeat split; auto.
    + rewrite <- Hperm, Hsplit. apply in_elt.
    + intros q Hq Hcq. rewrite <- Hperm, Hsplit in Hq.
      rewrite Hsplit in Hsorted.
      apply in_app_or in Hq. destruct Hq as [Hq | [<- | Hq]].
      * rewrite (Hb q Hq) in Hcq. discriminate.
      * lia.
      * clear - Hsorted Hq.
        induction before as [| b before IH]; cbn in Hsorted.
        -- apply StronglySorted_inv in Hsorted. destruct Hsorted as [_ Hall].
           rewrite List.Forall_forall in Hall. specialize (Hall q Hq).
           unfold key_le in Hall. lia.
        -- apply StronglySorted_inv in Hsorted. now apply IH.
Qed.

Lemma lower_upper c : Dashboard.lower (Windows.upper c) = Dashboard.lower c.
Proof.
  destruct c as [[] [] [] [] [] [] [] []]; reflexivity.
Qed.

Lemma toLowerCase_toUpperCase s :
  Dashboard.toLowerCase (Windows.toUpperCase s) = Dashboard.toLowerCase s.
Proof.
  unfold Dashboard.toLowerCase, Windows.toUpperCase.
  rewrite map_map. apply map_ext, lower_upper.
Qed.

(** X8: matching by command is blind to the case of ASCII letters: a
    command line and process name in upper case are classified as the
    originals are, and so is a configuration whose patterns are written
    in upper case. *)
Theorem detectByCommand_ignores_case (types : list TypeDetector.TypePreset)
    (command processName : str) :
  TypeDetector.detectByCommand types (Windows.toUpperCase command)
                               (Windows.toUpperCase processName)
  = TypeDetector.detectByCommand types command processName
  /\ forall patterns searchText,
       TypeDetector.any_pattern (option_map (List.map Windows.toUpperCase) patterns) searchText
       = TypeDetector.any_pattern patterns searchText.
Proof.
  split.
  - unfold TypeDetector.detectByCommand. f_equal.
    rewrite <- (toLowerCase_toUpperCase (command ++ lit " " ++ processName)).
    f_equal. unfold Windows.toUpperCase. now rewrite !map_app.
  - intros [l |] searchText; cbn; [| reflexivity].
    induction l as [| x r IH]; cbn; [reflexivity |].
    now rewrite toLowerCase_toUpperCase, IH.
Qed.

(** ** The command line *)

Lemma parse_positional argv : forall command args,
  Forall (fun arg => startsWith (lit "-") arg = false) argv ->
  Cli.parse argv (Cli.mkParsed command Cli.no_options args)
  = match command with
    | Some c => Cli.mkParsed (Some c) Cli.no_options (args ++ argv)
    | None =>
        Cli.mkParsed (if existsb (fun arg => str_eqb arg (lit "kill")) argv
                      then Some (lit "kill") else None)
                     Cli.no_options
                     (args ++ remove_first (lit "kill") argv)
    end.
Proof.
  induction argv as [| arg rest IH]; intros command args Hall.
  - cbn. rewrite app_nil_r. now destruct command.
  - inversion Hall as [| ? ? Harg Hrest]; subst.
    assert (Hflag : forall names,
              Forall (fun n => startsWith (lit "-") (lit n) = true) names ->
              Cli.is_one_of names arg = false).
    { intros names Hn. unfold Cli.is_one_of.
      induction Hn as [| n names Hd _ IHn]; cbn; [reflexivity |].
      rewrite IHn, orb_false_r.
      destruct (str_eqb arg (lit n)) eqn:E; [| reflexivity].
      apply str_eqb_eq in E. congruence. }
    cbn [Cli.parse].
    rewrite !Hflag by (repeat constructor).
    rewrite Harg. cbn [negb Cli.cli_command Cli.cli_options Cli.cli_args].
    destruct command as [c |].
    + rewrite IH by assumption. now rewrite <- app_assoc.
    + cbn [existsb remove_first].
      destruct (str_eqb arg (lit "kill")) eqn:Ek.
      * rewrite IH by assumption. cbn [orb].
        apply str_eqb_eq in Ek. now subst arg.
      * rewrite IH by assumption. cbn [orb]. now rewrite <- app_assoc.
Qed.

(** X9: on a command line none of whose words starts with a dash,
    [parseArgs] sets no option; the command is [kill] exactly when the
    word [kill] occurs, and the positional arguments are all the other
    words in their order, a second [kill] included. *)
Theorem parseArgs_positional (argv : list str) :
  Forall (fun arg => startsWith (lit "-") arg = false) argv ->
  Cli.cli_options (Cli.parseArgs argv) = Cli.no_options
  /\ Cli.cli_command (Cli.parseArgs argv)
     = (if existsb (fun arg => str_eqb arg (lit "kill")) argv
        then Some (lit "kill") else None)
  /\ Cli.cli_args (Cli.parseArgs argv) = remove_first (lit "kill") argv.
Proof.
  intros Hall. unfold Cli.parseArgs.
  rewrite parse_positional by assumption. cbn. auto.
Qed.

Lemma parseArgs_positional_witness :
  Cli.cli_command (Cli.parseArgs [lit "3000"; lit "kill"; lit "kill"])
  = Some (lit "kill")
  /\ Cli.cli_args (Cli.parseArgs [lit "3000"; lit "kill"; lit "kill"])
     = [lit "3000"; lit "kill"].
Proof.
  destruct (parseArgs_positional [lit "3000"; lit "kill"; lit "kill"]) as (_ & Hc & Ha).
  - repeat constructor.
  - split; [exact Hc | exact Ha].
Defined.

(** [killPortByNumber] always resolves; it reports a success exactly when
    its list of killed processes is not empty, and the first thing it
    does is to run the detector. *)
Lemma killPortByNumber_total env platform p force w :
  exists rep w' evs,
    PortActions.killPortByNumber env platform p force w = (Ok rep, w')
    /\ (PortActions.success rep = true <-> PortActions.killed rep <> [])
    /\ trace w' = trace w ++ Call (lit "detectPorts") :: evs.
Proof.
  unfold PortActions.killPortByNumber, try_catch, PortActions.detectPorts.
  unfold mbind at 1, M_bind at 1.
  destruct (detect_result env (trace w)) as [ports | e] eqn:Hd.
  2:{ do 2 eexists. exists []. split; [reflexivity |].
      cbn. split; [split; [discriminate | congruence] | reflexivity]. }
  set (matching := PortActions.matchingPorts p ports).
  destruct (length matching =? 0)%nat eqn:Hlen.
  - do 2 eexists. exists []. split; [reflexivity |].
    cbn. split; [split; [discriminate | congruence] | reflexivity].
  - destruct (kill_each_spec env platform force matching [] []
                (mkWorld (trace w ++ [Call (lit "detectPorts")]) (errors w)))
      as (w' & evs & Hr & Ht & _ & _).
    unfold mbind, M_bind. rewrite Hr. cbn [app] in *.
    set (killedL := select true matching _) in *.
    set (failedL := select false matching _) in *.
    cbn [trace] in Ht. rewrite app_cons_snoc in Ht.
    destruct (length killedL =? 0)%nat eqn:Hk.
    + do 2 eexists. exists evs. split; [reflexivity |].
      cbn. split; [split; [discriminate | congruence] | exact Ht].
    + assert (Hkne : killedL <> []).
      { intros E. rewrite E in Hk. discriminate. }
      destruct (0 <? length failedL)%nat;
        (do 2 eexists; exists evs; split; [reflexivity |];
         cbn; split; [split; auto | exact Ht]).
Qed.

Lemma log_killed_runs killed : forall t,
  exists lines,
    Cli.log_killed killed t
    = (Ok tt, Cli.mkTerminal (Cli.logged t ++ lines) (Cli.complained t)
                             (Cli.exit_status t) (Cli.os t)).
Proof.
  induction killed as [| q rest IH]; intros t.
  - exists []. cbn. rewrite app_nil_r. now destruct t.
  - cbn [Cli.log_killed].
    unfold mbind, M_bind, Cli.console_log, modify.
    match goal with |- context [Cli.log_killed rest ?t1] =>
      destruct (IH t1) as (lines & ->) end.
    cbn. eexists. rewrite <- app_assoc. reflexivity.
Qed.

(** A port argument that passes the two tests of [handleKillCommand]. *)
Lemma handleKillCommand_runs (env : Env) (platform : Platform)
    (portArg : option str) (force : bool) (t : Cli.Terminal) :
  Cli.missing portArg = false ->
  Cli.invalid_port (parseInt (default [] portArg)) = false ->
  exists t' rep w' evs,
    Cli.handleKillCommand env platform portArg force t = (Ok tt, t')
    /\ PortActions.killPortByNumber env platform (parseInt (default [] portArg)) force
         (Cli.os t) = (Ok rep, w')
    /\ Cli.os t' = w'
    /\ trace w' = trace (Cli.os t) ++ Call (lit "detectPorts") :: evs
    /\ Cli.exit_status t' = Some (if PortActions.success rep then 0 else 1)
    /\ (Cli.exit_status t' = Some 0 <-> PortActions.killed rep <> []).
Proof.
  intros Hm Hi.
  destruct (killPortByNumber_total env platform (parseInt (default [] portArg)) force
              (Cli.os t)) as (rep & w' & evs & Hrun & Hiff & Ht).
  unfold Cli.handleKillCommand. rewrite Hm, Hi.
  unfold mbind at 1, M_bind at 1, Cli.in_os. rewrite Hrun.
  destruct (PortActions.success rep) eqn:Hs.
  - unfold mbind, M_bind, Cli.console_log, Cli.process_exit, modify, when.
    destruct (0 <? length (PortActions.killed rep))%nat.
    + match goal with |- context [Cli.log_killed ?k ?t1] =>
        destruct (log_killed_runs k t1) as (lines & ->) end.
      eexists. exists rep, w', evs. split; [reflexivity |].
      cbn. rewrite ?Hs. repeat split; auto. intros _. now apply Hiff.
    + eexists. exists rep, w', evs. split; [reflexivity |].
      cbn. rewrite ?Hs. repeat split; auto. intros _. now apply Hiff.
  - eexists. exists rep, w', evs. split; [reflexivity |].
    cbn. rewrite ?Hs. repeat split; auto; try discriminate.
    intros Hk. apply Hiff in Hk. congruence.
Qed.









(** X11: given a port argument it accepts, [handleKillCommand] always
    ends the process, with status 0 or 1; the status is 0 exactly when
    [killPortByNumber] killed at least one process, and in either case
    the detector was run first. *)
Theorem handleKillCommand_exit_status (env : Env) (platform : Platform)
    (portArg : option str) (force : bool) (t : Cli.Terminal) :
  refused portArg = false ->
  exists t' rep w' evs,
    Cli.handleKillCommand env platform portArg force t = (Ok tt, t')
    /\ PortActions.killPortByNumber env platform (parseInt (default [] portArg)) force
         (Cli.os t) = (Ok rep, w')
    /\ Cli.os t' = w'
    /\ trace w' = trace (Cli.os t) ++ Call (lit "detectPorts") :: evs
    /\ Cli.exit_status t' = Some (if PortActions.success rep then 0 else 1)
    /\ (Cli.exit_status t' = Some 0 <-> PortActions.killed rep <> []).
Proof.
  unfold refused. intros H. apply orb_false_elim in H. destruct H as [Hm Hi].
  now apply handleKillCommand_runs.
Qed.

Lemma handleKillCommand_exit_status_witness :
  exists t',
    Cli.handleKillCommand env_two_on_80 OtherPlatform (Some (lit "80")) false fresh_terminal
    = (Ok tt, t')
    /\ Cli.exit_status t' = Some 0.
Proof.
  destruct (handleKillCommand_exit_status env_two_on_80 OtherPlatform (Some (lit "80")) false
              fresh_terminal) as (t' & rep & w' & evs & Hrun & Hkill & _ & _ & _ & Hiff).
  - vm_compute. reflexivity.
  - exists t'. split; [exact Hrun |].
    apply Hiff.
    assert (Hrep : fst (PortActions.killPortByNumber env_two_on_80 OtherPlatform
                          (parseInt (default [] (Some (lit "80")))) false
                          (Cli.os fresh_terminal)) = Ok rep) by (now rewrite Hkill).
    vm_compute in Hrep. injection Hrep as <-. discriminate.
Defined.

(** ** Discovery on Unix *)

Section UnixBatch.
Variable env : Env.
Variable policy : CachePolicy.

Lemma check_cache_spec pids : forall result uncachedPids a,
    exists result',
      UnixDiscovery.check_cache env pids result uncachedPids a
      = (Ok (result',
             uncachedPids
             ++ misses (UnixDiscovery.clock env a) (processInfoCache a) pids), a)
      /\ (forall p, In p pids ->
            forall info,
              CacheManager.get (UnixDiscovery.clock env a) p (processInfoCache a) = Some info ->
              result' !! p = Some info)
      /\ (forall p, ~ In p pids -> result' !! p = result !! p)
      /\ (forall p, is_miss (UnixDiscovery.clock env a) (processInfoCache a) p = true ->
                    result' !! p = result !! p).
  Proof.
    induction pids as [| pid rest IH]; intros result uncachedPids a.
    - exists result. cbn. rewrite app_nil_r. repeat split; auto. intros p [].
    - cbn [UnixDiscovery.check_cache].
      unfold mbind at 1, M_bind at 1, UnixDiscovery.cached at 1.
      unfold misses. cbn [List.filter]. unfold is_miss at 1.
      destruct (CacheManager.get (UnixDiscovery.clock env a) pid (processInfoCache a))
        as [info |] eqn:Hget.
      + destruct (IH (<[pid := info]> result) uncachedPids a) as (r' & Hrun & Hhit & Hout & Hmiss).
        exists r'. split; [exact Hrun |]. repeat split.
        * intros p [<- | Hp] i Hi; [| now apply Hhit].
          destruct (in_dec (fun x y : option Z => decide (x = y)) pid rest) as [Hin | Hnin].
          -- now apply Hhit.
          -- rewrite Hout by exact Hnin. rewrite lookup_insert_eq. congruence.
        * intros p Hp. destruct (decide (pid = p)) as [-> | Hne].
          -- exfalso. apply Hp. now left.
          -- destruct (in_dec (fun x y : option Z => decide (x = y)) p rest) as [Hin | Hnin].
             ++ exfalso. apply Hp. now right.
             ++ rewrite Hout by exact Hnin. now rewrite lookup_insert_ne.
        * intros p Hp. rewrite Hmiss by exact Hp.
          destruct (decide (pid = p)) as [-> | Hne]; [| now rewrite lookup_insert_ne].
          unfold is_miss in Hp. now rewrite Hget in Hp.
      + destruct (IH result (uncachedPids ++ [pid]) a) as (r' & Hrun & Hhit & Hout & Hmiss).
        exists r'. rewrite Hrun, <- app_assoc. split; [reflexivity |]. repeat split.
        * intros p [<- | Hp] i Hi; [congruence | now apply Hhit].
        * intros p Hp. apply Hout. intros Hin. apply Hp. now right.
        * exact Hmiss.
  Qed.

Lemma fill_spec uncachedPids processInfoMap cwdMap : forall result a,
    exists result' a',
      UnixDiscovery.fill env policy uncachedPids processInfoMap cwdMap result a
      = (Ok result', a')
      /\ world a' = world a
      /\ (forall p, In p uncachedPids ->
            result' !! p = Some (UnixDiscovery.combine processInfoMap cwdMap p))
      /\ (forall p, ~ In p uncachedPids -> result' !! p = result !! p).
  Proof.
    induction uncachedPids as [| pid rest IH]; intros result a.
    - exists result, a. cbn. repeat split; auto. intros p [].
    - cbn [UnixDiscovery.fill].
      unfold mbind, M_bind, UnixDiscovery.store, modify.
      match goal with |- context [UnixDiscovery.fill _ _ _ _ _ ?r ?a1] =>
        destruct (IH r a1) as (r' & a' & Hrun & Hw & Hin & Hout) end.
      exists r', a'. rewrite Hrun. split; [reflexivity |]. repeat split.
      + exact Hw.
      + intros p [<- | Hp]; [| now apply Hin].
        destruct (in_dec (fun x y : option Z => decide (x = y)) pid rest) as [H | H].
        * now apply Hin.
        * rewrite Hout by exact H. apply lookup_insert_eq.
      + intros p Hp. rewrite Hout by (intros H; apply Hp; now right).
        apply lookup_insert_ne. intros ->. apply Hp. now left.
  Qed.

Lemma or_unknown_truthy s : truthy (Unix.or_unknown s) = true.
  Proof. unfold Unix.or_unknown. destruct (truthy s) eqn:E; [exact E | reflexivity]. Qed.

Lemma combine_command processInfoMap cwdMap p :
    truthy (pi_command (UnixDiscovery.combine processInfoMap cwdMap p)) = true.
  Proof.
    unfold UnixDiscovery.combine. cbn.
    destruct (processInfoMap !! p); [apply or_unknown_truthy | reflexivity].
  Qed.

  (** What the two lookups do to the adapter: one command each, unless
      there is no pid. *)
Lemma getBatchProcessInfoFromPs_runs pids a :
    pids <> [] ->
    exists m,
      UnixDiscovery.getBatchProcessInfoFromPs env pids a
      = (Ok m, record_event (Spawn (UnixDiscovery.ps_batch pids)) a).
  Proof.
    intros Hne. unfold UnixDiscovery.getBatchProcessInfoFromPs.
    destruct pids as [| p rest]; [contradiction |]. cbn [length Nat.eqb].
    unfold try_catch, mbind, M_bind, spawnProcess.
    destruct (spawn_result env (trace (world a)) (UnixDiscovery.ps_batch (p :: rest)));
      eexists; reflexivity.
  Qed.

Lemma getBatchProcessCWD_runs pids a :
    pids <> [] ->
    exists m,
      UnixDiscovery.getBatchProcessCWD env pids a
      = (Ok m, record_event (Spawn (UnixDiscovery.lsof_cwd pids)) a).
  Proof.
    intros Hne. unfold UnixDiscovery.getBatchProcessCWD.
    destruct pids as [| p rest]; [contradiction |]. cbn [length Nat.eqb].
    unfold try_catch, mbind, M_bind, spawnProcess.
    destruct (spawn_result env (trace (world a)) (UnixDiscovery.lsof_cwd (p :: rest)));
      eexists; reflexivity.
  Qed.

Lemma getBatchProcessInfo_spec pids a :
    let now := UnixDiscovery.clock env a in
    let cache := cache_cleanup policy now (processInfoCache a) in
    exists batch a',
      UnixDiscovery.getBatchProcessInfo env policy pids a = (Ok batch, a')
      /\ (forall p, In p pids ->
            match CacheManager.get now p cache with
            | Some info => batch !! p = Some info
            | None => exists info, batch !! p = Some info
                                   /\ truthy (pi_command info) = true
            end)
      /\ (forall p, ~ In p pids -> batch !! p = None)
      /\ trace (world a') = trace (world a) ++ batch_commands (misses now cache pids)
      /\ errors (world a') = errors (world a).
  Proof.
    intros now cache.
    unfold UnixDiscovery.getBatchProcessInfo.
    unfold mbind at 1, M_bind at 1, UnixDiscovery.cleanup at 1, modify at 1.
    set (a1 := mkAdapter _ (world a)).
    assert (Hclock : UnixDiscovery.clock env a1 = now) by reflexivity.
    destruct (check_cache_spec pids ∅ [] a1) as (r1 & Hrun & Hhit & Hout & Hmiss).
    unfold mbind at 1, M_bind at 1. rewrite Hrun. cbn [app].
    rewrite Hclock in *. change (processInfoCache a1) with cache in *.
    set (un := misses now cache pids) in *.
    assert (Hun : forall p, In p un <-> In p pids /\ is_miss now cache p = true).
    { intros p. unfold un, misses. apply filter_In. }
    destruct un as [| u rest] eqn:Eun.
    - cbn [length Nat.eqb].
      exists r1, a1. split; [reflexivity |]. repeat split.
      + intros p Hp. destruct (CacheManager.get now p cache) as [info |] eqn:Hget.
        * now apply Hhit.
        * exfalso. apply (proj2 (Hun p)). split; [exact Hp |].
          unfold is_miss. now rewrite Hget.
      + intros p Hp. rewrite Hout by exact Hp. apply lookup_empty.
      + cbn. now rewrite app_nil_r.
    - cbn [length Nat.eqb]. rewrite <- Eun in *.
      assert (Hne : un <> []) by (rewrite Eun; discriminate).
      destruct (getBatchProcessInfoFromPs_runs un a1 Hne) as (pm & Hps).
      unfold mbind at 1, M_bind at 1. rewrite Hps.
      destruct (getBatchProcessCWD_runs un
                  (record_event (Spawn (UnixDiscovery.ps_batch un)) a1) Hne) as (cm & Hcwd).
      unfold mbind at 1, M_bind at 1. rewrite Hcwd.
      match goal with |- context [UnixDiscovery.fill _ _ _ _ _ _ ?a2] =>
        destruct (fill_spec un pm cm r1 a2) as (r2 & a3 & Hfill & Hw & Hin & Hnin) end.
      exists r2, a3. split; [exact Hfill |]. repeat split.
      + intros p Hp. destruct (CacheManager.get now p cache) as [info |] eqn:Hget.
        * rewrite Hnin; [now apply Hhit |].
          intros Hu. apply Hun in Hu. destruct Hu as [_ Hu].
          unfold is_miss in Hu. now rewrite Hget in Hu.
        * exists (UnixDiscovery.combine pm cm p). split; [| apply combine_command].
          apply Hin, Hun. split; [exact Hp |]. unfold is_miss. now rewrite Hget.
      + intros p Hp. rewrite Hnin.
        * rewrite Hout by exact Hp. apply lookup_empty.
        * intros Hu. apply Hun in Hu. tauto.
      + rewrite Hw. cbn. rewrite Eun. cbn. rewrite <- app_assoc. reflexivity.
      + rewrite Hw. reflexivity.
  Qed.
End UnixBatch.

(** X12: a batch resolution never fails and answers for every pid it
    was asked about, and for no other: with the entry of the cache when
    the cache still holds one, and otherwise with a freshly built entry
    whose command is never empty (["unknown"] stands in when [ps] gave
    nothing for the pid, or could not be run). *)
Theorem getBatchProcessInfo_answers_every_pid (env : Env) (policy : CachePolicy)
    (pids : list num) (a : AdapterState) :
  let now := UnixDiscovery.clock env a in
  let cache := cache_cleanup policy now (processInfoCache a) in
  exists batch a',
    UnixDiscovery.getBatchProcessInfo env policy pids a = (Ok batch, a')
    /\ (forall p, In p pids ->
          match CacheManager.get now p cache with
          | Some info => batch !! p = Some info
          | None => exists info, batch !! p = Some info
                                 /\ truthy (pi_command info) = true
          end)
    /\ (forall p, ~ In p pids -> batch !! p = None).
Proof.
  intros now cache.
  destruct (getBatchProcessInfo_spec env policy pids a) as (batch & a' & Hrun & Hin & Hout & _).
  exists batch, a'. auto.
Qed.

Lemma misses_nil now cache pids :
  (forall p, In p pids -> CacheManager.get now p cache <> None) ->
  misses now cache pids = [].
Proof.
  unfold misses. induction pids as [| p rest IH]; intros Hall; [reflexivity |].
  cbn. unfold is_miss at 1.
  destruct (CacheManager.get now p cache) eqn:E.
  - apply IH. intros q Hq. apply Hall. now right.
  - exfalso. apply (Hall p); [now left | exact E].
Qed.

(** X13: a batch resolution runs no command at all when the cache
    answers for every pid (in particular for an empty list), and
    otherwise exactly two, whatever the number of pids: one [ps] and one
    [lsof], each naming all the pids the cache did not answer for;
    nothing is logged. *)
Theorem getBatchProcessInfo_batches (env : Env) (policy : CachePolicy)
    (pids : list num) (a : AdapterState) :
  let now := UnixDiscovery.clock env a in
  let cache := cache_cleanup policy now (processInfoCache a) in
  let a' := snd (UnixDiscovery.getBatchProcessInfo env policy pids a) in
  trace (world a') = trace (world a) ++ batch_commands (misses now cache pids)
  /\ errors (world a') = errors (world a)
  /\ ((forall p, In p pids -> CacheManager.get now p cache <> None) ->
      world a' = world a).
Proof.
  intros now cache a'. subst a'.
  destruct (getBatchProcessInfo_spec env policy pids a) as (batch & a' & Hrun & _ & _ & Ht & He).
  rewrite Hrun. cbn [snd]. fold now cache in Ht.
  split; [exact Ht | split; [exact He |]].
  intros Hall.
  rewrite (misses_nil _ _ _ Hall) in Ht. cbn in Ht. rewrite app_nil_r in Ht.
  destruct (world a'), (world a). cbn in *. congruence.
Qed.

Lemma same_value_eq (x y : num) : same_value x y = true <-> x = y.
Proof.
  destruct x, y; cbn; try (split; congruence).
  rewrite Z.eqb_eq. split; congruence.
Qed.

Lemma uniquePids_In ports q : In q ports -> In (pid q) (Unix.uniquePids ports).
Proof.
  unfold Unix.uniquePids.
  set (add := fun (seen : list num) (p : PortInfo) =>
                if existsb (same_value (pid p)) seen then seen else seen ++ [pid p]).
  assert (Hkeep : forall l seen x, In x seen -> In x (fold_left add l seen)).
  { induction l as [| p l IH]; intros seen x Hx; cbn; [exact Hx |].
    apply IH. unfold add. destruct (existsb (same_value (pid p)) seen); [exact Hx |].
    apply in_or_app. now left. }
  assert (Hgen : forall l seen, In q l -> In (pid q) (fold_left add l seen)).
  { induction l as [| p rest IH]; intros seen [].
    - subst p. cbn. apply Hkeep. unfold add.
      destruct (existsb (same_value (pid q)) seen) eqn:E.
      + apply existsb_exists in E. destruct E as (x & Hx & Hv).
        apply same_value_eq in Hv. now subst x.
      + apply in_or_app. right. now left.
    - cbn. now apply IH. }
  apply Hgen.
Qed.

(** X14: [detectPorts] spawns [lsof -i -P -n] first.  If the command
    cannot be spawned the error is thrown on; if it exits with a status
    other than 0 an error is thrown, the permission message when the
    error output mentions [Permission denied], the exit status and error
    output otherwise, and nothing else is run.  If it exits with 0 the
    call resolves to the parsed lines completed from a batch resolution
    that has an entry for every listed process: the command, working
    directory and lifetime of every returned port are those of the entry
    of its pid. *)
Theorem detectPorts_outcome (env : Env) (policy : CachePolicy) (a : AdapterState) :
  match spawn_result env (trace (world a)) UnixDiscovery.lsof_listing with
  | Ok result =>
      if exitCode result =? 0 then
        exists batch a',
          UnixDiscovery.detectPorts env policy a
          = (Ok (Unix.parseLsofOutput (stdout result) batch), a')
          /\ length (Unix.parseLsofOutput (stdout result) batch)
             = length (Unix.parseLsofLines (stdout result))
          /\ Forall (fun q => exists info,
                       batch !! pid q = Some info
                       /\ command q = pi_command info
                       /\ cwd q = pi_cwd info
                       /\ lifetime q = pi_lifetime info)
                    (Unix.parseLsofOutput (stdout result) batch)
      else
        exists a',
          UnixDiscovery.detectPorts env policy a
          = (Throw (if includes (lit "Permission denied") (stderr result)
                    then UnixDiscovery.permission_denied
                    else UnixDiscovery.lsof_failed result), a')
          /\ trace (world a') = trace (world a) ++ [Spawn UnixDiscovery.lsof_listing]
  | Throw e =>
      exists a',
        UnixDiscovery.detectPorts env policy a = (Throw e, a')
        /\ trace (world a') = trace (world a) ++ [Spawn UnixDiscovery.lsof_listing]
  end.
Proof.
  assert (Hstart : forall k : ProcResult -> M AdapterState (list PortInfo),
            (spawnProcess env UnixDiscovery.lsof_listing ≫= k) a
            = match spawn_result env (trace (world a)) UnixDiscovery.lsof_listing with
              | Ok result => k result (record_event (Spawn UnixDiscovery.lsof_listing) a)
              | Throw e => (Throw e, record_event (Spawn UnixDiscovery.lsof_listing) a)
              end) by reflexivity.
  unfold UnixDiscovery.detectPorts, try_catch. rewrite Hstart. clear Hstart.
  destruct (spawn_result env (trace (world a)) UnixDiscovery.lsof_listing) as [result | e].
  2:{ eexists. split; reflexivity. }
  destruct (exitCode result =? 0) eqn:Hexit; cbn [negb].
  - unfold UnixDiscovery.parseLsofOutput, mbind, M_bind.
    match goal with |- context [UnixDiscovery.getBatchProcessInfo _ _ ?pids ?a1] =>
      destruct (getBatchProcessInfo_spec env policy pids a1)
        as (batch & a' & Hrun & Hin & _) end.
    rewrite Hrun. exists batch, a'. split; [reflexivity |].
    unfold Unix.parseLsofOutput. split; [apply length_map |].
    apply List.Forall_forall. intros q' Hq'.
    apply in_map_iff in Hq'. destruct Hq' as (q & <- & Hq).
    specialize (Hin (pid q) (uniquePids_In _ _ Hq)).
    assert (Hsome : exists info, batch !! pid q = Some info).
    { destruct (CacheManager.get _ _ _); [eauto | destruct Hin as (i & Hi & _); eauto]. }
    destruct Hsome as (info & Hinfo).
    exists info. unfold Unix.mergeProcessInfo. rewrite Hinfo. cbn. auto.
  - destruct (includes (lit "Permission denied") (stderr result));
      eexists; split; reflexivity.
Qed.


(** X16: the working directories are read back from the report of
    [lsof -Fn]: for processes reported one after the other, each by a
    [p] line, an [f] line and an [n] line, the map built by
    [getBatchProcessCWD] sends the number read from each [p] line to the
    path of the [n] line that follows it, a later report of the same pid
    replacing an earlier one; [f] lines are ignored. *)
Theorem parseCwdOutput_reads_report (entries : list (str * str)) :
  Forall (fun e => no_newline (fst e) /\ no_newline (snd e)) entries ->
  UnixDiscovery.parseCwdOutput (cwd_report entries)
  = fold_left (fun m e => <[parseInt (fst e) := snd e]> m) entries ∅.
Proof.
  intros Hall. unfold UnixDiscovery.parseCwdOutput.
  assert (Hgen : forall m,
            fold_left UnixDiscovery.cwd_step (lines (cwd_report entries)) (m, None)
            = (fold_left (fun m e => <[parseInt (fst e) := snd e]> m) entries m, None)).
  { induction Hall as [| [ds path] rest [Hds Hpath] _ IH]; intros m.
    - reflexivity.
    - unfold cwd_report in *. cbn [flat_map fst snd]. unfold lines in *.
      rewrite <- !app_assoc. cbn [app].
      change (lit "p" ++ ds ++ newline :: ?r) with (("p"%char :: ds) ++ newline :: r).
      rewrite (split_by_field (Ascii.eqb newline) ("p"%char :: ds));
        [| cbn; exact Hds | apply Ascii.eqb_refl].
      change (lit "fcwd" ++ newline :: ?r) with (lit "fcwd" ++ newline :: r).
      rewrite (split_by_field (Ascii.eqb newline) (lit "fcwd"));
        [| reflexivity | apply Ascii.eqb_refl].
      change (lit "n" ++ path ++ newline :: ?r) with (("n"%char :: path) ++ newline :: r).
      rewrite (split_by_field (Ascii.eqb newline) ("n"%char :: path));
        [| cbn; exact Hpath | apply Ascii.eqb_refl].
      cbn [fold_left]. rewrite <- IH. reflexivity. }
  now rewrite Hgen.
Qed.

Lemma parseCwdOutput_reads_report_witness :
  UnixDiscovery.parseCwdOutput
    (cwd_report [(lit "4242", lit "/srv/app"); (lit "77", lit "/")])
  = fold_left (fun m e => <[parseInt (fst e) := snd e]> m)
              [(lit "4242", lit "/srv/app"); (lit "77", lit "/")] ∅.
Proof.
  apply (parseCwdOutput_reads_report [(lit "4242", lit "/srv/app"); (lit "77", lit "/")]).
  repeat constructor.
Defined.

(** ** Discovery on Windows *)

(** X17: on Windows [detectPorts] never returns a port.  The parser
    keeps a line of [netstat -ano] only if its last column is the word
    [LISTENING] and then reads the pid from that same column, so every
    line is dropped: whenever the call resolves, it resolves to the
    empty list, and the metadata of no process is asked for. *)
Theorem windows_detectPorts_finds_nothing (env : Env)
    (getBatchProcessInfo : list num -> M AdapterState (gmap (option Z) ProcessInfo))
    (a a' : AdapterState) (ports : list PortInfo) :
  WindowsDiscovery.detectPorts env getBatchProcessInfo a = (Ok ports, a') ->
  ports = []
  /\ exists result batch,
       spawn_result env (trace (world a)) WindowsDiscovery.netstat_listing = Ok result
       /\ exitCode result = 0
       /\ getBatchProcessInfo [] (record_event (Spawn WindowsDiscovery.netstat_listing) a)
          = (Ok batch, a').
Proof.
  unfold WindowsDiscovery.detectPorts, try_catch.
  unfold mbind at 1, M_bind at 1, spawnProcess at 1.
  destruct (spawn_result env (trace (world a)) WindowsDiscovery.netstat_listing)
    as [result | e]; [| discriminate].
  destruct (exitCode result =? 0) eqn:Hexit; cbn [negb]; [| discriminate].
  cbv zeta. rewrite parseNetstatOutput_empty. cbn [Unix.uniquePids fold_left List.map].
  unfold mbind, M_bind.
  destruct (getBatchProcessInfo [] _) as [[batch | e] a1] eqn:Hbatch; [| discriminate].
  intros [= <- <-]. split; [reflexivity |].
  exists result, batch. split; [reflexivity |].
  split; [now apply Z.eqb_eq | reflexivity].
Qed.

Lemma windows_detectPorts_finds_nothing_witness :
  exists a',
    WindowsDiscovery.detectPorts env_windows_host (fun _ => mret ∅) fresh_adapter
    = (Ok [], a').
Proof.
  destruct (WindowsDiscovery.detectPorts env_windows_host (fun _ => mret ∅) fresh_adapter)
    as [[ports | e] a'] eqn:Hrun.
  - destruct (windows_detectPorts_finds_nothing _ _ _ _ _ Hrun) as [-> _].
    exists a'. reflexivity.
  - exfalso. vm_compute in Hrun. discriminate.
Defined.

(** ** Sorting and filtering ([src/utils/filter-utils.ts]) *)

Lemma minus_key (key : PortInfo -> num) (a b : PortInfo) :
  key a <> None -> key b <> None ->
  (minus (key a) (key b) <= 0 <-> or_zero (key a) <= or_zero (key b)).
Proof.
  destruct (key a), (key b); cbn; try congruence. intros _ _. lia.
Qed.

(** X18: [sortPorts] returns the ports it was given, each as often as
    it was given, in another order; sorted by port or by pid, the result
    is in nondecreasing order of that number when none is [NaN]. *)
Theorem sortPorts_sorts (env : Env) (ps : list PortInfo) (o : SortOption) :
  Permutation (sortPorts env ps o) ps
  /\ (o = SortPort -> Forall (fun p => port p <> None) ps ->
      StronglySorted (key_le (fun p => or_zero (port p))) (sortPorts env ps o))
  /\ (o = SortPid -> Forall (fun p => pid p <> None) ps ->
      StronglySorted (key_le (fun p => or_zero (pid p))) (sortPorts env ps o)).
Proof.
  unfold sortPorts. split; [apply sort_perm |]. split; intros -> Hall.
  - apply (sort_sorted _ _ (fun p => port p <> None)); [| exact Hall].
    intros a b. apply (minus_key port).
  - apply (sort_sorted _ _ (fun p => pid p <> None)); [| exact Hall].
    intros a b. apply (minus_key pid).
Qed.

Lemma sortPorts_sorts_witness :
  StronglySorted (key_le (fun p => or_zero (port p)))
    (sortPorts env_demo [demo_port 8080 1; demo_port 3000 2; demo_port 5173 3] SortPort).
Proof.
  apply (sortPorts_sorts env_demo [demo_port 8080 1; demo_port 3000 2; demo_port 5173 3]
           SortPort); [reflexivity |].
  repeat constructor; discriminate.
Defined.

Lemma unless_empty_some ps qs : unless_empty ps = Some qs <-> ps = qs /\ qs <> [].
Proof.
  destruct ps; cbn; split.
  - discriminate.
  - intros [<- H]. contradiction.
  - intros [= <-]. split; [reflexivity | discriminate].
  - intros [<- _]. reflexivity.
Qed.

Lemma filter_all {A} (f : A -> bool) (l : list A) :
  (forall x, f x = true) -> List.filter f l = l.
Proof.
  intros H. induction l as [| x r IH]; cbn; [reflexivity |]. now rewrite H, IH.
Qed.

Lemma filter_both {A} (f g : A -> bool) (l : list A) :
  List.filter g (List.filter f l) = List.filter (fun x => f x && g x) l.
Proof.
  induction l as [| x r IH]; cbn; [reflexivity |].
  destruct (f x); cbn; [destruct (g x) |]; now rewrite IH.
Qed.

Lemma Forall_filter_keeps {A} (P : A -> Prop) (f : A -> bool) (l : list A) :
  Forall P l -> Forall P (List.filter f l).
Proof.
  rewrite !List.Forall_forall. intros H x Hx. apply filter_In in Hx. now apply H.
Qed.

Lemma filter_group_reduced env o g g' :
  filter_group env o g = Some g' -> reduced env o g g'.
Proof.
  unfold filter_group, reduced, passing.
  set (t := given (fo_type o)). set (u := given (fo_user o)). set (pr := given (fo_process o)).
  set (f1 := fun p : PortInfo =>
               match t with
               | Some t0 => minimatch env (g_type g) t0
                            || minimatch env (categorize_port env p) t0
               | None => true
               end).
  set (f2 := fun p : PortInfo =>
               match u with Some u0 => minimatch env (user p) u0 | None => true end).
  set (f3 := fun p : PortInfo =>
               match pr with
               | Some pr0 => minimatch env (processName p) pr0
                             || minimatch env (command p) pr0
               | None => true
               end).
  change (List.filter (passes env o g) (g_ports g))
    with (List.filter (fun p => f1 p && f2 p && f3 p) (g_ports g)).
  intros H.
  destruct (match t with
            | Some t0 => if minimatch env (g_type g) t0 then Some (g_ports g)
                         else unless_empty (filterByType env (g_ports g) t0)
            | None => Some (g_ports g) end) as [ps1 |] eqn:H1; [| discriminate].
  cbn in H.
  destruct (match u with
            | Some u0 => unless_empty (filterByUser env ps1 u0)
            | None => Some ps1 end) as [ps2 |] eqn:H2; [| discriminate].
  cbn in H.
  destruct (match pr with
            | Some pr0 => unless_empty (filterByProcess env ps2 pr0)
            | None => Some ps2 end) as [ps3 |] eqn:H3; [| discriminate].
  cbn in H.
  assert (Hp1 : ps1 = List.filter f1 (g_ports g)).
  { unfold f1. destruct t as [t0 |].
    - destruct (minimatch env (g_type g) t0).
      + injection H1 as <-. symmetry. now apply filter_all.
      + apply unless_empty_some in H1. destruct H1 as [<- _]. reflexivity.
    - injection H1 as <-. symmetry. now apply filter_all. }
  assert (Hp2 : ps2 = List.filter f2 ps1).
  { unfold f2. destruct u as [u0 |].
    - apply unless_empty_some in H2. destruct H2 as [<- _]. reflexivity.
    - injection H2 as <-. symmetry. now apply filter_all. }
  assert (Hp3 : ps3 = List.filter f3 ps2).
  { unfold f3. destruct pr as [pr0 |].
    - apply unless_empty_some in H3. destruct H3 as [<- _]. reflexivity.
    - injection H3 as <-. symmetry. now apply filter_all. }
  assert (Hps : ps3 = List.filter (fun p => f1 p && f2 p && f3 p) (g_ports g)).
  { rewrite Hp3, Hp2, Hp1, !filter_both.
    apply filter_ext. intros p. now rewrite andb_assoc. }
  clear H1 H2 H3 Hp1 Hp2 Hp3.
  set (passed := List.filter (fun p => f1 p && f2 p && f3 p) (g_ports g)) in *.
  subst ps3.
  remember (match fo_sort o with Some so => sortPorts env passed so | None => passed end)
    as ps4 eqn:E4.
  destruct ps4 as [| x4 xs4]; [discriminate |]. cbn in H.
  injection H as <-. cbn [g_id g_type collapsed g_ports set_g_ports].
  rewrite E4.
  split; [reflexivity |]. split; [reflexivity |]. split; [reflexivity |].
  split; [rewrite <- E4; discriminate |].
  destruct (fo_sort o) as [so |]; [| split; reflexivity].
  split; [apply sort_perm |]. split; [reflexivity |].
  unfold sortPorts. split; intros -> Hall.
  - apply (sort_sorted _ _ (fun p => port p <> None));
      [intros a b; apply (minus_key port) | now apply Forall_filter_keeps].
  - apply (sort_sorted _ _ (fun p => pid p <> None));
      [intros a b; apply (minus_key pid) | now apply Forall_filter_keeps].
Qed.

Lemma filter_group_none env o g :
  filter_group env o g = None ->
  forall p, In p (g_ports g) -> passes env o g p = false.
Proof.
  unfold filter_group, passes.
  set (t := given (fo_type o)). set (u := given (fo_user o)). set (pr := given (fo_process o)).
  intros H p Hp.
  destruct (match t with Some _ => _ | None => _ end &&
            match u with Some _ => _ | None => _ end &&
            match pr with Some _ => _ | None => _ end) eqn:Hall; [| reflexivity].
  exfalso.
  apply andb_prop in Hall. destruct Hall as [Hab Hc].
  apply andb_prop in Hab. destruct Hab as [Ha Hb].
  assert (H1 : exists ps1,
            match t with
            | Some t0 => if minimatch env (g_type g) t0 then Some (g_ports g)
                         else unless_empty (filterByType env (g_ports g) t0)
            | None => Some (g_ports g) end = Some ps1 /\ In p ps1).
  { destruct t as [t0 |]; [| eauto].
    destruct (minimatch env (g_type g) t0); [eauto |].
    cbn in Ha.
    assert (Hin : In p (filterByType env (g_ports g) t0)).
    { unfold filterByType. apply filter_In. now split. }
    destruct (filterByType env (g_ports g) t0) eqn:E; [destruct Hin |].
    eexists. split; [reflexivity | exact Hin]. }
  destruct H1 as (ps1 & E1 & Hp1). rewrite E1 in H. cbn in H.
  assert (H2 : exists ps2,
            match u with
            | Some u0 => unless_empty (filterByUser env ps1 u0)
            | None => Some ps1 end = Some ps2 /\ In p ps2).
  { destruct u as [u0 |]; [| eauto].
    assert (Hin : In p (filterByUser env ps1 u0)).
    { unfold filterByUser. apply filter_In. now split. }
    destruct (filterByUser env ps1 u0) eqn:E; [destruct Hin |].
    eexists. split; [reflexivity | exact Hin]. }
  destruct H2 as (ps2 & E2 & Hp2). rewrite E2 in H. cbn in H.
  assert (H3 : exists ps3,
            match pr with
            | Some pr0 => unless_empty (filterByProcess env ps2 pr0)
            | None => Some ps2 end = Some ps3 /\ In p ps3).
  { destruct pr as [pr0 |]; [| eauto].
    assert (Hin : In p (filterByProcess env ps2 pr0)).
    { unfold filterByProcess. apply filter_In. now split. }
    destruct (filterByProcess env ps2 pr0) eqn:E; [destruct Hin |].
    eexists. split; [reflexivity | exact Hin]. }
  destruct H3 as (ps3 & E3 & Hp3). rewrite E3 in H. cbn in H.
  set (ps4 := match fo_sort o with Some so => sortPorts env ps3 so | None => ps3 end) in *.
  assert (Hp4 : In p ps4).
  { unfold ps4. destruct (fo_sort o); [| exact Hp3].
    eapply Permutation_in; [symmetry; apply sort_perm | exact Hp3]. }
  destruct ps4; [destruct Hp4 | discriminate].
Qed.

(** X19: [applyFiltersToGroups] returns, in their order, the groups
    that have at least one port passing the filters, each with its
    identity, type and collapsed flag and with exactly its passing
    ports, each as often as the group has it: in the order of the group
    when there is no sort option, and as [sortPorts] orders them when
    there is one (for [port] and [pid], the nondecreasing order of that
    number when none is [NaN]).  A group none of whose ports passes is
    dropped, and no group is returned empty. *)
Theorem applyFiltersToGroups_keeps_passing (env : Env) (gs : list PortGroup)
    (o : FilterOptions) :
  Forall2 (reduced env o)
          (List.filter (fun g => existsb (passes env o g) (g_ports g)) gs)
          (applyFiltersToGroups env gs o).
Proof.
  unfold applyFiltersToGroups.
  induction gs as [| g rest IH]; cbn; [constructor |].
  destruct (filter_group env o g) as [g' |] eqn:Hg.
  - pose proof (filter_group_reduced env o g g' Hg) as Hred.
    assert (Hex : existsb (passes env o g) (g_ports g) = true).
    { destruct Hred as (_ & _ & _ & Hne & Hperm & _).
      destruct (g_ports g') as [| p ps] eqn:E; [contradiction |].
      assert (Hin : In p (passing env o g)).
      { eapply Permutation_in; [exact Hperm | now left]. }
      apply filter_In in Hin. apply existsb_exists. exists p. exact Hin. }
    rewrite Hex. cbn. constructor; assumption.
  - assert (Hex : existsb (passes env o g) (g_ports g) = false).
    { destruct (existsb (passes env o g) (g_ports g)) eqn:E; [| reflexivity].
      apply existsb_exists in E. destruct E as (p & Hp & Hpass).
      rewrite (filter_group_none env o g Hg p Hp) in Hpass. discriminate. }
    rewrite Hex. exact IH.
Qed.

(** ** The event loop never throws *)

Lemma never_ret {A} (a : A) : never_throws (mret a : M Dash A).
Proof. intros d. exists a, d. reflexivity. Qed.

Lemma never_skip : never_throws (skip : M Dash unit).
Proof. apply never_ret. Qed.

Lemma never_bind {A B} (m : M Dash A) (k : A -> M Dash B) :
  never_throws m -> (forall a, never_throws (k a)) -> never_throws (m ≫= k).
Proof.
  intros Hm Hk d. destruct (Hm d) as (a & d1 & E1).
  destruct (Hk a d1) as (b & d2 & E2).
  exists b, d2. unfold mbind, M_bind. now rewrite E1, E2.
Qed.

Lemma never_modify (g : Dash -> Dash) : never_throws (modify g).
Proof. intros d. exists tt, (g d). reflexivity. Qed.

Lemma never_get : never_throws (get_state : M Dash Dash).
Proof. intros d. exists d, d. reflexivity. Qed.

Lemma never_when (c : bool) (m : M Dash unit) : never_throws m -> never_throws (when c m).
Proof. intros Hm. destruct c; [exact Hm | apply never_skip]. Qed.

Lemma never_try_catch {A} (body : M Dash A) (h : Err -> M Dash A) :
  (forall e, never_throws (h e)) -> never_throws (try_catch body h).
Proof.
  intros Hh d. unfold try_catch.
  destruct (body d) as [[a | e] d1]; [exists a, d1; reflexivity |].
  apply Hh.
Qed.

Lemma never_within {A} R (m : M Dash A) : within R m -> never_throws m.
Proof. intros H d. destruct (H d) as (a & d' & E & _). eauto. Qed.

(** Splits a sequence of statements into its steps and closes the
    steps that are state updates, reads or branches on a test. *)
Ltac never_step :=
  first
    [ apply never_skip
    | apply never_ret
    | apply never_get
    | apply never_modify
    | apply never_when
    | apply never_bind; [| intros ?]
    | match goal with
      | |- never_throws (if ?c then _ else _) => destruct c
      | |- never_throws (match ?o with Some _ => _ | None => _ end) => destruct o
      end ].

Section Total.
Variable env : Env.
Variable platform : Platform.

Lemma never_render : never_throws (render env).
  Proof. eapply never_within, paint_render. Qed.

Lemma never_getFilteredPorts : never_throws getFilteredPorts.
  Proof. eapply never_within, paint_getFilteredPorts. Qed.

Lemma never_getSelectedPort : never_throws getSelectedPort.
  Proof. eapply never_within, paint_getSelectedPort. Qed.

Lemma never_setState f : never_throws (setState f).
  Proof. apply never_modify. Qed.

Lemma never_moveSelection direction : never_throws (moveSelection direction).
  Proof.
    unfold moveSelection.
    apply never_bind; [apply never_getFilteredPorts | intros rows].
    destruct (length rows =? 0)%nat; [apply never_ret |].
    repeat (never_step || apply never_setState).
  Qed.

Lemma never_applySorting : never_throws (applySorting env).
  Proof. unfold applySorting. repeat (never_step || apply never_setState). Qed.

Lemma never_toggleGroup : never_throws toggleGroup.
  Proof.
    unfold toggleGroup.
    apply never_bind; [apply never_getSelectedPort | intros sel].
    destruct sel; [apply never_setState | apply never_ret].
  Qed.

Lemma never_refresh : never_throws (refresh env).
  Proof.
    unfold refresh. apply never_try_catch. intros e. apply never_modify.
  Qed.

Lemma never_stop : never_throws stop.
  Proof. unfold stop, renderer_clear, draw, renderer_render. repeat never_step. Qed.

Lemma never_unless_modal m :
    never_throws m -> never_throws (DashboardHandlers.unless_modal m).
  Proof.
    intros Hm. unfold DashboardHandlers.unless_modal.
    apply never_bind; [apply never_get | intros d].
    destruct (DashboardHandlers.isModalOpen (state d)); [apply never_skip | exact Hm].
  Qed.

  (** Every handler that is not an [async] function returns. *)
Lemma never_sync_handler key handler :
    Keyboard.lookup_handler key
      (DashboardHandlers.registered env platform (getHandlers env)) = Some (false, handler) ->
    never_throws handler.
  Proof.
    unfold DashboardHandlers.registered. cbn [Keyboard.lookup_handler].
    repeat match goal with
           | |- (if ?c then _ else _) = _ -> _ => destruct c
           | |- Some _ = Some _ -> _ => intros [= <-]
           | |- None = Some _ -> _ => discriminate
           end;
      try discriminate.
    - unfold DashboardHandlers.on_quit, exit. cbn [h_stop getHandlers].
      apply never_bind; [apply never_stop | intros; apply never_modify].
    - unfold DashboardHandlers.on_up. cbn [h_moveSelection h_render getHandlers].
      apply never_unless_modal.
      apply never_bind; [apply never_moveSelection | intros; apply never_render].
    - unfold DashboardHandlers.on_down. cbn [h_moveSelection h_render getHandlers].
      apply never_unless_modal.
      apply never_bind; [apply never_moveSelection | intros; apply never_render].
    - unfold DashboardHandlers.on_search. cbn [h_render getHandlers].
      apply never_unless_modal.
      apply never_bind; [apply never_setState | intros; apply never_render].
    - unfold DashboardHandlers.on_toggle_group.
      cbn [h_toggleGroup h_clearFilteredPortsCache h_render getHandlers].
      apply never_unless_modal.
      apply never_bind; [apply never_toggleGroup | intros].
      apply never_bind; [apply never_modify | intros; apply never_render].
    - unfold DashboardHandlers.on_toggle_details. cbn [h_render getHandlers].
      apply never_unless_modal.
      apply never_bind; [apply never_setState | intros; apply never_render].
    - unfold DashboardHandlers.on_sort. cbn [h_applySorting h_render getHandlers].
      apply never_unless_modal.
      apply never_bind; [apply never_setState | intros].
      apply never_bind; [apply never_applySorting | intros; apply never_render].
    - unfold DashboardHandlers.on_sort. cbn [h_applySorting h_render getHandlers].
      apply never_unless_modal.
      apply never_bind; [apply never_setState | intros].
      apply never_bind; [apply never_applySorting | intros; apply never_render].
    - unfold DashboardHandlers.on_sort. cbn [h_applySorting h_render getHandlers].
      apply never_unless_modal.
      apply never_bind; [apply never_setState | intros].
      apply never_bind; [apply never_applySorting | intros; apply never_render].
    - unfold DashboardHandlers.on_help. cbn [h_render getHandlers].
      apply never_bind; [apply never_setState | intros; apply never_render].
    - unfold DashboardHandlers.on_escape.
      cbn [h_clearFilteredPortsCache h_render getHandlers].
      apply never_bind; [apply never_get | intros d]. cbv zeta.
      repeat match goal with
             | |- never_throws (if ?c then _ else _) => destruct c
             end;
        repeat first [ apply never_skip | apply never_render | apply never_setState
                     | apply never_modify | apply never_bind; [| intros ?] ].
  Qed.

Lemma never_on_any key : never_throws (Keyboard.on_any env key).
  Proof.
    unfold Keyboard.on_any.
    apply never_bind; [apply never_get | intros d].
    repeat match goal with
           | |- never_throws (if ?c then _ else _) => destruct c
           end;
      repeat first [ apply never_skip | apply never_render | apply never_modify
                   | apply never_bind; [| intros ?] ].
  Qed.

Lemma never_on_data sequence : never_throws (Keyboard.on_data env platform sequence).
  Proof.
    unfold Keyboard.on_data.
    apply never_bind; [apply never_get | intros d].
    destruct (exited d); [apply never_skip |]. cbv zeta.
    destruct (str_eqb (Keyboard.parseKey sequence) (lit "ctrl+c"));
      [apply never_modify |].
    apply never_bind.
    - destruct (Keyboard.lookup_handler _ _) as [[[] handler] |] eqn:Hh.
      + apply never_try_catch. intros; apply never_skip.
      + eapply never_sync_handler, Hh.
      + apply never_skip.
    - intros _. apply never_bind; [apply never_get | intros d'].
      destruct (exited d'); [apply never_skip | apply never_on_any].
  Qed.

  (** X20: no input, timer tick or resize makes the event loop throw:
      every step of a dashboard returns, whatever the environment
      answers.  The handlers that are not [async] functions have nothing
      in them that can throw, the rejection of an [async] handler is
      swallowed by the listener, and [refresh] logs its own errors. *)
Theorem step_never_throws (a : Keyboard.Action) (d : Dash) :
    exists d', Keyboard.step env platform a d = (Ok tt, d').
  Proof.
    assert (H : never_throws (Keyboard.step env platform a)).
    { unfold Keyboard.step.
      apply never_bind; [apply never_get | intros d0].
      destruct (exited d0); [apply never_skip |].
      destruct a as [sequence | | width height].
      - apply never_on_data.
      - unfold on_timer. apply never_bind; [apply never_get | intros d1].
        destruct (isRunning d1); [| apply never_skip].
        apply never_bind; [apply never_refresh | intros; apply never_render].
      - unfold on_resize.
        apply never_bind; [apply never_modify | intros; apply never_render]. }
    destruct (H d) as ([] & d' & E). eauto.
  Qed.
End Total.

(** ** Invariants of the dashboard *)

Lemma triple_ret {A} (P : Dash -> Prop) (a : A) (Q : A -> Dash -> Prop) E :
  (forall d, P d -> Q a d) -> triple P (mret a) Q E.
Proof. intros H d Hd. now apply H. Qed.

Lemma triple_bind {A B} P (m : M Dash A) (k : A -> M Dash B) Q R E :
  triple P m Q E -> (forall a, triple (Q a) (k a) R E) -> triple P (m ≫= k) R E.
Proof.
  intros Hm Hk d Hd. specialize (Hm d Hd).
  unfold mbind, M_bind. destruct (m d) as [[a | e] d1]; [| exact Hm].
  now apply Hk.
Qed.

Lemma triple_get (P : Dash -> Prop) (Q : Dash -> Dash -> Prop) E :
  (forall d, P d -> Q d d) -> triple P get_state Q E.
Proof. intros H d Hd. now apply H. Qed.

Lemma triple_modify (P : Dash -> Prop) (g : Dash -> Dash) (Q : unit -> Dash -> Prop) E :
  (forall d, P d -> Q tt (g d)) -> triple P (modify g) Q E.
Proof. intros H d Hd. now apply H. Qed.

Lemma triple_try_catch {A} P (body : M Dash A) (h : Err -> M Dash A) Q E' E :
  triple P body Q E' -> (forall e, triple E' (h e) Q E) -> triple P (try_catch body h) Q E.
Proof.
  intros Hb Hh d Hd. specialize (Hb d Hd). unfold try_catch.
  destruct (body d) as [[a | e] d1]; [exact Hb |]. now apply Hh.
Qed.

Lemma triple_try_finally {A} P (body : M Dash A) (fin : M Dash unit) F (Q : A -> Dash -> Prop) E :
  triple P body (fun _ => F) F ->
  triple F fin (fun _ d => (forall a, Q a d) /\ E d) E ->
  triple P (try_finally body fin) Q E.
Proof.
  intros Hb Hf d Hd. specialize (Hb d Hd). unfold try_finally.
  destruct (body d) as [r d1].
  assert (HF : F d1) by (destruct r; exact Hb).
  specialize (Hf d1 HF). destruct (fin d1) as [[[] | e] d2]; [| exact Hf].
  destruct r; [apply Hf | apply Hf].
Qed.

Lemma triple_weaken {A} (P P' : Dash -> Prop) (m : M Dash A) (Q Q' : A -> Dash -> Prop)
    (E E' : Dash -> Prop) :
  triple P' m Q' E' ->
  (forall d, P d -> P' d) -> (forall a d, Q' a d -> Q a d) -> (forall d, E' d -> E d) ->
  triple P m Q E.
Proof.
  intros H HP HQ HE d Hd. specialize (H d (HP d Hd)).
  destruct (m d) as [[a | e] d1]; auto.
Qed.

Lemma triple_within {A} P R (m : M Dash A) (Q : A -> Dash -> Prop) E :
  within R m -> (forall d d' a, P d -> R d d' -> Q a d') -> triple P m Q E.
Proof.
  intros Hm H d Hd. destruct (Hm d) as (a & d' & -> & HR). eauto.
Qed.

Lemma keeps_ret {A} I (a : A) : keeps I (mret a).
Proof. now apply triple_ret. Qed.

Lemma keeps_skip I : keeps I (skip : M Dash unit).
Proof. apply keeps_ret. Qed.

Lemma keeps_bind {A B} I (m : M Dash A) (k : A -> M Dash B) :
  keeps I m -> (forall a, keeps I (k a)) -> keeps I (m ≫= k).
Proof. intros Hm Hk. eapply triple_bind; [exact Hm | exact Hk]. Qed.

Lemma keeps_get I : keeps I get_state.
Proof. now apply triple_get. Qed.

Lemma keeps_modify I (g : Dash -> Dash) : (forall d, I d -> I (g d)) -> keeps I (modify g).
Proof. intros H. now apply triple_modify. Qed.

Lemma keeps_when I (c : bool) (m : M Dash unit) : keeps I m -> keeps I (when c m).
Proof. intros H. destruct c; [exact H | apply keeps_skip]. Qed.

Lemma keeps_try_catch {A} I (body : M Dash A) (h : Err -> M Dash A) :
  keeps I body -> (forall e, keeps I (h e)) -> keeps I (try_catch body h).
Proof. intros Hb Hh. eapply triple_try_catch; [exact Hb | exact Hh]. Qed.

Lemma keeps_try_finally {A} I (body : M Dash A) (fin : M Dash unit) :
  keeps I body -> keeps I fin -> keeps I (try_finally body fin).
Proof.
  intros Hb Hf. eapply triple_try_finally; [exact Hb |].
  eapply triple_weaken; [exact Hf | auto | cbn; auto | auto].
Qed.

Lemma keeps_run I (step : Keyboard.Action -> M Dash unit) actions :
  (forall a, keeps I (step a)) ->
  forall d, I d -> I (fold_left (fun d a => snd (step a d)) actions d).
Proof.
  intros Hstep. induction actions as [| a rest IH]; intros d Hd; [exact Hd |].
  cbn. apply IH. specialize (Hstep a d Hd).
  destruct (step a d) as [[[] | e] d']; exact Hstep.
Qed.

(** *** A render, for any relation its steps respect *)

Section RenderWithin.
Variable env : Env.
Variable R : Dash -> Dash -> Prop.
Hypothesis R_refl : forall d, R d d.
Hypothesis R_trans : forall a b c, R a b -> R b c -> R a c.
Hypothesis R_rows : within R getFilteredPorts.
Hypothesis R_draw : forall op, within R (draw op).
Hypothesis R_clear : within R renderer_clear.
Hypothesis R_flush : within R renderer_render.
Hypothesis R_now : within R (now env).
Hypothesis R_expire :
    within R (setState (fun s => set_killMessageExpiresAt None (set_killMessage None s))).
Hypothesis R_previous : forall v, within R (modify (set_previousRenderState v)).

Ltac seq := apply within_bind; [exact R_trans | | intros ?].
Ltac done_ := first [ apply within_skip; exact R_refl
                      | apply within_ret; exact R_refl
                      | apply within_get; exact R_refl
                      | apply R_draw | exact R_clear | exact R_flush | exact R_rows
                      | exact R_now | exact R_expire | apply R_previous ].
Ltac branch :=
    match goal with
    | |- within _ (if ?c then _ else _) => destruct c
    | |- within _ (match ?o with Some _ => _ | None => _ end) => destruct o
    | |- within _ (when _ _) => apply within_when; [exact R_refl |]
    end.

Lemma any_getSelectedPort : within R getSelectedPort.
  Proof.
    unfold getSelectedPort. seq; [done_ |].
    branch; [done_ |]. seq; [done_ | done_].
  Qed.

Lemma any_renderHeader : within R renderHeader.
  Proof. unfold renderHeader. seq; done_. Qed.

Lemma any_renderKillMessage : within R renderKillMessage.
  Proof. unfold renderKillMessage. seq; [done_ |]. branch; done_. Qed.

Lemma any_render_rows rows : forall i maxHeight, within R (render_rows rows i maxHeight).
  Proof.
    induction rows as [| r rows IH]; intros i maxHeight; cbn [render_rows]; [done_ |].
    branch; [| done_]. seq; [unfold renderPortLine; done_ | apply IH].
  Qed.

Lemma any_renderMain : within R renderMain.
  Proof.
    unfold renderMain. seq; [done_ |]. cbv zeta.
    seq; [done_ |]. seq; [apply any_renderHeader |].
    seq; [apply any_render_rows |]. seq; [apply any_getSelectedPort |].
    seq.
    { branch; [| done_]. branch. unfold renderDetails. done_. }
    seq; [done_ |]. branch. apply any_renderKillMessage.
  Qed.

Lemma any_fullRender : within R fullRender.
  Proof.
    unfold fullRender. seq; [done_ |]. seq; [done_ |].
    seq; [apply any_renderMain | done_].
  Qed.

Lemma any_render_changed lineNums current maxHeight :
    within R (render_changed lineNums current maxHeight).
  Proof.
    induction lineNums as [| n rest IH]; cbn [render_changed]; [done_ |].
    seq; [| apply IH].
    repeat branch; first [unfold renderPortLine; done_ | done_].
  Qed.

Lemma any_renderDelta previous current : within R (renderDelta previous current).
  Proof.
    unfold renderDelta. seq; [done_ |]. cbv zeta.
    branch; [apply any_fullRender |].
    seq; [done_ |]. seq; [apply any_renderHeader |].
    seq; [apply any_render_changed |].
    seq.
    { branch; [| done_]. seq; [apply any_getSelectedPort |].
      branch; [unfold renderDetails; done_ | done_]. }
    seq; [branch; apply any_renderKillMessage | done_].
  Qed.

Lemma any_render : within R (render env).
  Proof.
    unfold render. seq; [done_ |].
    branch.
    - seq; [done_ |]. seq; [done_ |]. seq; [done_ |]. seq; [done_ | done_].
    - seq; [done_ |]. cbv zeta.
      seq.
      { unfold clear_expired_message.
        branch; [| done_]. branch; [| done_]. branch; [| done_].
        seq; [done_ |]. branch. done_. }
      seq; [done_ |]. cbv zeta.
      seq; [| done_].
      branch; [| apply any_fullRender].
      branch; [apply any_renderDelta | apply any_fullRender].
  Qed.
End RenderWithin.

(** *** The memo of the flattened list *)

Lemma memo_kept_refl d : memo_kept d d.
Proof. split; auto. Qed.

Lemma memo_kept_trans a b c : memo_kept a b -> memo_kept b c -> memo_kept a c.
Proof. intros [G1 M1] [G2 M2]. split; [congruence | auto]. Qed.

Lemma memo_getFilteredPorts : within memo_kept getFilteredPorts.
Proof.
  intros d. unfold getFilteredPorts.
  set (recalc := (Ok (flatten (filter (state d)) (groups (state d))), _)).
  assert (Hrecalc : exists a d', recalc = (Ok a, d') /\ memo_kept d d').
  { do 2 eexists. split; [reflexivity |]. split; [reflexivity |].
    intros _ c [= <-]. reflexivity. }
  destruct (filteredPortsCache d) as [c |]; [| exact Hrecalc].
  destruct (_ && _ && _); [| exact Hrecalc].
  do 2 eexists. split; [reflexivity | apply memo_kept_refl].
Qed.

(** Closes [memo_kept d (f d)] for an update that leaves the groups and
    the memo alone. *)
Ltac memo_frame := intros; split; [reflexivity | intros H; exact H].

Lemma memo_render env : within memo_kept (render env).
Proof.
  apply any_render.
  - apply memo_kept_refl.
  - apply memo_kept_trans.
  - apply memo_getFilteredPorts.
  - intros op. apply within_modify. memo_frame.
  - apply within_modify. memo_frame.
  - apply within_modify. intros d. destruct (buffer d); memo_frame.
  - intros d. do 2 eexists. split; [reflexivity |]. memo_frame.
  - apply within_modify. memo_frame.
  - intros v. apply within_modify. memo_frame.
Qed.

(** *** The selection and the memo *)

Lemma only_paint_selection d d' :
  only_paint d d' -> selectedIndex (state d') = selectedIndex (state d).
Proof. intros ((km & kme & ->) & _). reflexivity. Qed.

Lemma keeps_sound_within {A} (m : M Dash A) :
  within only_paint m -> within memo_kept m -> keeps sound m.
Proof.
  intros Hp Hm d [Hs Hmemo].
  destruct (Hp d) as (a & d' & E & Hpaint).
  destruct (Hm d) as (a2 & d2 & E2 & _ & Hkept).
  rewrite E in E2. injection E2 as <- <-. rewrite E.
  split; [| now apply Hkept].
  unfold selection_ok. now rewrite (only_paint_selection _ _ Hpaint).
Qed.

Lemma keeps_selection_within {A} (m : M Dash A) :
  within only_paint m -> keeps selection_ok m.
Proof.
  intros Hp d Hs. destruct (Hp d) as (a & d' & -> & Hpaint).
  unfold selection_ok. now rewrite (only_paint_selection _ _ Hpaint).
Qed.

(** Closes the goals left by [keeps_modify] for an update that leaves
    the selected index, the groups and the memo alone. *)
Ltac sound_frame :=
  let d := fresh "d" in
  let H := fresh "H" in
  intros d H; first [ exact H | destruct H; split; assumption ].

Section Sound.
Variable env : Env.
Variable platform : Platform.

Lemma sound_render : keeps sound (render env).
  Proof. apply keeps_sound_within; [apply paint_render | apply memo_render]. Qed.

Lemma sound_getFilteredPorts : keeps sound getFilteredPorts.
  Proof.
    apply keeps_sound_within; [apply paint_getFilteredPorts | apply memo_getFilteredPorts].
  Qed.

Lemma sound_getSelectedPort : keeps sound getSelectedPort.
  Proof.
    apply keeps_sound_within; [apply paint_getSelectedPort |].
    apply any_getSelectedPort;
      [apply memo_kept_refl | apply memo_kept_trans | apply memo_getFilteredPorts].
  Qed.

Lemma sound_setState f :
    (forall st, selectedIndex (f st) = selectedIndex st) ->
    (forall st, groups (f st) = groups st) ->
    keeps sound (setState f).
  Proof.
    intros Hs Hg. apply keeps_modify. intros d [H1 H2]. split.
    - unfold selection_ok in *. cbn. now rewrite Hs.
    - unfold memo_ok in *. cbn. intros c Hc. rewrite Hg. now apply H2.
  Qed.

Lemma sound_os (f : Dash -> World) :
    keeps sound (modify (fun d => set_os (f d) d)).
  Proof. apply keeps_modify. sound_frame. Qed.

Lemma sound_call {A} name (answer : list Event -> Outcome A) :
    keeps sound (call name answer).
  Proof.
    intros d H. unfold call. destruct (answer (trace (os d))); exact H.
  Qed.

Lemma sound_helper {A} (r : Outcome A) : keeps sound (DashboardHandlers.helper r).
  Proof. intros d H. unfold DashboardHandlers.helper. destruct r; exact H. Qed.

Lemma sound_in_os {A} (m : M World A) : keeps sound (DashboardHandlers.in_os m).
  Proof.
    intros d H. unfold DashboardHandlers.in_os.
    destruct (m (os d)) as [[a | e] w]; exact H.
  Qed.

Lemma sound_clear : keeps sound (modify (set_filteredPortsCache None)).
  Proof.
    apply keeps_modify. intros d [H1 H2]. split; [exact H1 |].
    intros c. discriminate.
  Qed.

Lemma sound_moveSelection direction : keeps sound (moveSelection direction).
  Proof.
    intros d [Hs Hm].
    destruct (getFilteredPorts_rows d) as (d1 & Hrows & Hd1 & _).
    destruct (memo_getFilteredPorts d) as (rows & d1' & Hrows' & _ & Hkept).
    rewrite Hrows in Hrows'. injection Hrows' as <- <-.
    specialize (Hkept Hm).
    unfold moveSelection, mbind, M_bind. rewrite Hrows.
    destruct (length (current_rows d) =? 0)%nat eqn:Hlen; [split; [| exact Hkept] |].
    { unfold selection_ok. rewrite Hd1. exact Hs. }
    assert (Hpos : 1 <= of_length (current_rows d)).
    { unfold of_length. apply Nat.eqb_neq in Hlen. lia. }
    unfold setState, modify, get_state, skip, mret, M_ret. cbn.
    destruct (selectedIndex (state d1) + direction <? 0) eqn:E1; cbn.
    - split; [unfold selection_ok; cbn; lia |]. exact Hkept.
    - destruct (selectedIndex (state d1) + direction >=? of_length (current_rows d)) eqn:E2;
        cbn.
      + split; [unfold selection_ok; cbn; lia |]. exact Hkept.
      + split; [unfold selection_ok; cbn; lia |]. exact Hkept.
  Qed.

Lemma selection_setState f :
    (forall st, 0 <= selectedIndex st -> 0 <= selectedIndex (f st)) ->
    keeps selection_ok (setState f).
  Proof. intros H. apply keeps_modify. intros d Hd. unfold selection_ok in *. cbn. auto. Qed.

Lemma selection_applySorting E :
    triple selection_ok (applySorting env) (fun _ => selection_ok) E.
  Proof. intros d Hd. exact Hd. Qed.

  (** [applySorting] ends with an empty memo. *)
Lemma sound_applySorting : triple selection_ok (applySorting env) (fun _ => sound) sound.
  Proof.
    intros d Hd. unfold applySorting, mbind, M_bind, setState, modify. cbn.
    split; [exact Hd | intros c; discriminate].
  Qed.

Lemma sound_refresh : keeps sound (refresh env).
  Proof.
    unfold refresh.
    apply keeps_try_catch; [| intros e; apply keeps_modify; sound_frame].
    eapply triple_bind; [apply sound_call | intros found].
    eapply triple_bind; [apply sound_call | intros result].
    eapply triple_bind; [apply sound_setState; reflexivity | intros ?].
    eapply triple_bind; [apply keeps_get | intros d0].
    eapply (triple_bind _ _ _ (fun _ => selection_ok)).
    { apply triple_modify. intros d [H _]. exact H. }
    intros ?.
    eapply (triple_bind _ _ _ (fun _ => selection_ok)).
    { apply triple_modify. intros d H. exact H. }
    intros ?.
    eapply (triple_bind _ _ _ (fun _ => selection_ok)).
    { destruct (fo_sort (filterOptions d0)).
      - apply triple_modify. intros d H. exact H.
      - apply selection_applySorting. }
    intros ?.
    eapply (triple_bind _ _ _ (fun _ => selection_ok)).
    { eapply triple_within; [apply paint_getFilteredPorts |].
      intros d d' rows H Hp. unfold selection_ok in *.
      now rewrite (only_paint_selection _ _ Hp). }
    intros flatPorts.
    eapply (triple_bind _ _ _ (fun _ => selection_ok)).
    { apply triple_get. auto. }
    intros d1.
    eapply (triple_bind _ _ _ (fun _ => selection_ok)).
    { destruct (selectedIndex (state d1) >=? of_length flatPorts); cbn [when].
      - apply triple_modify. intros d _. unfold selection_ok. cbn. lia.
      - apply triple_ret. auto. }
    intros _. apply triple_modify. intros d H. split; [exact H | intros c; discriminate].
  Qed.
Lemma sound_applySorting_keeps : keeps sound (applySorting env).
  Proof.
    eapply triple_weaken; [apply sound_applySorting | | auto | auto].
    intros d [H _]. exact H.
  Qed.

Lemma sound_toggle_clear (rest : M Dash unit) :
    keeps sound rest ->
    keeps sound (toggleGroup ≫= fun _ => modify (set_filteredPortsCache None) ≫= fun _ => rest).
  Proof.
    intros Hrest.
    eapply (triple_bind _ _ _ (fun _ => selection_ok)).
    - unfold toggleGroup.
      eapply triple_bind; [apply sound_getSelectedPort | intros sel].
      destruct sel.
      + apply triple_modify. intros d [H _]. exact H.
      + apply triple_ret. intros d [H _]. exact H.
    - intros ?. eapply triple_bind; [| intros ?; exact Hrest].
      apply triple_modify. intros d H. split; [exact H | intros c; discriminate].
  Qed.

Lemma sound_stop : keeps sound stop.
  Proof.
    unfold stop, renderer_clear, draw, renderer_render.
    repeat (apply keeps_bind; [| intros ?]); apply keeps_modify; try sound_frame.
    intros d H. destruct (buffer d); exact H.
  Qed.
End Sound.

(** One step of the proof that a handler keeps [sound], chosen by the
    shape of the computation. *)
Ltac sound_step :=
  lazymatch goal with
  | |- keeps _ (mbind _ toggleGroup) => apply sound_toggle_clear
  | |- keeps _ (mbind _ _) => apply keeps_bind; [| intros ?]
  | |- keeps _ (mret _) => apply keeps_ret
  | |- keeps _ skip => apply keeps_skip
  | |- keeps _ get_state => apply keeps_get
  | |- keeps _ (render _) => apply sound_render
  | |- keeps _ (refresh _) => apply sound_refresh
  | |- keeps _ getSelectedPort => apply sound_getSelectedPort
  | |- keeps _ (moveSelection _) => apply sound_moveSelection
  | |- keeps _ (applySorting _) => apply sound_applySorting_keeps
  | |- keeps _ (call _ _) => apply sound_call
  | |- keeps _ (DashboardHandlers.helper _) => apply sound_helper
  | |- keeps _ (DashboardHandlers.in_os _) => apply sound_in_os
  | |- keeps _ stop => apply sound_stop
  | |- keeps _ (setState _) =>
      apply sound_setState; [intros ?; reflexivity | intros ?; reflexivity]
  | |- keeps _ (modify (set_filteredPortsCache None)) => apply sound_clear
  | |- keeps _ (modify _) => apply keeps_modify; sound_frame
  | |- keeps _ (when _ _) => apply keeps_when
  | |- keeps _ (try_finally _ _) => apply keeps_try_finally
  | |- keeps _ (try_catch _ _) => apply keeps_try_catch; [| intros ?]
  | |- keeps _ (if ?c then _ else _) => destruct c
  | |- keeps _ (match ?o with Some _ => _ | None => _ end) => destruct o
  | |- keeps _ (let '(_, _) := ?p in _) => destruct p
  end.

Ltac sound_auto :=
  cbn [h_getSelectedPort h_moveSelection h_applySorting h_toggleGroup h_refresh
       h_render h_stop h_clearFilteredPortsCache h_clearDetectorCache getHandlers];
  cbv zeta;
  repeat sound_step.

Section SoundHandlers.
Variable env : Env.
Variable platform : Platform.

Lemma sound_handleKill :
    keeps sound (DashboardHandlers.handleKill env platform (getHandlers env)).
  Proof.
    unfold DashboardHandlers.handleKill, DashboardHandlers.handleKill_try,
           DashboardHandlers.handleKill_catch, DashboardHandlers.handleKill_finally,
           DashboardHandlers.show_kill_success, now.
    sound_auto.
  Qed.

Lemma sound_registered key b handler :
    Keyboard.lookup_handler key
      (DashboardHandlers.registered env platform (getHandlers env)) = Some (b, handler) ->
    keeps sound handler.
  Proof.
    unfold DashboardHandlers.registered. cbn [Keyboard.lookup_handler].
    repeat match goal with
           | |- (if ?c then _ else _) = _ -> _ => destruct c
           | |- Some _ = Some _ -> _ => intros [= <- <-]
           | |- None = Some _ -> _ => discriminate
           end;
      unfold DashboardHandlers.on_quit, DashboardHandlers.on_up, DashboardHandlers.on_down,
             DashboardHandlers.on_search, DashboardHandlers.on_kill,
             DashboardHandlers.on_copy, DashboardHandlers.on_view_command,
             DashboardHandlers.on_view_logs, DashboardHandlers.on_toggle_group,
             DashboardHandlers.on_toggle_details, DashboardHandlers.on_sort,
             DashboardHandlers.on_help, DashboardHandlers.on_stats,
             DashboardHandlers.on_escape, DashboardHandlers.on_enter,
             DashboardHandlers.unless_modal, exit,
             DashboardHandlers.handleCopy, DashboardHandlers.handleViewCommand,
             DashboardHandlers.handleViewLogs, DashboardHandlers.viewPortLogs,
             DashboardHandlers.getProcessLogs, DashboardHandlers.getProcessCommand;
      sound_auto;
      try apply sound_handleKill.
  Qed.
End SoundHandlers.

Section SoundLoop.
Variable env : Env.
Variable platform : Platform.

Lemma sound_on_any key : keeps sound (Keyboard.on_any env key).
  Proof.
    unfold Keyboard.on_any.
    apply keeps_bind; [apply keeps_get | intros d].
    repeat sound_step.
  Qed.

Lemma sound_on_data sequence : keeps sound (Keyboard.on_data env platform sequence).
  Proof.
    unfold Keyboard.on_data.
    apply keeps_bind; [apply keeps_get | intros d].
    destruct (exited d); [apply keeps_skip |]. cbv zeta.
    destruct (str_eqb (Keyboard.parseKey sequence) (lit "ctrl+c")).
    { apply keeps_modify. sound_frame. }
    apply keeps_bind.
    - destruct (Keyboard.lookup_handler _ _) as [[[] handler] |] eqn:Hh.
      + apply keeps_try_catch; [| intros; apply keeps_skip].
        eapply sound_registered, Hh.
      + eapply sound_registered, Hh.
      + apply keeps_skip.
    - intros ?. apply keeps_bind; [apply keeps_get | intros d'].
      destruct (exited d'); [apply keeps_skip | apply sound_on_any].
  Qed.

Lemma sound_step a : keeps sound (Keyboard.step env platform a).
  Proof.
    unfold Keyboard.step.
    apply keeps_bind; [apply keeps_get | intros d0].
    destruct (exited d0); [apply keeps_skip |].
    destruct a as [sequence | | width height].
    - apply sound_on_data.
    - unfold on_timer. apply keeps_bind; [apply keeps_get | intros d1].
      destruct (isRunning d1); [| apply keeps_skip].
      apply keeps_bind; [apply sound_refresh | intros; apply sound_render].
    - unfold on_resize.
      apply keeps_bind; [| intros; apply sound_render].
      apply keeps_modify. sound_frame.
  Qed.

Lemma memo_rows d :
    memo_ok d -> current_rows d = flatten (filter (state d)) (groups (state d)).
  Proof.
    intros Hm. unfold current_rows, getFilteredPorts.
    destruct (filteredPortsCache d) as [c |] eqn:Hc; [| reflexivity].
    destruct (str_eqb (fc_filter c) (filter (state d))) eqn:Ef; [| reflexivity].
    destruct (str_eqb (fc_groupsHash c) (groupsHash (groups (state d)))); [| reflexivity].
    destruct (sortkey_eqb (fc_sortBy c) (sortBy (state d))); [| reflexivity].
    cbn. apply str_eqb_eq in Ef. rewrite <- Ef. now apply Hm.
  Qed.

  (** X21: the memo of the flattened list never shows through.  From a
      dashboard whose selected index is not negative and whose memo, if
      any, is the flattening of its groups, every sequence of key
      presses, timer ticks and resizes leads to such a dashboard again;
      there [getFilteredPorts] returns exactly the ports of the expanded
      groups that match the current filter, in the order of the groups,
      and the selected index is still not negative. *)
Theorem memo_is_transparent (actions : list Keyboard.Action) (d : Dash) :
    sound d ->
    let d' := Keyboard.run env platform actions d in
    sound d'
    /\ current_rows d' = flatten (filter (state d')) (groups (state d'))
    /\ 0 <= selectedIndex (state d').
  Proof.
    intros Hd d'.
    assert (Hs : sound d').
    { unfold d', Keyboard.run. apply keeps_run; [apply sound_step | exact Hd]. }
    split; [exact Hs |]. split; [apply memo_rows, Hs | apply Hs].
  Qed.
End SoundLoop.

Lemma memo_is_transparent_witness :
  let d' := Keyboard.run env_demo OtherPlatform
              [Keyboard.Data (lit "/"); Keyboard.Data (lit "8"); Keyboard.Tick;
               Keyboard.Data (lit "g")]
              (new_dashboard no_options 80 24) in
  sound d'
  /\ current_rows d' = flatten (filter (state d')) (groups (state d'))
  /\ 0 <= selectedIndex (state d').
Proof.
  apply memo_is_transparent.
  split; [unfold selection_ok; cbn; lia | intros c; discriminate].
Defined.

Section Selected.
Variable env : Env.
Variable platform : Platform.

Lemma getSelectedPort_result d :
    fst (getSelectedPort d)
    = Ok (if (length (current_rows d) =? 0)%nat then None
          else at_index (current_rows d)
                 (Z.min (selectedIndex (state d)) (of_length (current_rows d) - 1))).
  Proof.
    destruct (getFilteredPorts_rows d) as (d' & Hg & Hd' & _).
    unfold getSelectedPort, mbind, M_bind. rewrite Hg.
    destruct (length (current_rows d) =? 0)%nat; [reflexivity |].
    cbn. now rewrite Hd'.
  Qed.

  (** X26: the selection never dangles.  In every state the event loop
      reaches from a dashboard whose selected index is not negative (and
      whose memo is right), [getSelectedPort] returns a row of the list
      on screen whenever that list has a row, and nothing only when the
      list is empty: the keys acting on the selected port find one as
      soon as a port is listed. *)
Theorem selection_never_dangles (actions : list Keyboard.Action) (d : Dash) :
    sound d ->
    let d' := Keyboard.run env platform actions d in
    (current_rows d' <> [] ->
     exists e, fst (getSelectedPort d') = Ok (Some e) /\ In e (current_rows d'))
    /\ (current_rows d' = [] -> fst (getSelectedPort d') = Ok None).
  Proof.
    intros Hd d'.
    assert (Hs : sound d').
    { unfold d', Keyboard.run. apply keeps_run; [apply sound_step | exact Hd]. }
    destruct Hs as [Hsel _]. unfold selection_ok in Hsel.
    rewrite getSelectedPort_result.
    destruct (current_rows d') as [| r rows] eqn:Hrows.
    - split; [congruence | reflexivity].
    - split; [intros _ | discriminate].
      cbn [length Nat.eqb].
      set (l := r :: rows) in *.
      assert (Hlen : 0 < of_length l) by (unfold of_length, l; cbn [length]; lia).
      destruct (at_index_in_range l (Z.min (selectedIndex (state d')) (of_length l - 1)))
        as [e He]; [lia |].
      exists e. split; [now rewrite He |].
      unfold at_index in He.
      destruct (_ <? 0); [discriminate |].
      eapply nth_error_In, He.
  Qed.
End Selected.

Lemma selection_never_dangles_witness :
  let d' := Keyboard.run env_demo OtherPlatform
              [Keyboard.Tick; Keyboard.Data (Keyboard.esc :: lit "[B"); Keyboard.Data (Keyboard.esc :: lit "[B")]
              (new_dashboard no_options 80 24) in
  (current_rows d' <> [] ->
   exists e, fst (getSelectedPort d') = Ok (Some e) /\ In e (current_rows d'))
  /\ (current_rows d' = [] -> fst (getSelectedPort d') = Ok None).
Proof.
  apply selection_never_dangles.
  split; [unfold selection_ok; cbn; lia | intros c; discriminate].
Defined.

(** *** At most one modal *)



Section Count.
Variable env : Env.
Variable platform : Platform.
Variable n : nat.









End Count.






Section CountMethods.
Variable env : Env.
Variable platform : Platform.
Variable n : nat.





End CountMethods.



Section Exclusive.
Variable env : Env.
Variable platform : Platform.











End Exclusive.

Section ExclusiveLoop.
Variable env : Env.
Variable platform : Platform.






End ExclusiveLoop.


(** ** The search text *)

Lemma only_paint_flags d d' : only_paint d d' -> flags (state d') = flags (state d).
Proof. intros ((km & kme & ->) & _). reflexivity. Qed.

Lemma only_paint_filter d d' : only_paint d d' -> filter (state d') = filter (state d).
Proof. intros ((km & kme & ->) & _). reflexivity. Qed.

Lemma only_paint_buffer d d' : only_paint d d' -> searchBuffer d' = searchBuffer d.
Proof. intros H. apply H. Qed.

Lemma only_paint_exited d d' : only_paint d d' -> exited d' = exited d.
Proof. intros H. apply H. Qed.

Lemma flags_searching st fl b :
  flags st = fl ++ [b] -> length fl = 5%nat -> searching st = b.
Proof.
  unfold flags. intros H Hl.
  destruct fl as [| ? [| ? [| ? [| ? [| ? [| ? ?]]]]]]; try discriminate.
  now injection H.
Qed.

Section Search.
Variable env : Env.
Variable platform : Platform.

  (** What [render] leaves of a state. *)
Lemma render_keeps d :
    exists d',
      render env d = (Ok tt, d')
      /\ flags (state d') = flags (state d)
      /\ filter (state d') = filter (state d)
      /\ searchBuffer d' = searchBuffer d
      /\ exited d' = exited d.
  Proof.
    destruct (paint_render env d) as ([] & d' & E & Hp).
    exists d'. split; [exact E |].
    split; [now apply only_paint_flags |].
    split; [now apply only_paint_filter |].
    split; [now apply only_paint_buffer | now apply only_paint_exited].
  Qed.

Lemma escape_ends_search d :
    only_searching d ->
    exists d',
      Keyboard.step env platform (Keyboard.Data [Keyboard.esc]) d = (Ok tt, d')
      /\ nothing_open d'
      /\ filter (state d') = []
      /\ searchBuffer d' = searchBuffer d.
  Proof.
    intros [Hex Hfl].
    pose proof (flags_searching _ [false; false; false; false; false] true Hfl eq_refl) as Hs.
    unfold Keyboard.step, Keyboard.on_data.
    unfold mbind at 1, M_bind at 1, get_state at 1. rewrite Hex.
    unfold mbind at 1, M_bind at 1, get_state at 1. rewrite Hex.
    cbv zeta.
    change (Keyboard.parseKey [Keyboard.esc]) with (lit "escape").
    change (str_eqb (lit "escape") (lit "ctrl+c")) with false. cbv iota.
    change (Keyboard.lookup_handler (lit "escape")
              (DashboardHandlers.registered env platform (getHandlers env)))
      with (Some (false, DashboardHandlers.on_escape (getHandlers env))).
    cbv iota.
    unfold DashboardHandlers.on_escape at 1.
    cbn [h_clearFilteredPortsCache h_render getHandlers].
    unfold mbind at 1, M_bind at 1.
    unfold mbind at 1, M_bind at 1, get_state at 1. cbv zeta. rewrite Hs.
    unfold mbind at 1, M_bind at 1, setState at 1, modify at 1.
    unfold mbind at 1, M_bind at 1, modify at 1.
    match goal with |- context [render env ?d0] =>
      destruct (render_keeps d0) as (d1 & Hr & Hf1 & Hfi1 & Hb1 & He1); rewrite Hr
    end.
    cbn [state set_state set_filteredPortsCache searchBuffer exited] in *.
    unfold mbind at 1, M_bind at 1, get_state at 1.
    replace (exited d1) with false by (now rewrite He1).
    assert (Hfl1 : flags (state d1) = [false; false; false; false; false; false]).
    { rewrite Hf1. unfold flags in *. cbn. injection Hfl as -> -> -> -> -> _. reflexivity. }
    pose proof (flags_searching _ [false; false; false; false; false] false Hfl1 eq_refl)
      as Hs1.
    unfold Keyboard.on_any, mbind at 1, M_bind at 1, get_state at 1. rewrite Hs1.
    cbn [andb]. exists d1. split; [reflexivity |].
    split; [split; [now rewrite He1 | exact Hfl1] |].
    split; [now rewrite Hfi1 | exact Hb1].
  Qed.

Lemma slash_starts_search d :
    nothing_open d ->
    exists d',
      Keyboard.step env platform (Keyboard.Data (lit "/")) d = (Ok tt, d')
      /\ only_searching d'
      /\ filter (state d') = filter (state d)
      /\ searchBuffer d' = searchBuffer d.
  Proof.
    intros [Hex Hfl].
    assert (Hm : DashboardHandlers.isModalOpen (state d) = false).
    { unfold DashboardHandlers.isModalOpen. unfold flags in Hfl.
      injection Hfl as -> -> -> -> -> ->. reflexivity. }
    unfold Keyboard.step, Keyboard.on_data.
    unfold mbind at 1, M_bind at 1, get_state at 1. rewrite Hex.
    unfold mbind at 1, M_bind at 1, get_state at 1. rewrite Hex.
    cbv zeta.
    change (Keyboard.parseKey (lit "/")) with (lit "/").
    change (str_eqb (lit "/") (lit "ctrl+c")) with false. cbv iota.
    change (Keyboard.lookup_handler (lit "/")
              (DashboardHandlers.registered env platform (getHandlers env)))
      with (Some (false, DashboardHandlers.on_search (getHandlers env))).
    cbv iota.
    unfold DashboardHandlers.on_search at 1, DashboardHandlers.unless_modal at 1.
    cbn [h_render getHandlers].
    unfold mbind at 1, M_bind at 1.
    unfold mbind at 1, M_bind at 1, get_state at 1. rewrite Hm.
    unfold mbind at 1, M_bind at 1, setState at 1, modify at 1.
    match goal with |- context [render env ?d0] =>
      destruct (render_keeps d0) as (d1 & Hr & Hf1 & Hfi1 & Hb1 & He1); rewrite Hr
    end.
    cbn [state set_state searchBuffer exited] in *.
    unfold mbind at 1, M_bind at 1, get_state at 1.
    replace (exited d1) with false by (now rewrite He1).
    assert (Hfl1 : flags (state d1) = [false; false; false; false; false; true]).
    { rewrite Hf1. unfold flags in *. cbn. injection Hfl as -> -> -> -> -> _. reflexivity. }
    pose proof (flags_searching _ [false; false; false; false; false] true Hfl1 eq_refl)
      as Hs1.
    unfold Keyboard.on_any, mbind at 1, M_bind at 1, get_state at 1. rewrite Hs1.
    change (existsb is_digit (lit "/")) with false.
    change (str_eqb (lit "/") (lit "backspace")) with false.
    cbn [andb length Nat.eqb].
    exists d1. split; [reflexivity |].
    split; [split; [now rewrite He1 | exact Hfl1] |].
    split; [now rewrite Hfi1 | exact Hb1].
  Qed.

Lemma parseKey_digit c : is_digit c = true -> Keyboard.parseKey [c] = [c].
  Proof.
    destruct c as [[] [] [] [] [] [] [] []]; intros H; try discriminate H; reflexivity.
  Qed.

  (** While the search is on, the handler registered for a digit, if
      any, does nothing: the three sort keys are guarded. *)
Lemma digit_handler_idle c d :
    is_digit c = true ->
    DashboardHandlers.isModalOpen (state d) = true ->
    match Keyboard.lookup_handler [c]
            (DashboardHandlers.registered env platform (getHandlers env)) with
    | Some (true, handler) => try_catch handler (fun _ => skip)
    | Some (false, handler) => handler
    | None => skip
    end d = (Ok tt, d).
  Proof.
    intros Hc Hm.
    assert (Hsort : forall k, DashboardHandlers.on_sort (getHandlers env) k d = (Ok tt, d)).
    { intros k. unfold DashboardHandlers.on_sort, DashboardHandlers.unless_modal.
      unfold mbind, M_bind, get_state. now rewrite Hm. }
    destruct c as [[] [] [] [] [] [] [] []]; try discriminate Hc;
      first [ exact (Hsort ByPort) | exact (Hsort ByProcess) | exact (Hsort ByPid)
            | reflexivity ].
  Qed.

Lemma digit_extends_search c d :
    only_searching d -> is_digit c = true ->
    exists d',
      Keyboard.step env platform (Keyboard.Data [c]) d = (Ok tt, d')
      /\ only_searching d'
      /\ filter (state d') = searchBuffer d ++ [c]
      /\ searchBuffer d' = searchBuffer d ++ [c].
  Proof.
    intros [Hex Hfl] Hc.
    pose proof (flags_searching _ [false; false; false; false; false] true Hfl eq_refl) as Hs.
    assert (Hm : DashboardHandlers.isModalOpen (state d) = true).
    { unfold DashboardHandlers.isModalOpen. rewrite Hs. now rewrite !orb_true_r. }
    unfold Keyboard.step, Keyboard.on_data.
    unfold mbind at 1, M_bind at 1, get_state at 1. rewrite Hex.
    unfold mbind at 1, M_bind at 1, get_state at 1. rewrite Hex.
    cbv zeta. rewrite (parseKey_digit c Hc).
    assert (Hnc : str_eqb [c] (lit "ctrl+c") = false) by (cbn; apply andb_false_r).
    rewrite Hnc.
    unfold mbind at 1, M_bind at 1. rewrite (digit_handler_idle c d Hc Hm).
    unfold mbind at 1, M_bind at 1, get_state at 1. rewrite Hex.
    unfold Keyboard.on_any, mbind at 1, M_bind at 1, get_state at 1. rewrite Hs.
    cbn [length Nat.eqb existsb andb]. rewrite Hc. cbn [orb].
    unfold mbind at 1, M_bind at 1, modify at 1.
    unfold mbind at 1, M_bind at 1, modify at 1.
    unfold mbind at 1, M_bind at 1, modify at 1.
    match goal with |- context [render env ?d0] =>
      destruct (render_keeps d0) as (d1 & Hr & Hf1 & Hfi1 & Hb1 & He1); rewrite Hr
    end.
    cbn [state set_state set_filteredPortsCache set_searchBuffer searchBuffer exited] in *.
    exists d1. split; [reflexivity |].
    split; [split; [now rewrite He1 | now rewrite Hf1] |].
    split; [rewrite Hfi1; reflexivity | exact Hb1].
  Qed.

  (** X23: the text of a search outlives the search.  Escape ends a
      search and empties the filter, but the characters typed stay in
      the search buffer: when the search is started again and a digit is
      typed, the filter becomes the old text followed by that digit. *)
Theorem search_text_survives_escape (d : Dash) (c : ascii) :
    only_searching d -> is_digit c = true ->
    let d1 := Keyboard.run env platform [Keyboard.Data [Keyboard.esc]] d in
    let d3 := Keyboard.run env platform
                [Keyboard.Data [Keyboard.esc]; Keyboard.Data (lit "/"); Keyboard.Data [c]] d in
    searching (state d1) = false /\ filter (state d1) = []
    /\ searching (state d3) = true
    /\ filter (state d3) = searchBuffer d ++ [c].
  Proof.
    intros Hd Hc. unfold Keyboard.run. cbn [fold_left].
    destruct (escape_ends_search d Hd) as (d1 & E1 & H1 & Hf1 & Hb1). rewrite E1. cbn [snd].
    destruct (slash_starts_search d1 H1) as (d2 & E2 & H2 & Hf2 & Hb2). rewrite E2. cbn [snd].
    destruct (digit_extends_search c d2 H2 Hc) as (d3 & E3 & H3 & Hf3 & Hb3).
    rewrite E3. cbn [snd].
    split.
    { destruct H1 as [_ Hfl].
      exact (flags_searching _ [false; false; false; false; false] false Hfl eq_refl). }
    split; [exact Hf1 |]. split.
    { destruct H3 as [_ Hfl].
      exact (flags_searching _ [false; false; false; false; false] true Hfl eq_refl). }
    rewrite Hf3, Hb2, Hb1. reflexivity.
  Qed.
End Search.

Lemma search_text_survives_escape_witness :
  let d1 := Keyboard.run env_demo OtherPlatform [Keyboard.Data [Keyboard.esc]]
              demo_searching in
  let d3 := Keyboard.run env_demo OtherPlatform
              [Keyboard.Data [Keyboard.esc]; Keyboard.Data (lit "/");
               Keyboard.Data ["0"%char]] demo_searching in
  searching (state d1) = false /\ filter (state d1) = []
  /\ searching (state d3) = true
  /\ filter (state d3) = searchBuffer demo_searching ++ ["0"%char].
Proof.
  apply search_text_survives_escape.
  - split; vm_compute; reflexivity.
  - reflexivity.
Defined.

(** ** Refresh and quit *)

Section Refresh.
Variable env : Env.
Variable platform : Platform.

Lemma rows_without_memo d :
    filteredPortsCache d = None ->
    current_rows d = flatten (filter (state d)) (groups (state d)).
  Proof. intros H. unfold current_rows, getFilteredPorts. now rewrite H. Qed.

  (** X24: a refresh whose detector fails leaves the state of the
      dashboard as it was and logs the failure; a refresh that succeeds
      (here without a sort option on the command line) stores the new
      ports and time stamp, drops the memo, and leaves the selected
      index on a row of the new list: unchanged when it still is below
      the number of rows, on the last row otherwise (on 0 when there is
      no row). *)
Theorem refresh_outcome (d : Dash) :
    (forall e,
        detect_result env (trace (os d)) = Throw e ->
        fst (refresh env d) = Ok tt
        /\ state (snd (refresh env d)) = state d
        /\ errors (os (snd (refresh env d)))
           = errors (os d) ++ [lit "Failed to refresh ports: " ++ e])
    /\ (forall found result,
          detect_result env (trace (os d)) = Ok found ->
          process_ports_result env (trace (os d) ++ [Call (lit "detectPorts")]) found
          = Ok result ->
          fo_sort (filterOptions d) = None ->
          let d' := snd (refresh env d) in
          let N := of_length (current_rows d') in
          fst (refresh env d) = Ok tt
          /\ ports (state d') = pp_ports result
          /\ lastUpdate (state d') = pp_timestamp result
          /\ filteredPortsCache d' = None
          /\ (selectedIndex (state d) < N ->
              selectedIndex (state d') = selectedIndex (state d))
          /\ (N <= selectedIndex (state d) ->
              selectedIndex (state d') = Z.max 0 (N - 1))).
  Proof.
    split.
    - intros e He.
      assert (Hr : refresh env d
                   = log_error (lit "Failed to refresh ports: " ++ e)
                       (set_os (mkWorld (trace (os d) ++ [Call (lit "detectPorts")])
                                        (errors (os d))) d)).
      { unfold refresh, try_catch, call.
        unfold mbind at 1, M_bind at 1. now rewrite He. }
      rewrite Hr. cbn. auto.
    - intros found result Hfound Hresult Hsort d' N.
      remember (refresh env d) as r eqn:Hr.
      unfold refresh, try_catch, call in Hr.
      unfold mbind at 1, M_bind at 1 in Hr. rewrite Hfound in Hr.
      unfold mbind at 1, M_bind at 1 in Hr. cbn [os set_os trace] in Hr.
      rewrite Hresult in Hr.
      unfold mbind at 1, M_bind at 1, setState at 1, modify at 1 in Hr.
      unfold mbind at 1, M_bind at 1, get_state at 1 in Hr.
      cbn [filterOptions set_state set_os] in Hr.
      unfold mbind at 1, M_bind at 1, setState at 1, modify at 1 in Hr.
      unfold mbind at 1, M_bind at 1, setState at 1, modify at 1 in Hr.
      rewrite Hsort in Hr.
      unfold mbind at 1, M_bind at 1, applySorting at 1 in Hr.
      unfold mbind at 1, M_bind at 1, setState at 1, modify at 1 in Hr.
      unfold modify at 1 in Hr.
      unfold mbind at 1, M_bind at 1, getFilteredPorts at 1 in Hr.
      cbn [filteredPortsCache set_filteredPortsCache set_state state] in Hr.
      unfold mbind at 1, M_bind at 1, get_state at 1 in Hr.
      cbn [state set_filteredPortsCache set_state] in Hr.
      set (st1 := set_groups (map _ _) _) in Hr.
      set (rows := flatten (filter st1) (groups st1)) in Hr.
      assert (Hsel : selectedIndex st1 = selectedIndex (state d)) by reflexivity.
      assert (Hports : ports st1 = pp_ports result) by reflexivity.
      assert (Hlast : lastUpdate st1 = pp_timestamp result) by reflexivity.
      assert (Hfilter : forall v, filter (set_selectedIndex v st1) = filter st1)
        by reflexivity.
      assert (Hgroups : forall v, groups (set_selectedIndex v st1) = groups st1)
        by reflexivity.
      clearbody st1.
      destruct (selectedIndex st1 >=? of_length rows) eqn:Hge; cbn [when] in Hr.
      + unfold mbind, M_bind, setState, modify in Hr. cbn [fst snd] in Hr.
        subst r d' N. cbn [fst snd].
        rewrite rows_without_memo by reflexivity.
        cbn [state set_state set_filteredPortsCache filteredPortsCache].
        rewrite Hfilter, Hgroups. fold rows.
        repeat split; try assumption; try reflexivity; cbn; lia.
      + unfold mbind, M_bind, skip, mret, M_ret, modify in Hr. cbn [fst snd] in Hr.
        subst r d' N. cbn [fst snd].
        rewrite rows_without_memo by reflexivity.
        cbn [state set_state set_filteredPortsCache filteredPortsCache]. fold rows.
        repeat split; try assumption; try reflexivity; cbn; lia.
  Qed.
End Refresh.

Section Quit.
Variable env : Env.
Variable platform : Platform.

  (** X25: the two ways out of a running dashboard differ.  The [q] key
      is accepted in every state, modal or not: the dashboard stops
      running, the screen is cleared and the cursor shown again in two
      writes, and the process exits.  Ctrl+C typed at the keyboard exits
      the process without a write: the screen is not cleared, the
      pending buffer is not flushed and no show-cursor sequence is
      written. *)
Theorem quit_key_restores_cursor (d : Dash) :
    exited d = false ->
    let q := snd (Keyboard.step env platform (Keyboard.Data (lit "q")) d) in
    let c := snd (Keyboard.step env platform (Keyboard.Data [Keyboard.chr 3]) d) in
    (exited q = true
     /\ isRunning q = false
     /\ state q = state d
     /\ written q = written d ++ [[OpClear]; [OpShowCursor]]
     /\ buffer q = [])
    /\ (exited c = true
        /\ isRunning c = isRunning d
        /\ state c = state d
        /\ written c = written d
        /\ buffer c = buffer d).
  Proof.
    intros Hrun q c. subst q c.
    destruct d; cbn [exited] in Hrun; subst.
    cbn [written state buffer isRunning].
    change (written0 ++ [[OpClear]; [OpShowCursor]])
      with (written0 ++ ([[OpClear]] ++ [[OpShowCursor]])).
    rewrite app_assoc.
    repeat split; vm_compute; reflexivity.
  Qed.
End Quit.

Lemma quit_key_restores_cursor_witness :
  exited demo_dashboard = false
  /\ written (snd (Keyboard.step env_demo OtherPlatform (Keyboard.Data (lit "q"))
                     demo_dashboard))
     = written demo_dashboard ++ [[OpClear]; [OpShowCursor]]
  /\ written (snd (Keyboard.step env_demo OtherPlatform (Keyboard.Data [Keyboard.chr 3])
                     demo_dashboard))
     = written demo_dashboard.
Proof.
  split; [reflexivity|].
  pose proof (quit_key_restores_cursor env_demo OtherPlatform demo_dashboard eq_refl) as H.
  cbv zeta in H. split; [apply H | apply H].
Defined.

(** ** The clipboard *)

Section ClipboardProofs.
Import Clipboard.
Variable stdin_result : list Event -> list str -> str -> Outcome Z.

  (** X27: [copyCommandToClipboard] never throws and never logs.  On a
      platform other than darwin and linux it returns [false] without
      spawning a command.  On linux [xsel] is a fallback for a missing
      [xclip] only: it is spawned exactly when the spawn of [xclip] is
      rejected, so an [xclip] that runs and exits non-zero gives [false]
      with no second attempt. *)
Theorem copyCommandToClipboard_outcome (platform command : str) (w : World) :
    exists b w',
      copyCommandToClipboard stdin_result platform command w = (Ok b, w')
      /\ (str_eqb platform (lit "darwin") = false ->
          str_eqb platform (lit "linux") = false ->
          b = false /\ w' = w)
      /\ (platform = lit "linux" ->
          match stdin_result (trace w) xclip command with
          | Ok exitCode => spawned_since w w' [xclip] /\ b = (exitCode =? 0)
          | Throw _ =>
              spawned_since w w' [xclip; xsel]
              /\ b = match stdin_result (trace w ++ [Spawn xclip]) xsel command with
                     | Ok exitCode => exitCode =? 0
                     | Throw _ => false
                     end
          end)
      /\ (platform = lit "darwin" ->
          spawned_since w w' [pbcopy]
          /\ b = match stdin_result (trace w) pbcopy command with
                 | Ok exitCode => exitCode =? 0
                 | Throw _ => false
                 end).
  Proof.
    unfold copyCommandToClipboard, try_catch.
    destruct (str_eqb platform (lit "darwin")) eqn:Hd.
    - apply str_eqb_eq in Hd. subst platform.
      unfold mbind, M_bind, spawnWithStdin.
      destruct (stdin_result (trace w) pbcopy command) as [c | e] eqn:Hp;
        cbn; do 2 eexists; (split; [reflexivity |]);
        (split; [discriminate |]); (split; [discriminate |]);
        intros _; (split; [split; reflexivity | reflexivity]).
    - destruct (str_eqb platform (lit "linux")) eqn:Hl.
      + apply str_eqb_eq in Hl. subst platform.
        unfold mbind at 1, M_bind at 1, linux_branch, try_catch.
        unfold mbind at 1, M_bind at 1, spawnWithStdin at 1.
        destruct (stdin_result (trace w) xclip command) as [c | e] eqn:Hx.
        * destruct (c =? 0) eqn:Hc; cbn; do 2 eexists; (split; [reflexivity |]);
            (split; [discriminate |]); (split; [| discriminate]);
            intros _; (split; [split; reflexivity | reflexivity]).
        * unfold mbind at 1, M_bind at 1, spawnWithStdin at 1.
          cbn [trace errors].
          destruct (stdin_result (trace w ++ [Spawn xclip]) xsel command) as [c | e'] eqn:Hs;
            cbn; do 2 eexists; (split; [reflexivity |]);
            (split; [discriminate |]); (split; [| discriminate]);
            intros _; (split; [split; cbn; [now rewrite <- app_assoc | reflexivity]
                                          | now rewrite ?Hs]).
      + cbn. do 2 eexists. split; [reflexivity |].
        split; [auto |]. split; intros ->; discriminate.
  Qed.
End ClipboardProofs.

(** ** The forced kill *)

(** X28: a forced [killProcess] issues one command on either adapter,
    [kill -9] or [taskkill /F], without a wait or a liveness check, and
    never throws: the result is [true] exactly when that command was
    spawned and exited with 0. *)
Theorem killProcess_forced_once (env : Env) (p : num) (a : AdapterState) :
  forced_once env (Unix.kill_9 p) a (Unix.killProcess env p true a)
  /\ forced_once env (Windows.taskkill_f p) a (Windows.killProcess env p true a).
Proof.
  split.
  - unfold forced_once, Unix.killProcess, Unix.killProcess_try, try_catch,
      Unix.finish, when, mbind, M_bind, skip, mret, M_ret,
      invalidateProcessCache, logger_error, modify, spawnProcess.
    destruct (spawn_result env (trace (world a)) (Unix.kill_9 p)) as [proc | e];
      [destruct (exitCode proc =? 0), (truthy (stderr proc)) |]; cbn; auto.
  - unfold forced_once, Windows.killProcess, Windows.killProcess_try, try_catch,
      Windows.finish, when, mbind, M_bind, skip, mret, M_ret,
      invalidateProcessCache, logger_error, modify, spawnProcess.
    destruct (spawn_result env (trace (world a)) (Windows.taskkill_f p)) as [proc | e];
      [destruct (exitCode proc =? 0), (truthy (stderr proc)) |]; cbn; auto.
Qed.

